(** * jaxlib/py_device_list.cc: the dual-representation device list

    A shallow embedding of [jax::PyDeviceList] (jaxlib/py_device_list.cc) and
    of the part of its collaborators it consumes ([jax::PyDevice] of
    jaxlib/py_device.h, [jax::PyClient] of jaxlib/py_client.h, the IFRT
    device interface, the Python object protocol reached through nanobind).

    The members embedded are the two constructors, [Hash], [Equal],
    [NotEqual], [Len], [GetItem], [AsTuple], [Dump], [ProcessIndices],
    [IsFullyAddressable], [AddressableDeviceList], [PopulateMemoryKindInfo],
    [PopulateMemoryKindInfoForDuckTypedDevices], [MemoryKinds] and
    [DefaultMemoryKind].  Python objects live in an explicit store; member
    functions are computations of a state-and-exception monad over it. *)

From Stdlib Require Import ZArith Lia.
From stdpp Require Import base decidable option list strings.

Local Open Scope Z_scope.

(** ** Values of the object model *)

(** [xla::ifrt::Device*]: a device is known by its address only. *)
Inductive Device := DevicePtr (addr : nat).

(** [nb_class_ptr<jax::PyClient>] (non-null): a client is known by its
    address only. *)
Inductive Client := ClientPtr (addr : nat).

(** [xla::ifrt::Memory*], reduced to what the code reads from it:
    [Kind().memory_kind()]. *)
Record Memory := { memory_kind : string }.

(** [absl::Status] of a failed call. *)
Record Status := { code : string; message : string }.

Definition InvalidArgument (msg : string) : Status :=
  {| code := "INVALID_ARGUMENT"; message := msg |}.

(** [absl::StatusOr<T>]. *)
Inductive StatusOr (A : Type) :=
  | OkValue (a : A)
  | ErrStatus (s : Status).
Arguments OkValue {A} a.
Arguments ErrStatus {A} s.

(** Addresses of [PyDeviceList] instances in the store. *)
Abbreviation loc := nat.

(** Python objects, by identity.  [PyDeviceObj c d] is the [jax::PyDevice]
    instance with fields [client_ = c] and [device_ = d]; [PyDeviceListObj l]
    is the [PyDeviceList] instance at address [l]; [PyOther n] is any other
    object (a duck-typed device of an alternative backend, for one), known by
    its identity [n]. *)
Inductive PyObject :=
  | PyNone
  | PyStr (s : string)
  | PyDeviceObj (client_ : Client) (device_ : Device)
  | PyDeviceListObj (l : loc)
  | PyOther (id : nat).

#[global] Instance Device_eq_dec : EqDecision Device.
Proof. solve_decision. Defined.
#[global] Instance Client_eq_dec : EqDecision Client.
Proof. solve_decision. Defined.
#[global] Instance Memory_eq_dec : EqDecision Memory.
Proof. solve_decision. Defined.
#[global] Instance Status_eq_dec : EqDecision Status.
Proof. solve_decision. Defined.
#[global] Instance PyObject_eq_dec : EqDecision PyObject.
Proof. solve_decision. Defined.

(** What a call can throw.  [CheckFailure] is a failed [CHECK]/[CHECK_EQ]
    (the process aborts), [NullDereference] is [operator->] on a null
    [nb_class_ptr], [OutOfBounds] an access outside a span or a set,
    [bad_variant_access] a [std::get] on the other alternative,
    [bad_optional_access] the read of an empty [std::optional], and
    [DanglingReference] an address that is not in the store (it cannot
    happen for a live [nb_class_ptr]). *)
Inductive exception :=
  | index_error
  | value_error (what : string)
  | python_error (what : string)
  | cast_error
  | XlaRuntimeError (s : Status)
  | CheckFailure (what : string)
  | NullDereference
  | OutOfBounds
  | bad_variant_access
  | bad_optional_access
  | DanglingReference.

Inductive outcome (A : Type) :=
  | Returns (a : A)
  | Throws (e : exception).
Arguments Returns {A} a.
Arguments Throws {A} e.

(** ** The external collaborators

    Everything the code asks of the IFRT runtime, of abseil and of the
    Python interpreter.  The code is verified for every runtime. *)
Record Runtime := {
  (** [xla::ifrt::Device::ProcessIndex()] *)
  ProcessIndex : Device → Z;
  (** [xla::ifrt::Device::client()], as the wrapping [PyClient] *)
  DeviceClient : Device → Client;
  (** [xla::ifrt::Device::DefaultMemory()] *)
  DefaultMemory : Device → StatusOr Memory;
  (** [xla::ifrt::Device::Memories()] *)
  Memories : Device → list Memory;
  (** [PyClient::process_index()], py_client.h: the process index of the
      wrapped IFRT client *)
  process_index : Client → Z;
  (** [absl::HashOf] on a native device list *)
  absl_HashOf : list Device → Z;
  (** [nb::hash] on a tuple: Python's [hash], which raises on an unhashable
      element *)
  nb_hash : list PyObject → outcome Z;
  (** [nb::cast<int>(device.attr("process_index"))] *)
  attr_process_index : PyObject → outcome Z;
  (** [nb::cast<int>(device.attr("client").attr("process_index")())] *)
  attr_client_process_index : PyObject → outcome Z;
  (** [device.attr("default_memory")().attr("kind")]; the text of a raised
      [nb::python_error] is its [what()] *)
  attr_default_memory_kind : PyObject → outcome PyObject;
  (** [nb::tuple(nb::object(device.attr("addressable_memories")()))] *)
  attr_addressable_memories : PyObject → outcome (list PyObject);
  (** [a.__eq__(b)] for two distinct objects *)
  py_eq : PyObject → PyObject → outcome bool;
}.

(** ** The device list object *)

(** [std::variant<xla::ifrt::DeviceListRef, nb::tuple> device_list_]:
    index 0 is the native list, index 1 the tuple of Python devices.  The
    [default:] arms of the code's switches ("Unrecognized DeviceList type")
    have no value of this type. *)
Inductive DeviceListVariant :=
  | Native (devices : list Device)
  | External (t : list PyObject).

Record MemoryKindInfo := {
  default_memory_kind : PyObject;
  memory_kinds : list PyObject;
}.

Record PyDeviceList := {
  py_client_ : option Client;
  device_list_ : DeviceListVariant;
  hash_ : option Z;
  is_fully_addressable_ : option bool;
  addressable_device_list_ : option loc;
  process_indices_ : option (list Z);
  memory_kind_info_ : option (StatusOr MemoryKindInfo);
}.

#[global] Instance DeviceListVariant_eq_dec : EqDecision DeviceListVariant.
Proof. solve_decision. Defined.

Definition set_hash (v : option Z) (o : PyDeviceList) : PyDeviceList :=
  {| py_client_ := py_client_ o; device_list_ := device_list_ o;
     hash_ := v;
     is_fully_addressable_ := is_fully_addressable_ o;
     addressable_device_list_ := addressable_device_list_ o;
     process_indices_ := process_indices_ o;
     memory_kind_info_ := memory_kind_info_ o |}.

Definition set_is_fully_addressable (v : option bool) (o : PyDeviceList)
  : PyDeviceList :=
  {| py_client_ := py_client_ o; device_list_ := device_list_ o;
     hash_ := hash_ o;
     is_fully_addressable_ := v;
     addressable_device_list_ := addressable_device_list_ o;
     process_indices_ := process_indices_ o;
     memory_kind_info_ := memory_kind_info_ o |}.

Definition set_addressable_device_list (v : option loc) (o : PyDeviceList)
  : PyDeviceList :=
  {| py_client_ := py_client_ o; device_list_ := device_list_ o;
     hash_ := hash_ o;
     is_fully_addressable_ := is_fully_addressable_ o;
     addressable_device_list_ := v;
     process_indices_ := process_indices_ o;
     memory_kind_info_ := memory_kind_info_ o |}.

Definition set_process_indices (v : option (list Z)) (o : PyDeviceList)
  : PyDeviceList :=
  {| py_client_ := py_client_ o; device_list_ := device_list_ o;
     hash_ := hash_ o;
     is_fully_addressable_ := is_fully_addressable_ o;
     addressable_device_list_ := addressable_device_list_ o;
     process_indices_ := v;
     memory_kind_info_ := memory_kind_info_ o |}.

Definition set_memory_kind_info (v : option (StatusOr MemoryKindInfo))
    (o : PyDeviceList) : PyDeviceList :=
  {| py_client_ := py_client_ o; device_list_ := device_list_ o;
     hash_ := hash_ o;
     is_fully_addressable_ := is_fully_addressable_ o;
     addressable_device_list_ := addressable_device_list_ o;
     process_indices_ := process_indices_ o;
     memory_kind_info_ := v |}.

(** ** The store and its monad *)

(** The live [PyDeviceList] instances; an instance's address is its
    position.  Instances are never freed here. *)
Abbreviation heap := (list PyDeviceList).

Definition M (A : Type) : Type := heap → outcome A * heap.

#[global] Instance M_ret : MRet M := λ A a h, (Returns a, h).

(** A throw keeps the writes made before it. *)
#[global] Instance M_bind : MBind M := λ A B f m h,
  match m h with
  | (Returns a, h') => f a h'
  | (Throws e, h') => (Throws e, h')
  end.

Definition throw {A} (e : exception) : M A := λ h, (Throws e, h).

Definition lift {A} (r : outcome A) : M A := λ h, (r, h).

(** Reading the object behind a pointer. *)
Definition deref (p : loc) : M PyDeviceList := λ h,
  match h !! p with
  | Some o => (Returns o, h)
  | None => (Throws DanglingReference, h)
  end.

(** Writing a member of the object behind a pointer. *)
Definition modify (p : loc) (f : PyDeviceList → PyDeviceList) : M unit := λ h,
  match h !! p with
  | Some o => (Returns tt, <[p := f o]> h)
  | None => (Throws DanglingReference, h)
  end.

(** [make_nb_class<PyDeviceList>(...)], once the constructor has run. *)
Definition alloc (o : PyDeviceList) : M loc := λ h,
  (Returns (length h), h ++ [o]).

(** ** Collaborators inside the repository *)

(** Modelled from the spec: [PyClient::GetPyDevice] (declared in
    jaxlib/py_client.h, defined in py_client.cc, which is not part of the
    sources at hand).  The client registry owns the device handles,
    "de-duplicated by identity", "so repeated queries return the same handle
    identity": the handle of device [d] in the registry of client [c] is the
    one [PyDevice] with [client_ = c] and [device_ = d]. *)
Definition GetPyDevice (c : Client) (d : Device) : PyObject := PyDeviceObj c d.

(** Modelled from the spec: [xla::ifrt::Client::MakeDeviceList] of the IFRT
    client wrapped by [c], an external interface: it returns the native list
    of the given ordered device identities, and "fails if a device identity
    is foreign to the client". *)
Definition MakeDeviceList (rt : Runtime) (c : Client) (devices : list Device)
  : StatusOr (list Device) :=
  if forallb (λ d, bool_decide (DeviceClient rt d = c)) devices
  then OkValue devices
  else ErrStatus (InvalidArgument "device is foreign to the client").

(** [xla::ValueOrThrow] *)
Definition ValueOrThrow {A} (v : StatusOr A) : outcome A :=
  match v with
  | OkValue a => Returns a
  | ErrStatus s => Throws (XlaRuntimeError s)
  end.

(** Python's comparison of two tuples for equality, behind
    [nb::tuple::equal]: items are compared pairwise up to the first pair
    that differs, identical objects compare equal without a call of
    [__eq__], and two tuples without a differing pair are equal when their
    sizes are. *)
Fixpoint tuple_equal (rt : Runtime) (t1 t2 : list PyObject) : outcome bool :=
  match t1, t2 with
  | [], [] => Returns true
  | a :: t1', b :: t2' =>
      if decide (a = b) then tuple_equal rt t1' t2'
      else match py_eq rt a b with
           | Returns true => tuple_equal rt t1' t2'
           | Returns false => Returns false
           | Throws e => Throws e
           end
  | _, _ => Returns false
  end.

(** [std::set<int>::insert]; the set is kept as its sorted sequence of
    elements, so that [begin()] is the head. *)
Fixpoint set_insert (x : Z) (s : list Z) : list Z :=
  match s with
  | [] => [x]
  | y :: s' =>
      if x <? y then x :: s
      else if x =? y then s
      else y :: set_insert x s'
  end.

(** Two's complement wrap-around of C++ [int]. *)
Definition wrap_int (z : Z) : Z := (z + 2 ^ 31) mod 2 ^ 32 - 2 ^ 31.

(** ** Constructors *)

Definition mkPyDeviceList (c : option Client) (dl : DeviceListVariant)
  : PyDeviceList :=
  {| py_client_ := c; device_list_ := dl;
     hash_ := None;
     is_fully_addressable_ := None;
     addressable_device_list_ := None;
     process_indices_ := None;
     memory_kind_info_ := None |}.

(** [PyDeviceList::PyDeviceList(nb_class_ptr<PyClient>, DeviceListRef)] *)
Definition PyDeviceList_native (py_client : option Client)
    (device_list : list Device) : M loc :=
  alloc (mkPyDeviceList py_client (Native device_list)).

(** The loop of the tuple constructor.  [Fallback c] is one of its two
    [return]s, with [py_client_ = c] at that point; [Converted c devices] is
    the loop run to its end. *)
Inductive conversion :=
  | Fallback (py_client : option Client)
  | Converted (py_client : option Client) (devices : list Device).

Fixpoint convert_devices (t : list PyObject) (py_client : option Client)
    (devices : list Device) : conversion :=
  match t with
  | [] => Converted py_client devices
  | PyDeviceObj c d :: rest =>
      match py_client with
      | None => convert_devices rest (Some c) (devices ++ [d])
      | Some c0 =>
          if decide (c = c0)
          then convert_devices rest py_client (devices ++ [d])
          else Fallback py_client
      end
  | _ :: _ => Fallback py_client
  end.

(** The object [PyDeviceList::PyDeviceList(nb::tuple)] leaves behind, or
    what it throws. *)
Definition PyDeviceList_init (rt : Runtime) (py_device_assignment : list PyObject)
  : outcome PyDeviceList :=
  if (length py_device_assignment =? 0)%nat
  then Returns (mkPyDeviceList None (External py_device_assignment))
  else
    match convert_devices py_device_assignment None [] with
    | Fallback c => Returns (mkPyDeviceList c (External py_device_assignment))
    | Converted None _ => Throws NullDereference
    | Converted (Some c) devices =>
        match ValueOrThrow (MakeDeviceList rt c devices) with
        | Returns dl => Returns (mkPyDeviceList (Some c) (Native dl))
        | Throws e => Throws e
        end
    end.

(** [make_nb_class<PyDeviceList>(tuple)], Python's [DeviceList(tuple)]. *)
Definition PyDeviceList_tuple (rt : Runtime) (t : list PyObject) : M loc :=
  o ← lift (PyDeviceList_init rt t); alloc o.

(** ** Member functions *)

(** [PyDeviceList::Hash] *)
Definition Hash (rt : Runtime) (self : loc) : M Z :=
  o ← deref self;
  match hash_ o with
  | Some v => mret v
  | None =>
      v ← match device_list_ o with
          | Native dl => mret (absl_HashOf rt dl)
          | External t => lift (nb_hash rt t)
          end;
      modify self (set_hash (Some v));;
      mret v
  end.

(** [PyDeviceList::Len] *)
Definition Len (self : loc) : M Z :=
  o ← deref self;
  match device_list_ o with
  | Native dl => mret (wrap_int (Z.of_nat (length dl)))
  | External t => mret (wrap_int (Z.of_nat (length t)))
  end.

(** [PyDeviceList::AsTuple]: in the native case every iteration of the loop
    goes through [py_client_->]. *)
Definition AsTuple (self : loc) : M (list PyObject) :=
  o ← deref self;
  match device_list_ o with
  | Native dl =>
      match dl, py_client_ o with
      | [], _ => mret []
      | _ :: _, None => throw NullDereference
      | _ :: _, Some c => mret (map (GetPyDevice c) dl)
      end
  | External t => mret t
  end.

(** [PyDeviceList::Dump] *)
Definition Dump (self : loc) : M (list PyObject) := AsTuple self.

(** [PyDeviceList::Equal] *)
Definition Equal (rt : Runtime) (self : loc) (other : PyObject) : M bool :=
  match other with
  | PyDeviceListObj o =>
      if decide (self = o) then mret true
      else
        h1 ← Hash rt self;
        h2 ← Hash rt o;
        if negb (h1 =? h2) then mret false
        else
          s ← deref self;
          o' ← deref o;
          match device_list_ s, device_list_ o' with
          | Native a, Native b => mret (bool_decide (a = b))
          | _, _ =>
              t1 ← AsTuple self;
              t2 ← AsTuple o;
              lift (tuple_equal rt t1 t2)
          end
  | _ => mret false
  end.

(** [PyDeviceList::NotEqual] *)
Definition NotEqual (rt : Runtime) (self : loc) (other : PyObject) : M bool :=
  b ← Equal rt self other; mret (negb b).

(** [PyDeviceList::GetItem], native case and delegation to the tuple.
    [device_list->size()] is an [int]. *)
Definition GetItem (self : loc) (index : Z) : M PyObject :=
  o ← deref self;
  match device_list_ o with
  | Native dl =>
      let size := wrap_int (Z.of_nat (length dl)) in
      if (index <? wrap_int (- size)) || (index >=? size)
      then throw index_error
      else
        let index := if index <? 0 then wrap_int (index + size) else index in
        match py_client_ o with
        | None => throw NullDereference
        | Some c =>
            if index <? 0 then throw OutOfBounds
            else match dl !! Z.to_nat index with
                 | Some d => mret (GetPyDevice c d)
                 | None => throw OutOfBounds
                 end
        end
  | External t =>
      (* tuple.__getitem__(index) *)
      let size := Z.of_nat (length t) in
      let index := if index <? 0 then index + size else index in
      if (index <? 0) || (index >=? size) then throw (python_error "IndexError")
      else match t !! Z.to_nat index with
           | Some d => mret d
           | None => throw OutOfBounds
           end
  end.

(** The loop of [ProcessIndices] over a tuple of Python devices: the set
    built so far, and the exception that ended the loop early, if any. *)
Fixpoint collect_process_indices (rt : Runtime) (t : list PyObject)
    (acc : list Z) : list Z * option exception :=
  match t with
  | [] => (acc, None)
  | device :: rest =>
      match attr_process_index rt device with
      | Returns i => collect_process_indices rt rest (set_insert i acc)
      | Throws e => (acc, Some e)
      end
  end.

(** [PyDeviceList::ProcessIndices].  [process_indices_] is set to the empty
    set before the loop and filled in place, so a throw inside the loop
    leaves the part built so far in the cache. *)
Definition ProcessIndices (rt : Runtime) (self : loc) : M (list Z) :=
  o ← deref self;
  match process_indices_ o with
  | Some s => mret s
  | None =>
      match device_list_ o with
      | Native dl =>
          let s := fold_left (λ acc d, set_insert (ProcessIndex rt d) acc) dl [] in
          modify self (set_process_indices (Some s));;
          mret s
      | External t =>
          let '(s, e) := collect_process_indices rt t [] in
          modify self (set_process_indices (Some s));;
          match e with
          | None => mret s
          | Some e => throw e
          end
      end
  end.

(** [PyDeviceList::IsFullyAddressable] *)
Definition IsFullyAddressable (rt : Runtime) (self : loc) : M bool :=
  o ← deref self;
  match is_fully_addressable_ o with
  | Some b => mret b
  | None =>
      ProcessIndices rt self;;
      o ← deref self;
      match process_indices_ o with
      | None => throw (CheckFailure "process_indices_.has_value()")
      | Some s =>
          if (1 <? length s)%nat then
            modify self (set_is_fully_addressable (Some false));;
            mret false
          else if negb (length s =? 1)%nat then
            throw (CheckFailure "process_indices_->size() == 1")
          else
            process_index ←
              match device_list_ o with
              | Native _ =>
                  mret (match py_client_ o with
                        | Some c => process_index rt c
                        | None => 0
                        end)
              | External t =>
                  match t with
                  | d0 :: _ => lift (attr_client_process_index rt d0)
                  | [] => throw (python_error "IndexError")
                  end
              end;
            match s with
            | first :: _ =>
                let b := first =? process_index in
                modify self (set_is_fully_addressable (Some b));;
                mret b
            | [] => throw OutOfBounds
            end
      end
  end.

(** The filter loop of [AddressableDeviceList] over a tuple of Python
    devices. *)
Fixpoint filter_addressable (rt : Runtime) (t : list PyObject)
  : outcome (list PyObject) :=
  match t with
  | [] => Returns []
  | device :: rest =>
      match attr_process_index rt device with
      | Throws e => Throws e
      | Returns i =>
          match attr_client_process_index rt device with
          | Throws e => Throws e
          | Returns j =>
              match filter_addressable rt rest with
              | Throws e => Throws e
              | Returns ds => Returns (if i =? j then device :: ds else ds)
              end
          end
      end
  end.

(** [PyDeviceList::AddressableDeviceList] *)
Definition AddressableDeviceList (rt : Runtime) (self : loc) : M loc :=
  fully ← IsFullyAddressable rt self;
  if fully : bool then mret self
  else
    o ← deref self;
    match addressable_device_list_ o with
    | Some l => mret l
    | None =>
        l ← match device_list_ o with
            | Native dl =>
                let process_index :=
                  match py_client_ o with
                  | Some c => process_index rt c
                  | None => 0
                  end in
                let addressable_devices :=
                  filter (λ d, ProcessIndex rt d = process_index) dl in
                match py_client_ o with
                | None => throw NullDereference
                | Some c =>
                    dl' ← lift (ValueOrThrow
                                  (MakeDeviceList rt c addressable_devices));
                    PyDeviceList_native (py_client_ o) dl'
                end
            | External t =>
                addressable_devices ← lift (filter_addressable rt t);
                PyDeviceList_tuple rt addressable_devices
            end;
        modify self (set_addressable_device_list (Some l));;
        mret l
    end.

(** [PyDeviceList::PopulateMemoryKindInfoForDuckTypedDevices].  The [catch]
    turns an [nb::python_error] into a cached status and lets every other
    exception through. *)
Definition PopulateMemoryKindInfoForDuckTypedDevices (rt : Runtime)
    (self : loc) : M unit :=
  o ← deref self;
  match device_list_ o with
  | Native _ => throw bad_variant_access
  | External [] =>
      modify self (set_memory_kind_info
        (Some (OkValue {| default_memory_kind := PyNone; memory_kinds := [] |})))
  | External (device :: _) =>
      match attr_default_memory_kind rt device with
      | Throws (python_error what) =>
          (* Cache the error. *)
          modify self (set_memory_kind_info
            (Some (ErrStatus (InvalidArgument what))))
      | Throws e => throw e
      | Returns kind =>
          match attr_addressable_memories rt device with
          | Throws (python_error what) =>
              modify self (set_memory_kind_info
                (Some (ErrStatus (InvalidArgument what))))
          | Throws e => throw e
          | Returns kinds =>
              modify self (set_memory_kind_info
                (Some (OkValue {| default_memory_kind := kind;
                                  memory_kinds := kinds |})))
          end
      end
  end.

(** [PyDeviceList::PopulateMemoryKindInfo] *)
Definition PopulateMemoryKindInfo (rt : Runtime) (self : loc) : M unit :=
  o ← deref self;
  match device_list_ o with
  | External _ =>
      (* Handle Python duck-type devices in a separate function. *)
      PopulateMemoryKindInfoForDuckTypedDevices rt self
  | Native [] =>
      modify self (set_memory_kind_info
        (Some (OkValue {| default_memory_kind := PyNone; memory_kinds := [] |})))
  | Native (device :: _) =>
      match DefaultMemory rt device with
      | ErrStatus s =>
          (* Cache the error. *)
          modify self (set_memory_kind_info (Some (ErrStatus s)))
      | OkValue default_memory =>
          modify self (set_memory_kind_info
            (Some (OkValue
               {| default_memory_kind := PyStr (memory_kind default_memory);
                  memory_kinds :=
                    map (λ m, PyStr (memory_kind m)) (Memories rt device) |})))
      end
  end.

(** [PyDeviceList::MemoryKinds] *)
Definition MemoryKinds (rt : Runtime) (self : loc)
  : M (StatusOr (list PyObject)) :=
  o ← deref self;
  match memory_kind_info_ o with
  | None => PopulateMemoryKindInfo rt self
  | Some _ => mret tt
  end;;
  o ← deref self;
  match memory_kind_info_ o with
  | None => throw bad_optional_access
  | Some (ErrStatus s) => mret (ErrStatus s)
  | Some (OkValue info) => mret (OkValue (memory_kinds info))
  end.

(** [PyDeviceList::DefaultMemoryKind] *)
Definition DefaultMemoryKind (rt : Runtime) (self : loc)
  : M (StatusOr PyObject) :=
  o ← deref self;
  match memory_kind_info_ o with
  | None => PopulateMemoryKindInfo rt self
  | Some _ => mret tt
  end;;
  o ← deref self;
  match memory_kind_info_ o with
  | None => throw bad_optional_access
  | Some (ErrStatus s) => mret (ErrStatus s)
  | Some (OkValue info) => mret (OkValue (default_memory_kind info))
  end.

(** ** A sample runtime

    One concrete world, on which the statements below are exercised: a
    client per address, whose process index is its address; devices
    [100k + 2j] and [100k + 2j + 1] owned by client [k] and placed on process
    [j]; device 7 without a default memory; Python's hash of a tuple; and
    duck-typed devices [PyOther n] that report process index [n mod 2], a
    client on process 0, and no attribute at all when [n = 99]. *)
Module Sample.

Definition device_memory : Memory := {| memory_kind := "device" |}.
Definition pinned_host : Memory := {| memory_kind := "pinned_host" |}.

Definition uint64 (z : Z) : Z := z mod 2 ^ 64.
Definition int64 (z : Z) : Z := (z + 2 ^ 63) mod 2 ^ 64 - 2 ^ 63.

(** The hash of one object: an identity hash. *)
Definition object_hash (x : PyObject) : outcome Z :=
  match x with
  | PyNone => Returns 1
  | PyStr s => Returns (Z.of_nat (String.length s) + 2)
  | PyDeviceObj (ClientPtr c) (DevicePtr d) =>
      Returns (Z.of_nat c * 4096 + Z.of_nat d + 16)
  | PyDeviceListObj l => Returns (Z.of_nat l + 1024)
  | PyOther 13 => Throws (python_error "TypeError: unhashable type")
  | PyOther n => Returns (Z.of_nat n + 65536)
  end.

(** CPython's hash of a tuple (Objects/tupleobject.c). *)
Definition XXPRIME_1 : Z := 11400714785074694791.
Definition XXPRIME_2 : Z := 14029467366897019727.
Definition XXPRIME_5 : Z := 2870177450012600261.
Definition XXROTATE (x : Z) : Z :=
  uint64 (Z.lor (Z.shiftl x 31) (Z.shiftr x 33)).

Fixpoint tuple_hash_loop (t : list PyObject) (acc : Z) : outcome Z :=
  match t with
  | [] => Returns acc
  | x :: rest =>
      match object_hash x with
      | Throws e => Throws e
      | Returns lane =>
          tuple_hash_loop rest
            (uint64 (XXROTATE (uint64 (acc + uint64 lane * XXPRIME_2))
                     * XXPRIME_1))
      end
  end.

Definition tuple_hash (t : list PyObject) : outcome Z :=
  match tuple_hash_loop t XXPRIME_5 with
  | Throws e => Throws e
  | Returns acc =>
      let acc :=
        uint64 (acc + Z.lxor (Z.of_nat (length t))
                             (Z.lxor XXPRIME_5 3527539)) in
      Returns (if acc =? 2 ^ 64 - 1 then 1546275796 else int64 acc)
  end.

(** A seeded hash of the device addresses, standing for [absl::HashOf]. *)
Definition device_list_hash (dl : list Device) : Z :=
  int64 (fold_left (λ h d, match d with
                           | DevicePtr a => uint64 (h * 31 + Z.of_nat a + 1)
                           end) dl 1469598103934665603).

Definition rt : Runtime := {|
  ProcessIndex := λ d,
    match d with DevicePtr a => Z.of_nat ((a mod 100) / 2) end;
  DeviceClient := λ d, match d with DevicePtr a => ClientPtr (a / 100) end;
  DefaultMemory := λ d,
    match d with
    | DevicePtr 7 => ErrStatus {| code := "UNIMPLEMENTED";
                                  message := "no default memory" |}
    | _ => OkValue device_memory
    end;
  Memories := λ _, [device_memory; pinned_host];
  process_index := λ c, match c with ClientPtr a => Z.of_nat a end;
  absl_HashOf := device_list_hash;
  nb_hash := tuple_hash;
  attr_process_index := λ x,
    match x with
    | PyDeviceObj _ (DevicePtr a) => Returns (Z.of_nat ((a mod 100) / 2))
    | PyOther 99 => Throws (python_error "AttributeError: process_index")
    | PyOther n => Returns (Z.of_nat (n mod 2))
    | _ => Throws (python_error "AttributeError: process_index")
    end;
  attr_client_process_index := λ x,
    match x with
    | PyDeviceObj (ClientPtr a) _ => Returns (Z.of_nat a)
    | PyOther 99 => Throws (python_error "AttributeError: client")
    | PyOther _ => Returns 0
    | _ => Throws (python_error "AttributeError: client")
    end;
  attr_default_memory_kind := λ x,
    match x with
    | PyOther 99 => Throws (python_error "AttributeError: default_memory")
    | PyOther _ => Returns (PyStr "device")
    | _ => Throws (python_error "AttributeError: default_memory")
    end;
  attr_addressable_memories := λ x,
    match x with
    | PyOther 99 => Throws (python_error "AttributeError: addressable_memories")
    | PyOther _ => Returns [PyStr "device"]
    | _ => Throws (python_error "AttributeError: addressable_memories")
    end;
  py_eq := λ _ _, Returns false;
|}.

Definition c0 : Client := ClientPtr 0.
Definition c1 : Client := ClientPtr 1.
Definition d (n : nat) : PyObject := PyDeviceObj c0 (DevicePtr n).

End Sample.

(** ** The class invariant *)

(** A memoized hash is the hash of the representation. *)
Definition hash_ok (rt : Runtime) (o : PyDeviceList) : Prop :=
  ∀ v, hash_ o = Some v →
    match device_list_ o with
    | Native dl => v = absl_HashOf rt dl
    | External t => nb_hash rt t = Returns v
    end.

(** The memoized process indices of a native list are those of its
    devices.  (For a tuple the cache can hold a part of them, see
    [ProcessIndices].) *)
Definition process_indices_ok (rt : Runtime) (o : PyDeviceList) : Prop :=
  ∀ s dl, process_indices_ o = Some s → device_list_ o = Native dl →
    s = fold_left (λ acc d, set_insert (ProcessIndex rt d) acc) dl [].

(** The memory kinds memoized for an empty list are the default ones. *)
Definition memory_kind_info_ok (o : PyDeviceList) : Prop :=
  ∀ info, memory_kind_info_ o = Some info →
    device_list_ o = Native [] ∨ device_list_ o = External [] →
    info = OkValue {| default_memory_kind := PyNone; memory_kinds := [] |}.

(** A tuple is kept only where the tuple constructor keeps it: when it is
    empty, or when its loop returned early. *)
Definition external_ok (o : PyDeviceList) : Prop :=
  ∀ t, device_list_ o = External t →
    t = [] ∨ ∃ c, convert_devices t None [] = Fallback c.

(** The memoized addressable sublist of the instance at [l] is another
    live instance, and it is memoized only for a list that is not fully
    addressable. *)
Definition addressable_ok (h : heap) (l : loc) (o : PyDeviceList) : Prop :=
  ∀ l', addressable_device_list_ o = Some l' →
    l' ≠ l ∧ (l' < length h)%nat ∧ is_fully_addressable_ o = Some false.

Record wf_obj (rt : Runtime) (h : heap) (l : loc) (o : PyDeviceList) : Prop := {
  wf_hash : hash_ok rt o;
  wf_process_indices : process_indices_ok rt o;
  wf_memory_kind_info : memory_kind_info_ok o;
  wf_external : external_ok o;
  wf_addressable : addressable_ok h l o;
}.

Definition wf (rt : Runtime) (h : heap) : Prop :=
  ∀ l o, h !! l = Some o → wf_obj rt h l o.

(** A memoized field is written once: what [x] holds, [y] holds. *)
Definition memo_le {A} (x y : option A) : Prop := ∀ a, x = Some a → y = Some a.

(** The members leave the representation of every instance as it is, and
    they never overwrite a populated cache. *)
Record same_repr (o o' : PyDeviceList) : Prop := {
  same_device_list : device_list_ o' = device_list_ o;
  same_py_client : py_client_ o' = py_client_ o;
  memo_hash : memo_le (hash_ o) (hash_ o');
  memo_is_fully_addressable :
    memo_le (is_fully_addressable_ o) (is_fully_addressable_ o');
  memo_addressable_device_list :
    memo_le (addressable_device_list_ o) (addressable_device_list_ o');
  memo_process_indices : memo_le (process_indices_ o) (process_indices_ o');
  memo_memory_kind_info : memo_le (memory_kind_info_ o) (memory_kind_info_ o');
}.

(** Closes [same_repr o (f o)] for a setter [f] of a cache that the
    context knows to be empty. *)
Ltac solve_same_repr :=
  split; try done;
  let a := fresh "a" in let H := fresh "H" in
  intros a H; simpl in *; congruence.

(** The store [h'] comes after the store [h]: every instance of [h] is
    still there, with its representation and with what it had memoized.
    Every call of a constructor or of a member function takes a store to a
    later one. *)
Definition heap_le (h h' : heap) : Prop :=
  ∀ l o, h !! l = Some o → ∃ o', h' !! l = Some o' ∧ same_repr o o'.

(** What a member function may do to the store [h]: it keeps the
    invariant and leads to a later store. *)
Definition preserves_at (rt : Runtime) (h : heap) {A} (m : M A) : Prop :=
  wf rt (m h).2 ∧ heap_le h (m h).2.

Definition preserves (rt : Runtime) {A} (m : M A) : Prop :=
  ∀ h, wf rt h → preserves_at rt h m.

(** The condition of the upgrade to the native representation in the words
    of the specification: every element is a native device, and all
    elements share one owning client. *)
Definition all_native_one_client (t : list PyObject) : Prop :=
  ∃ c, Forall (λ x, ∃ d, x = PyDeviceObj c d) t.

(** A native device handle wraps a device of its own client. *)
Definition handles_owned (rt : Runtime) (t : list PyObject) : Prop :=
  ∀ c d, PyDeviceObj c d ∈ t → DeviceClient rt d = c.

(** Decides [handles_owned] on a concrete tuple. *)
Ltac solve_owned :=
  let c := fresh "c" in let d := fresh "d" in let H := fresh "H" in
  intros c d H; apply list_elem_of_In in H; simpl in H;
  repeat (destruct H as [H|H]; [try discriminate; by injection H as <- <-|]);
  done.

(** The first computation of the memory kinds fails with status [s]:
    device 0 of a native list has no default memory ([DefaultMemory] is not
    ok), or the query of the default memory kind of device 0 of a tuple
    raises a Python error, whose text the status carries. *)
Definition default_memory_fails (rt : Runtime) (o : PyDeviceList) (s : Status)
  : Prop :=
  match device_list_ o with
  | Native (device :: _) => DefaultMemory rt device = ErrStatus s
  | External (device :: _) =>
      ∃ what, attr_default_memory_kind rt device = Throws (python_error what)
              ∧ s = InvalidArgument what
  | _ => False
  end.

(** Two representations of the same alternative of the variant. *)
Definition same_variant (x y : DeviceListVariant) : Prop :=
  match x, y with
  | Native _, Native _ | External _, External _ => True
  | _, _ => False
  end.

(** The tuple of Python devices of the instance, if it holds one, can be
    hashed: Python's [hash] does not raise on it. *)
Definition hashable (rt : Runtime) (o : PyDeviceList) : Prop :=
  ∀ t, device_list_ o = External t → ∃ v, nb_hash rt t = Returns v.

(** ** Further members of [PyDeviceList] *)

(** [absl::Status::ToString] of a status that is not ok. *)
Definition Status_ToString (s : Status) : string :=
  code s +:+ ": " +:+ message s.

(** [PyDeviceList::ifrt_device_list] *)
Definition ifrt_device_list (o : PyDeviceList) : StatusOr (list Device) :=
  match device_list_ o with
  | Native dl => OkValue dl
  | External _ =>
      ErrStatus (InvalidArgument "DeviceList contains non-IFRT devices")
  end.

(** [PyDeviceList::DeviceKind].  The member [device_kind_], which no other
    member reads or writes, is threaded beside the store: the call takes its
    value and returns, with the kind, the value it leaves; a throw leaves it
    as it was.  [Kind] is [xla::ifrt::Device::Kind()]. *)
Definition DeviceKind (Kind : Device → string) (self : loc)
    (device_kind_ : option string) : M (string * option string) :=
  match device_kind_ with
  | Some kind => mret (kind, device_kind_)
  | None =>
      o ← deref self;
      match ifrt_device_list o with
      | ErrStatus s => throw (value_error (Status_ToString s))
      | OkValue device_list =>
          n ← Len self;
          if n =? 0 then throw (value_error "DeviceList is empty")
          else match device_list with
               | d :: _ => mret (Kind d, Some (Kind d))
               | [] => throw OutOfBounds
               end
      end
  end.

(** A Python [slice] object whose members are integers or [None]. *)
Record PySlice := {
  slice_start : option Z;
  slice_stop : option Z;
  slice_step : option Z;
}.

Definition PY_SSIZE_T_MAX : Z := 2 ^ 63 - 1.
Definition PY_SSIZE_T_MIN : Z := - 2 ^ 63.

(** Conversion of a Python integer to [Py_ssize_t] in a slice: values out
    of range are clipped. *)
Definition clip_ssize_t (z : Z) : Z :=
  Z.max PY_SSIZE_T_MIN (Z.min PY_SSIZE_T_MAX z).

(** Python's [PySlice_Unpack]: the members of the slice as [Py_ssize_t],
    with the defaults of the missing ones; a zero step is a [ValueError]. *)
Definition PySlice_Unpack (s : PySlice) : outcome (Z * Z * Z) :=
  let step :=
    match slice_step s with
    | None => 1
    | Some v => Z.max (- PY_SSIZE_T_MAX) (clip_ssize_t v)
    end in
  if step =? 0
  then Throws (python_error "ValueError: slice step cannot be zero")
  else
    let start :=
      match slice_start s with
      | None => if step <? 0 then PY_SSIZE_T_MAX else 0
      | Some v => clip_ssize_t v
      end in
    let stop :=
      match slice_stop s with
      | None => if step <? 0 then PY_SSIZE_T_MIN else PY_SSIZE_T_MAX
      | Some v => clip_ssize_t v
      end in
    Returns (start, stop, step).

(** Python's [PySlice_AdjustIndices]: start and stop brought into the
    sequence of the given length, and the number of selected positions. *)
Definition PySlice_AdjustIndices (length start stop step : Z) : Z * Z * Z :=
  let start :=
    if start <? 0 then
      let start := start + length in
      if start <? 0 then (if step <? 0 then -1 else 0) else start
    else if start >=? length then (if step <? 0 then length - 1 else length)
    else start in
  let stop :=
    if stop <? 0 then
      let stop := stop + length in
      if stop <? 0 then (if step <? 0 then -1 else 0) else stop
    else if stop >=? length then (if step <? 0 then length - 1 else length)
    else stop in
  let slicelength :=
    if step <? 0 then
      (if stop <? start then Z.quot (start - stop - 1) (- step) + 1 else 0)
    else
      (if start <? stop then Z.quot (stop - start - 1) step + 1 else 0) in
  (start, stop, slicelength).

(** Python's [PySlice_GetIndicesEx]: start, stop, step and slice length. *)
Definition PySlice_GetIndicesEx (s : PySlice) (length : Z)
  : outcome (Z * Z * Z * Z) :=
  match PySlice_Unpack s with
  | Throws e => Throws e
  | Returns (start, stop, step) =>
      let '(start, stop, slicelength) :=
        PySlice_AdjustIndices length start stop step in
      Returns (start, stop, step, slicelength)
  end.

(** The loop of [GetSlice] over the native devices: [i] counts up to
    [slicelength], [start] advances by [step]. *)
Fixpoint slice_loop (py_client : option Client) (devices : list Device)
    (start step : Z) (slicelength : nat) : outcome (list PyObject) :=
  match slicelength with
  | O => Returns []
  | S n =>
      match py_client with
      | None => Throws NullDereference
      | Some c =>
          match (if start <? 0 then None else devices !! Z.to_nat start) with
          | None => Throws OutOfBounds
          | Some d =>
              match slice_loop py_client devices (start + step) step n with
              | Returns out => Returns (GetPyDevice c d :: out)
              | Throws e => Throws e
              end
          end
      end
  end.

(** Python's subscript of a tuple by a slice, behind
    [tuple.__getitem__(slice)]. *)
Fixpoint tuple_slice_loop (t : list PyObject) (start step : Z)
    (slicelength : nat) : outcome (list PyObject) :=
  match slicelength with
  | O => Returns []
  | S n =>
      match (if start <? 0 then None else t !! Z.to_nat start) with
      | None => Throws OutOfBounds
      | Some x =>
          match tuple_slice_loop t (start + step) step n with
          | Returns out => Returns (x :: out)
          | Throws e => Throws e
          end
      end
  end.

(** [PyDeviceList::GetSlice] *)
Definition GetSlice (self : loc) (s : PySlice) : M (list PyObject) :=
  o ← deref self;
  match device_list_ o with
  | Native devices =>
      match PySlice_GetIndicesEx s (Z.of_nat (length devices)) with
      | Throws e => throw e
      | Returns (start, stop, step, slicelength) =>
          lift (slice_loop (py_client_ o) devices start step
                  (Z.to_nat slicelength))
      end
  | External t =>
      match PySlice_GetIndicesEx s (Z.of_nat (length t)) with
      | Throws e => throw e
      | Returns (start, stop, step, slicelength) =>
          lift (tuple_slice_loop t start step (Z.to_nat slicelength))
      end
  end.

(** The iterators [PyDeviceList::Iter] hands to [nb::make_iterator]: the
    part of the sequence from the current position to the end, and for
    native devices the client through which an element is dereferenced. *)
Inductive iterator :=
  | ifrt_device_iterator (py_client : option Client) (it : list Device)
  | python_device_iterator (it : list PyObject).

(** [PyDeviceList::Iter] *)
Definition Iter (self : loc) : M iterator :=
  o ← deref self;
  match device_list_ o with
  | Native dl => mret (ifrt_device_iterator (py_client_ o) dl)
  | External t => mret (python_device_iterator t)
  end.

(** [__next__] of the Python iterator: [None] is [StopIteration] at the
    end, otherwise the element at the current position, dereferenced
    ([Iterator::operator*] goes through [py_client->]), and the iterator
    advanced by one. *)
Definition iterator_next (i : iterator) : outcome (option (PyObject * iterator)) :=
  match i with
  | ifrt_device_iterator _ [] => Returns None
  | ifrt_device_iterator None (_ :: _) => Throws NullDereference
  | ifrt_device_iterator (Some c) (d :: rest) =>
      Returns (Some (GetPyDevice c d, ifrt_device_iterator (Some c) rest))
  | python_device_iterator [] => Returns None
  | python_device_iterator (x :: rest) =>
      Returns (Some (x, python_device_iterator rest))
  end.

(** A [for] loop over the iterator, collecting what it yields; [fuel]
    bounds the number of calls of [__next__]. *)
Fixpoint iterate (fuel : nat) (i : iterator) : outcome (list PyObject) :=
  match fuel with
  | O => Throws OutOfBounds
  | S fuel =>
      match iterator_next i with
      | Throws e => Throws e
      | Returns None => Returns []
      | Returns (Some (x, i')) =>
          match iterate fuel i' with
          | Returns out => Returns (x :: out)
          | Throws e => Throws e
          end
      end
  end.

(** The getter of the Python property [default_memory_kind], in
    [PyDeviceList::Register]: an error status becomes a [ValueError]. *)
Definition default_memory_kind_getter (rt : Runtime) (l : loc) : M PyObject :=
  kind ← DefaultMemoryKind rt l;
  match kind with
  | ErrStatus s => throw (value_error (Status_ToString s))
  | OkValue v => mret v
  end.

(** The getter of the Python property [memory_kinds], in
    [PyDeviceList::Register]. *)
Definition memory_kinds_getter (rt : Runtime) (l : loc) : M (list PyObject) :=
  kinds ← MemoryKinds rt l;
  match kinds with
  | ErrStatus s => throw (value_error (Status_ToString s))
  | OkValue v => mret v
  end.

(** ** Notions used by the further properties *)

(** A strictly increasing sequence: a set without duplicates, in the order
    [std::set<int>] iterates. *)
Fixpoint strictly_sorted (s : list Z) : Prop :=
  match s with
  | [] => True
  | x :: s' =>
      match s' with
      | [] => True
      | y :: _ => x < y
      end ∧ strictly_sorted s'
  end.

(** The local process index [IsFullyAddressable] and
    [AddressableDeviceList] compare the devices of a native list with. *)
Definition local_process_index (rt : Runtime) (o : PyDeviceList) : Z :=
  match py_client_ o with
  | Some c => process_index rt c
  | None => 0
  end.

(** The number of devices of a list. *)
Definition size (o : PyDeviceList) : nat :=
  match device_list_ o with
  | Native dl => length dl
  | External t => length t
  end.

(** The slices [[:]] and [[::-1]]. *)
Definition full_slice : PySlice :=
  {| slice_start := None; slice_stop := None; slice_step := None |}.
Definition reversed_slice : PySlice :=
  {| slice_start := None; slice_stop := None; slice_step := Some (-1) |}.

(** Decides the comparisons of a slice resolution by cases. *)
(** A call a client of the class makes: of a constructor or of a member
    function.  ([__setstate__] runs the tuple constructor on a new
    instance, [__getstate__] is [Dump]; [DeviceKind] does not touch the
    store.) *)
Inductive call :=
  | new_native (py_client : option Client) (device_list : list Device)
  | new_tuple (t : list PyObject)
  | call_Hash (self : loc)
  | call_Equal (self : loc) (other : PyObject)
  | call_NotEqual (self : loc) (other : PyObject)
  | call_Len (self : loc)
  | call_GetItem (self : loc) (index : Z)
  | call_GetSlice (self : loc) (s : PySlice)
  | call_AsTuple (self : loc)
  | call_Iter (self : loc)
  | call_Dump (self : loc)
  | call_IsFullyAddressable (self : loc)
  | call_AddressableDeviceList (self : loc)
  | call_ProcessIndices (self : loc)
  | call_MemoryKinds (self : loc)
  | call_DefaultMemoryKind (self : loc).

(** The store a call leaves, whether it returns or throws. *)
Definition exec (rt : Runtime) (c : call) (h : heap) : heap :=
  match c with
  | new_native py_client device_list =>
      (PyDeviceList_native py_client device_list h).2
  | new_tuple t => (PyDeviceList_tuple rt t h).2
  | call_Hash self => (Hash rt self h).2
  | call_Equal self other => (Equal rt self other h).2
  | call_NotEqual self other => (NotEqual rt self other h).2
  | call_Len self => (Len self h).2
  | call_GetItem self index => (GetItem self index h).2
  | call_GetSlice self s => (GetSlice self s h).2
  | call_AsTuple self => (AsTuple self h).2
  | call_Iter self => (Iter self h).2
  | call_Dump self => (Dump self h).2
  | call_IsFullyAddressable self => (IsFullyAddressable rt self h).2
  | call_AddressableDeviceList self => (AddressableDeviceList rt self h).2
  | call_ProcessIndices self => (ProcessIndices rt self h).2
  | call_MemoryKinds self => (MemoryKinds rt self h).2
  | call_DefaultMemoryKind self => (DefaultMemoryKind rt self h).2
  end.

(** The store after a sequence of calls. *)
Definition run (rt : Runtime) (cs : list call) (h : heap) : heap :=
  foldl (λ h c, exec rt c h) h cs.

(** What the two queries of the memory kinds return for a memoized
    record. *)
Definition memory_kinds_of (info : StatusOr MemoryKindInfo)
  : StatusOr (list PyObject) :=
  match info with
  | OkValue i => OkValue (memory_kinds i)
  | ErrStatus s => ErrStatus s
  end.

Definition default_memory_kind_of (info : StatusOr MemoryKindInfo)
  : StatusOr PyObject :=
  match info with
  | OkValue i => OkValue (default_memory_kind i)
  | ErrStatus s => ErrStatus s
  end.

Ltac slice_cases :=
  repeat match goal with
         | |- context [?a >=? ?b] => rewrite (Z.geb_leb a b)
         end;
  repeat match goal with
         | |- context [?a <=? ?b] => destruct (Z.leb_spec a b); try lia
         end;
  repeat match goal with
         | |- context [?a <? ?b] => destruct (Z.ltb_spec a b); try lia
         | |- context [?a =? ?b] => destruct (Z.eqb_spec a b); try lia
         end.


(** ** Reasoning about computations *)

Lemma bind_run {A B} (m : M A) (f : A → M B) (h : heap) :
  (m ≫= f) h =
  match m h with
  | (Returns a, h') => f a h'
  | (Throws e, h') => (Throws e, h')
  end.
Proof. reflexivity. Qed.

Lemma deref_run (p : loc) (h : heap) (o : PyDeviceList) :
  h !! p = Some o → deref p h = (Returns o, h).
Proof. intros E. unfold deref. by rewrite E. Qed.

Lemma modify_run (p : loc) f (h : heap) (o : PyDeviceList) :
  h !! p = Some o → modify p f h = (Returns tt, <[p := f o]> h).
Proof. intros E. unfold modify. by rewrite E. Qed.

Lemma wf_nil rt : wf rt [].
Proof. intros l o E. by destruct l. Qed.

(** Replacing an instance by one that satisfies the invariant. *)
Lemma wf_insert rt h l o o' :
  wf rt h → h !! l = Some o → wf_obj rt h l o' → wf rt (<[l := o']> h).
Proof.
  intros W E W' l2 o2 E2.
  assert (Hl : (l < length h)%nat) by (eapply lookup_lt_Some; eauto).
  assert (X : wf_obj rt h l2 o2).
  { destruct (decide (l = l2)) as [->|N].
    - rewrite list_lookup_insert_eq in E2 by done. by simplify_eq.
    - rewrite list_lookup_insert_ne in E2 by done. by apply W. }
  destruct X as [? ? ? ? A]. split; try done.
  intros l' El'. rewrite length_insert. by apply A.
Qed.

(** A new instance, at the end of the store. *)
Lemma wf_alloc rt h o :
  wf rt h → wf_obj rt (h ++ [o]) (length h) o → wf rt (h ++ [o]).
Proof.
  intros W W' l2 o2 E2.
  destruct (decide (l2 < length h)%nat) as [L|L].
  - rewrite lookup_app_l in E2 by done.
    destruct (W _ _ E2) as [? ? ? ? A]. split; try done.
    intros l' El'. rewrite length_app. destruct (A _ El') as (? & ? & ?).
    repeat split; [done | lia | done].
  - assert (l2 = length h) as ->.
    { apply lookup_lt_Some in E2. rewrite length_app in E2. simpl in E2. lia. }
    rewrite lookup_app_r, Nat.sub_diag in E2 by lia. by simplify_eq/=.
Qed.

Lemma wf_obj_fresh rt h l c dl :
  external_ok (mkPyDeviceList c dl) → wf_obj rt h l (mkPyDeviceList c dl).
Proof. intros X. split; try done. Qed.


Lemma same_repr_refl o : same_repr o o.
Proof. split; try done; by intros a. Qed.

Lemma same_repr_trans o1 o2 o3 :
  same_repr o1 o2 → same_repr o2 o3 → same_repr o1 o3.
Proof.
  intros [? ? H1 H2 H3 H4 H5] [? ? G1 G2 G3 G4 G5].
  split; [congruence | congruence | ..]; intros a Ha;
    [apply G1, H1 | apply G2, H2 | apply G3, H3 | apply G4, H4 | apply G5, H5];
    exact Ha.
Qed.

Lemma heap_le_refl h : heap_le h h.
Proof. intros l o E. exists o. split; [done | apply same_repr_refl]. Qed.

Lemma heap_le_trans h1 h2 h3 : heap_le h1 h2 → heap_le h2 h3 → heap_le h1 h3.
Proof.
  intros H12 H23 l o E. destruct (H12 _ _ E) as (o2 & E2 & S2).
  destruct (H23 _ _ E2) as (o3 & E3 & S3).
  exists o3. split; [done|]. by eapply same_repr_trans.
Qed.

Lemma heap_le_insert (h : heap) l o o' :
  h !! l = Some o → same_repr o o' → heap_le h (<[l := o']> h).
Proof.
  intros E S l2 o2 E2. destruct (decide (l = l2)) as [->|N].
  - exists o'. rewrite list_lookup_insert_eq by (by eapply lookup_lt_Some).
    by simplify_eq.
  - exists o2. rewrite list_lookup_insert_ne by done.
    split; [done | apply same_repr_refl].
Qed.

Lemma heap_le_app (h : heap) o : heap_le h (h ++ [o]).
Proof.
  intros l o2 E. exists o2. split; [|apply same_repr_refl].
  rewrite lookup_app_l; [done | by eapply lookup_lt_Some].
Qed.

Lemma preserves_at_ret rt h {A} (a : A) : wf rt h → preserves_at rt h (mret a).
Proof. intros W. split; [done | apply heap_le_refl]. Qed.

Lemma preserves_at_throw rt h {A} e :
  wf rt h → preserves_at rt h (throw e : M A).
Proof. intros W. split; [done | apply heap_le_refl]. Qed.

Lemma preserves_at_lift rt h {A} (r : outcome A) :
  wf rt h → preserves_at rt h (lift r).
Proof. intros W. split; [done | apply heap_le_refl]. Qed.

Lemma preserves_at_bind rt h {A B} (m : M A) (f : A → M B) :
  preserves_at rt h m →
  (∀ a h1, m h = (Returns a, h1) → wf rt h1 → heap_le h h1 →
     preserves_at rt h1 (f a)) →
  preserves_at rt h (m ≫= f).
Proof.
  intros [W1 L1] Hf. unfold preserves_at. rewrite bind_run.
  destruct (m h) as [[a|e] h1] eqn:E; simpl in *; [|done].
  destruct (Hf a h1 eq_refl W1 L1) as [W2 L2].
  split; [done|]. by eapply heap_le_trans.
Qed.

Lemma preserves_at_deref rt h {B} self (k : PyDeviceList → M B) :
  wf rt h →
  (∀ o, h !! self = Some o → preserves_at rt h (k o)) →
  preserves_at rt h (deref self ≫= k).
Proof.
  intros W Hk. unfold preserves_at. rewrite bind_run. unfold deref.
  destruct (h !! self) as [o|] eqn:E; simpl.
  - by apply Hk.
  - split; [done | apply heap_le_refl].
Qed.

Lemma preserves_at_modify rt h self o f :
  wf rt h → h !! self = Some o →
  wf_obj rt h self (f o) → same_repr o (f o) →
  preserves_at rt h (modify self f).
Proof.
  intros W E W' S. unfold preserves_at. rewrite (modify_run _ _ _ _ E). simpl.
  split; [by eapply wf_insert | by eapply heap_le_insert].
Qed.

Lemma preserves_at_modify_ret rt h self o f {A} (a : A) :
  wf rt h → h !! self = Some o →
  wf_obj rt h self (f o) → same_repr o (f o) →
  preserves_at rt h (modify self f ≫= λ _, mret a).
Proof.
  intros W E W' S. apply preserves_at_bind.
  - by eapply preserves_at_modify.
  - intros. by apply preserves_at_ret.
Qed.

Lemma Hash_preserves rt self : preserves rt (Hash rt self).
Proof.
  intros h W. unfold Hash. apply preserves_at_deref; [done|]. intros o E.
  destruct (W _ _ E) as [Wh Wp Wm We Wa].
  destruct (hash_ o) as [v|] eqn:Ev; [by apply preserves_at_ret|].
  assert (U : ∀ v, match device_list_ o with
                   | Native dl => v = absl_HashOf rt dl
                   | External t => nb_hash rt t = Returns v
                   end →
              preserves_at rt h (modify self (set_hash (Some v)) ≫= λ _, mret v)).
  { intros v Hv. eapply preserves_at_modify_ret; [done..| |solve_same_repr].
    split; try done. intros v' ?. by simplify_eq/=. }
  destruct (device_list_ o) as [dl|t] eqn:Ed.
  - by apply U.
  - unfold preserves_at. rewrite bind_run. unfold lift.
    destruct (nb_hash rt t) as [v|e] eqn:En; simpl.
    + by apply U.
    + split; [done | apply heap_le_refl].
Qed.


Lemma preserves_at_pure rt h {A} (m : M A) :
  wf rt h → (m h).2 = h → preserves_at rt h m.
Proof. intros W E. unfold preserves_at. rewrite E. split; [done | apply heap_le_refl]. Qed.

Lemma ProcessIndices_preserves rt self : preserves rt (ProcessIndices rt self).
Proof.
  intros h W. unfold ProcessIndices. apply preserves_at_deref; [done|]. intros o E.
  destruct (W _ _ E) as [Wh Wp Wm We Wa].
  destruct (process_indices_ o) as [s|] eqn:Es; [by apply preserves_at_ret|].
  destruct (device_list_ o) as [dl|t] eqn:Ed.
  - eapply preserves_at_modify_ret; [done..| |solve_same_repr].
    split; try done. intros s' dl' ? ?. simplify_eq/=. congruence.
  - destruct (collect_process_indices rt t []) as [s e].
    apply preserves_at_bind.
    + eapply preserves_at_modify; [done..| |solve_same_repr].
      split; try done. intros s' dl' ? ?. simplify_eq/=. congruence.
    + intros [] h1 _ W1 _. destruct e; [by apply preserves_at_throw | by apply preserves_at_ret].
Qed.

(** Writing [is_fully_addressable_] keeps the invariant as long as no
    addressable sublist is memoized, or the value written is [false]. *)
Lemma wf_obj_set_is_fully_addressable rt h l o b :
  wf_obj rt h l o →
  (addressable_device_list_ o = None ∨ b = false) →
  wf_obj rt h l (set_is_fully_addressable (Some b) o).
Proof.
  intros [Wh Wp Wm We Wa] Hb. split; try done.
  intros l' El'. simpl in El'. destruct (Wa _ El') as (? & ? & ?).
  repeat split; try done. simpl. destruct Hb as [Hb| ->]; [congruence | done].
Qed.

(** An addressable sublist is memoized only once [is_fully_addressable_]
    is. *)
Lemma addressable_None rt h l o :
  wf_obj rt h l o → is_fully_addressable_ o = None →
  addressable_device_list_ o = None.
Proof.
  intros [_ _ _ _ Wa] E. destruct (addressable_device_list_ o) as [l'|] eqn:El; [|done].
  destruct (Wa _ El) as (_ & _ & ?). congruence.
Qed.

Lemma set_process_indices_id o s :
  process_indices_ o = Some s → set_process_indices (Some s) o = o.
Proof. destruct o; simpl; by intros ->. Qed.

(** [ProcessIndices] writes [process_indices_] of [self] and nothing else;
    when it returns, it returns what is then memoized. *)
Lemma ProcessIndices_run rt self (h : heap) o :
  h !! self = Some o →
  ∃ s, (ProcessIndices rt self h).2 = <[self := set_process_indices (Some s) o]> h
       ∧ ∀ r, (ProcessIndices rt self h).1 = Returns r → r = s.
Proof.
  intros E. unfold ProcessIndices. rewrite bind_run, (deref_run _ _ _ E).
  destruct (process_indices_ o) as [s|] eqn:Es.
  { exists s. rewrite set_process_indices_id, list_insert_id by done.
    split; [done|]. simpl. congruence. }
  destruct (device_list_ o) as [dl|t] eqn:Ed.
  - eexists. rewrite bind_run, (modify_run _ _ _ _ E). simpl.
    split; [done|]. congruence.
  - destruct (collect_process_indices rt t []) as [s e].
    exists s. rewrite bind_run, (modify_run _ _ _ _ E).
    destruct e; simpl; (split; [done|]); congruence.
Qed.

Lemma IsFullyAddressable_preserves rt self :
  preserves rt (IsFullyAddressable rt self).
Proof.
  intros h W. unfold IsFullyAddressable. apply preserves_at_deref; [done|].
  intros o E.
  destruct (is_fully_addressable_ o) as [b|] eqn:Eb; [by apply preserves_at_ret|].
  apply preserves_at_bind; [by apply ProcessIndices_preserves|].
  intros s0 h1 EP W1 L1. apply preserves_at_deref; [done|]. intros o1 E1.
  assert (F : is_fully_addressable_ o1 = None).
  { destruct (ProcessIndices_run rt self h o E) as (s1 & R & _).
    match goal with H : ProcessIndices _ _ _ = _ |- _ => rewrite H in R end.
    simpl in R. subst h1.
    rewrite list_lookup_insert_eq in E1 by (by eapply lookup_lt_Some).
    by simplify_eq. }
  pose proof (addressable_None _ _ _ _ (W1 _ _ E1) F) as NA.
  destruct (process_indices_ o1) as [s|]; [|by apply preserves_at_throw].
  destruct (1 <? length s)%nat.
  { eapply preserves_at_modify_ret; [done..| |solve_same_repr].
    apply wf_obj_set_is_fully_addressable; [by apply W1 | by left]. }
  destruct (negb (length s =? 1)%nat); [by apply preserves_at_throw|].
  apply preserves_at_bind.
  { destruct (device_list_ o1) as [|[|d0 t]];
      [by apply preserves_at_ret | by apply preserves_at_throw | by apply preserves_at_lift]. }
  intros pi h2 Epi W2 L2.
  assert (h2 = h1) as ->.
  { destruct (device_list_ o1) as [|[|d0 t]]; unfold mret, M_ret, throw, lift in Epi; by simplify_eq. }
  destruct s as [|first s]; [by apply preserves_at_throw|].
  eapply preserves_at_modify_ret; [done..| |solve_same_repr].
  apply wf_obj_set_is_fully_addressable; [by apply W1 | by left].
Qed.

Lemma set_is_fully_addressable_id o b :
  is_fully_addressable_ o = Some b → set_is_fully_addressable (Some b) o = o.
Proof. destruct o; simpl; by intros ->. Qed.

Lemma set_process_indices_same o :
  set_process_indices (process_indices_ o) o = o.
Proof. by destruct o. Qed.

(** When [IsFullyAddressable] returns, its result is memoized, and only the
    two caches [process_indices_] and [is_fully_addressable_] of [self] were
    written. *)
Lemma IsFullyAddressable_returns rt self (h h1 : heap) o b :
  h !! self = Some o →
  IsFullyAddressable rt self h = (Returns b, h1) →
  ∃ s, h1 = <[self := set_is_fully_addressable (Some b)
                        (set_process_indices s o)]> h.
Proof.
  intros E. unfold IsFullyAddressable. rewrite bind_run, (deref_run _ _ _ E).
  destruct (is_fully_addressable_ o) as [b'|] eqn:Eb.
  { intros [= -> ->]. exists (process_indices_ o).
    by rewrite set_process_indices_same, set_is_fully_addressable_id, list_insert_id. }
  rewrite bind_run.
  destruct (ProcessIndices_run rt self h o E) as (s & R & _).
  destruct (ProcessIndices rt self h) as [[s0|e] h0]; simpl in R; subst h0; [|done].
  assert (E0 : <[self:=set_process_indices (Some s) o]> h !! self
               = Some (set_process_indices (Some s) o)).
  { apply list_lookup_insert_eq. by eapply lookup_lt_Some. }
  rewrite bind_run, (deref_run _ _ _ E0). simpl.
  destruct (1 <? length s)%nat.
  { rewrite bind_run, (modify_run _ _ _ _ E0). simpl. intros [= <- <-].
    exists (Some s). by rewrite list_insert_insert_eq. }
  destruct (negb (length s =? 1)%nat); [done|].
  rewrite bind_run.
  destruct (device_list_ o) as [dl|[|d0 t]]; simpl; try done.
  - destruct s as [|first s']; [done|].
    rewrite bind_run, (modify_run _ _ _ _ E0). simpl. intros [= <- <-].
    exists (Some (first :: s')). by rewrite list_insert_insert_eq.
  - unfold lift. destruct (attr_client_process_index rt d0); [|done].
    destruct s as [|first s']; [done|].
    rewrite bind_run, (modify_run _ _ _ _ E0). simpl. intros [= <- <-].
    exists (Some (first :: s')). by rewrite list_insert_insert_eq.
Qed.

(** A memoized answer is returned as it is. *)
Lemma IsFullyAddressable_cached rt self (h : heap) o b :
  h !! self = Some o → is_fully_addressable_ o = Some b →
  IsFullyAddressable rt self h = (Returns b, h).
Proof.
  intros E Eb. unfold IsFullyAddressable.
  by rewrite bind_run, (deref_run _ _ _ E), Eb.
Qed.

Lemma external_ok_init rt t o :
  PyDeviceList_init rt t = Returns o → external_ok o ∧ hash_ o = None
  ∧ is_fully_addressable_ o = None ∧ addressable_device_list_ o = None
  ∧ process_indices_ o = None ∧ memory_kind_info_ o = None.
Proof.
  unfold PyDeviceList_init. destruct t as [|x t].
  { simpl. intros [= <-]. repeat split. intros t' [= <-]. by left. }
  cbn [length Nat.eqb].
  destruct (convert_devices (x :: t) None []) as [c|[c|] devices] eqn:Ec.
  - intros [= <-]. repeat split. intros t' [= <-]. right. by exists c.
  - destruct (ValueOrThrow _); [|done]. intros [= <-]. by repeat split.
  - done.
Qed.

Lemma PyDeviceList_native_preserves rt c dl :
  preserves rt (PyDeviceList_native c dl).
Proof.
  intros h W. unfold PyDeviceList_native, alloc, preserves_at. simpl. split.
  - apply wf_alloc; [done|]. by apply wf_obj_fresh.
  - apply heap_le_app.
Qed.

Lemma PyDeviceList_tuple_preserves rt t : preserves rt (PyDeviceList_tuple rt t).
Proof.
  intros h W. unfold PyDeviceList_tuple, preserves_at. rewrite bind_run.
  unfold lift. destruct (PyDeviceList_init rt t) as [o|e] eqn:Ei; simpl.
  - destruct (external_ok_init _ _ _ Ei) as (X & ? & ? & ? & ? & ?). split.
    + apply wf_alloc; [done|]. split; try done; intros ?; congruence.
    + apply heap_le_app.
  - split; [done | apply heap_le_refl].
Qed.

(** A constructor returns the address past the end of the store. *)
Lemma PyDeviceList_native_returns c dl (h h1 : heap) l :
  PyDeviceList_native c dl h = (Returns l, h1) →
  l = length h ∧ h1 = h ++ [mkPyDeviceList c (Native dl)].
Proof. unfold PyDeviceList_native, alloc. by intros [= <- <-]. Qed.

Lemma PyDeviceList_tuple_returns rt t (h h1 : heap) l :
  PyDeviceList_tuple rt t h = (Returns l, h1) →
  ∃ o, PyDeviceList_init rt t = Returns o ∧ l = length h ∧ h1 = h ++ [o].
Proof.
  unfold PyDeviceList_tuple. rewrite bind_run. unfold lift, alloc.
  destruct (PyDeviceList_init rt t) as [o|e]; [|done].
  intros [= <- <-]. by exists o.
Qed.

Lemma AddressableDeviceList_preserves rt self :
  preserves rt (AddressableDeviceList rt self).
Proof.
  intros h W. unfold AddressableDeviceList.
  apply preserves_at_bind; [by apply IsFullyAddressable_preserves|].
  intros fully h1 EF W1 L1. destruct fully; [by apply preserves_at_ret|].
  apply preserves_at_deref; [done|]. intros o1 E1.
  destruct (addressable_device_list_ o1) as [l|] eqn:El; [by apply preserves_at_ret|].
  assert (F : is_fully_addressable_ o1 = Some false).
  { destruct (h !! self) as [o|] eqn:E.
    - destruct (IsFullyAddressable_returns _ _ _ _ _ _ E EF) as (s & ->).
      rewrite list_lookup_insert_eq in E1 by (by eapply lookup_lt_Some).
      by simplify_eq.
    - unfold IsFullyAddressable in EF. rewrite bind_run in EF. unfold deref in EF.
      by rewrite E in EF. }
  assert (Hself : (self < length h1)%nat) by (by eapply lookup_lt_Some).
  assert (K : ∀ (m : M loc),
    preserves_at rt h1 m →
    (∀ l h2, m h1 = (Returns l, h2) → l = length h1 ∧ ∃ o2, h2 = h1 ++ [o2]) →
    preserves_at rt h1
      (m ≫= λ l, modify self (set_addressable_device_list (Some l)) ≫= λ _, mret l)).
  { intros m Pm Rm. apply preserves_at_bind; [done|].
    intros l h2 Em W2 L2. destruct (Rm _ _ Em) as (-> & o2 & ->).
    assert (E2 : (h1 ++ [o2]) !! self = Some o1) by (by rewrite lookup_app_l).
    eapply preserves_at_modify_ret; [done..| |solve_same_repr].
    destruct (W2 _ _ E2) as [Wh Wp Wm We Wa]. split; try done.
    intros l' [= <-]. rewrite length_app. simpl. repeat split; [lia | lia | done]. }
  destruct (device_list_ o1) as [dl|t] eqn:Ed.
  - destruct (py_client_ o1) as [c|] eqn:Ec.
    + apply K.
      * apply preserves_at_bind; [by apply preserves_at_lift|].
        intros dl' h2 _ W2 _. by apply PyDeviceList_native_preserves.
      * intros l h2. rewrite bind_run. unfold lift.
        destruct (ValueOrThrow _); [|done].
        intros R. apply PyDeviceList_native_returns in R as [-> ->]. eauto.
    + apply K.
      * by apply preserves_at_throw.
      * intros l h2. by unfold throw.
  - apply K.
    + apply preserves_at_bind; [by apply preserves_at_lift|].
      intros ds h2 _ W2 _. by apply PyDeviceList_tuple_preserves.
    + intros l h2. rewrite bind_run. unfold lift.
      destruct (filter_addressable rt t); [|done].
      intros R. apply PyDeviceList_tuple_returns in R as (o2 & _ & -> & ->). eauto.
Qed.

(** [Len], [AsTuple], [Dump] and [GetItem] only read. *)
Lemma Len_pure self (h : heap) : (Len self h).2 = h.
Proof.
  unfold Len. rewrite bind_run. unfold deref.
  destruct (h !! self) as [o|]; [|done]. by destruct (device_list_ o).
Qed.

Lemma AsTuple_pure self (h : heap) : (AsTuple self h).2 = h.
Proof.
  unfold AsTuple. rewrite bind_run. unfold deref.
  destruct (h !! self) as [o|]; [|done].
  by destruct (device_list_ o) as [[|d dl]|t], (py_client_ o).
Qed.

Lemma GetItem_pure self index (h : heap) : (GetItem self index h).2 = h.
Proof.
  unfold GetItem. rewrite bind_run. unfold deref.
  destruct (h !! self) as [o|]; [|done].
  destruct (device_list_ o) as [dl|t]; simpl.
  - destruct (_ || _); [done|]. destruct (py_client_ o); [|done].
    destruct (_ <? 0); [done|]. by destruct (dl !! _).
  - destruct (_ || _); [done|]. by destruct (t !! _).
Qed.

Lemma AsTuple_preserves rt self : preserves rt (AsTuple self).
Proof. intros h W. apply preserves_at_pure; [done | apply AsTuple_pure]. Qed.

Lemma Equal_preserves rt self other : preserves rt (Equal rt self other).
Proof.
  intros h W. unfold Equal.
  destruct other as [| | |o|]; try by apply preserves_at_ret.
  destruct (decide (self = o)); [by apply preserves_at_ret|].
  apply preserves_at_bind; [by apply Hash_preserves|]. intros h1 s1 _ W1 _.
  apply preserves_at_bind; [by apply Hash_preserves|]. intros h2 s2 _ W2 _.
  destruct (negb _); [by apply preserves_at_ret|].
  apply preserves_at_deref; [done|]. intros a Ea.
  apply preserves_at_deref; [done|]. intros b Eb.
  assert (preserves_at rt s2
    (AsTuple self ≫= λ t1, AsTuple o ≫= λ t2, lift (tuple_equal rt t1 t2))).
  { apply preserves_at_bind; [by apply AsTuple_preserves|]. intros t1 s3 _ W3 _.
    apply preserves_at_bind; [by apply AsTuple_preserves|]. intros t2 s4 _ W4 _.
    by apply preserves_at_lift. }
  destruct (device_list_ a), (device_list_ b); try done.
  by apply preserves_at_ret.
Qed.

Lemma NotEqual_preserves rt self other : preserves rt (NotEqual rt self other).
Proof.
  intros h W. unfold NotEqual.
  apply preserves_at_bind; [by apply Equal_preserves|].
  intros. by apply preserves_at_ret.
Qed.

Lemma wf_obj_set_memory_kind_info rt h l o info :
  wf_obj rt h l o →
  (device_list_ o = Native [] ∨ device_list_ o = External [] →
   info = OkValue {| default_memory_kind := PyNone; memory_kinds := [] |}) →
  wf_obj rt h l (set_memory_kind_info (Some info) o).
Proof.
  intros [Wh Wp Wm We Wa] Hi. split; try done.
  intros info' [= <-]. exact Hi.
Qed.

(** [PopulateMemoryKindInfo] is called on an empty cache only. *)
Lemma PopulateMemoryKindInfo_preserves rt self (h : heap) o :
  wf rt h → h !! self = Some o → memory_kind_info_ o = None →
  preserves_at rt h (PopulateMemoryKindInfo rt self).
Proof.
  intros W E0 Ei. unfold PopulateMemoryKindInfo.
  apply preserves_at_deref; [done|]. intros o' E. simplify_eq.
  assert (U : ∀ info,
    (device_list_ o = Native [] ∨ device_list_ o = External [] →
     info = OkValue {| default_memory_kind := PyNone; memory_kinds := [] |}) →
    preserves_at rt h (modify self (set_memory_kind_info (Some info)))).
  { intros info Hi. eapply preserves_at_modify; [done..| |solve_same_repr].
    apply wf_obj_set_memory_kind_info; [by apply W | done]. }
  destruct (device_list_ o) as [[|d dl]|t] eqn:Ed.
  - by apply U.
  - destruct (DefaultMemory rt d); apply U; intros [?|?]; done.
  - unfold PopulateMemoryKindInfoForDuckTypedDevices.
    apply preserves_at_deref; [done|]. intros o' E'. simplify_eq. rewrite Ed.
    destruct t as [|d t]; [by apply U|].
    destruct (attr_default_memory_kind rt d) as [kind|[]];
      try (by apply preserves_at_throw); try (apply U; intros [?|?]; done).
    destruct (attr_addressable_memories rt d) as [kinds|[]];
      try (by apply preserves_at_throw); try (apply U; intros [?|?]; done).
Qed.

Lemma MemoryKinds_preserves rt self : preserves rt (MemoryKinds rt self).
Proof.
  intros h W. unfold MemoryKinds.
  apply preserves_at_deref; [done|]. intros o E.
  apply preserves_at_bind.
  { destruct (memory_kind_info_ o) eqn:Ei;
      [by apply preserves_at_ret | by eapply PopulateMemoryKindInfo_preserves]. }
  intros [] h1 _ W1 _. apply preserves_at_deref; [done|]. intros o1 E1.
  destruct (memory_kind_info_ o1) as [[info|s]|];
    [by apply preserves_at_ret | by apply preserves_at_ret | by apply preserves_at_throw].
Qed.

Lemma DefaultMemoryKind_preserves rt self :
  preserves rt (DefaultMemoryKind rt self).
Proof.
  intros h W. unfold DefaultMemoryKind.
  apply preserves_at_deref; [done|]. intros o E.
  apply preserves_at_bind.
  { destruct (memory_kind_info_ o) eqn:Ei;
      [by apply preserves_at_ret | by eapply PopulateMemoryKindInfo_preserves]. }
  intros [] h1 _ W1 _. apply preserves_at_deref; [done|]. intros o1 E1.
  destruct (memory_kind_info_ o1) as [[info|s]|];
    [by apply preserves_at_ret | by apply preserves_at_ret | by apply preserves_at_throw].
Qed.

(** ** Equality with another object *)

(** C10: for every object [other] that is not a [PyDeviceList] instance,
    [Equal(self, other)] returns false and [NotEqual(self, other)] returns
    true, neither raises; and [Equal(self, self)] returns true on the pointer
    comparison alone: the store is left as it is, so no hash is computed or
    memoized, whatever the runtime's hash functions do. *)
Theorem Equal_other_type_and_self rt self other (h : heap) :
  (∀ l, other ≠ PyDeviceListObj l) →
  Equal rt self other h = (Returns false, h)
  ∧ NotEqual rt self other h = (Returns true, h)
  ∧ Equal rt self (PyDeviceListObj self) h = (Returns true, h).
Proof.
  intros N.
  assert (E : Equal rt self other h = (Returns false, h)).
  { unfold Equal. destruct other; try done. by destruct (N l). }
  split; [done|]. split.
  - unfold NotEqual. by rewrite bind_run, E.
  - unfold Equal. by rewrite decide_True.
Qed.

Lemma Equal_other_type_and_self_witness :
  (∀ l, PyOther 5 ≠ PyDeviceListObj l)
  ∧ Equal Sample.rt 0 (PyOther 5) [mkPyDeviceList None (External [PyOther 13])]
    = (Returns false, [mkPyDeviceList None (External [PyOther 13])])
  ∧ Equal Sample.rt 0 (PyDeviceListObj 0)
      [mkPyDeviceList None (External [PyOther 13])]
    = (Returns true, [mkPyDeviceList None (External [PyOther 13])]).
Proof.
  assert (N : ∀ l, PyOther 5 ≠ PyDeviceListObj l) by (intros l; discriminate).
  split; [exact N|].
  destruct (Equal_other_type_and_self Sample.rt 0%nat (PyOther 5)
              [mkPyDeviceList None (External [PyOther 13])] N) as (E1 & _ & E3).
  split; [exact E1 | exact E3].
Defined.

(** ** Indexing *)

Lemma wrap_int_id z : - 2 ^ 31 ≤ z < 2 ^ 31 → wrap_int z = z.
Proof. intros ?. unfold wrap_int. rewrite Z.mod_small; lia. Qed.

(** C9: on a native list of [n] devices (with its owning client, [n] an
    [int]) and for every [int] index: [GetItem] returns the handle of the
    device at position [index + n] when [-n <= index < 0], the handle of the
    device at position [index] when [0 <= index < n], and raises an index
    error when [index < -n] or [index >= n]. *)
Theorem GetItem_native (h : heap) self o c dl index :
  h !! self = Some o →
  device_list_ o = Native dl →
  py_client_ o = Some c →
  Z.of_nat (length dl) < 2 ^ 31 →
  - 2 ^ 31 ≤ index < 2 ^ 31 →
  let n := Z.of_nat (length dl) in
  (- n ≤ index < 0 →
     ∃ d, dl !! Z.to_nat (index + n) = Some d
          ∧ GetItem self index h = (Returns (GetPyDevice c d), h))
  ∧ (0 ≤ index < n →
     ∃ d, dl !! Z.to_nat index = Some d
          ∧ GetItem self index h = (Returns (GetPyDevice c d), h))
  ∧ (index < - n ∨ n ≤ index →
     GetItem self index h = (Throws index_error, h)).
Proof.
  intros E Ed Ec Hn Hi n. subst n.
  unfold GetItem. rewrite bind_run, (deref_run _ _ _ E), Ed, Ec.
  set (n := Z.of_nat (length dl)) in *.
  rewrite (wrap_int_id n), (wrap_int_id (- n)) by lia.
  repeat split.
  - intros Hr. rewrite (wrap_int_id (index + n)) by lia.
    destruct (dl !! Z.to_nat (index + n)) as [d|] eqn:El.
    + exists d. split; [done|].
      replace (index <? - n) with false by lia.
      replace (index >=? n) with false by lia.
      replace (index <? 0) with true by lia. simpl.
      replace (index + n <? 0) with false by lia. by rewrite El.
    + apply lookup_ge_None in El. lia.
  - intros Hr.
    destruct (dl !! Z.to_nat index) as [d|] eqn:El.
    + exists d. split; [done|].
      replace (index <? - n) with false by lia.
      replace (index >=? n) with false by lia.
      replace (index <? 0) with false by lia. simpl.
      replace (index <? 0) with false by lia. by rewrite El.
    + apply lookup_ge_None in El. lia.
  - intros [Hr|Hr].
    + by replace (index <? - n) with true by lia.
    + replace (index >=? n) with true by lia. by rewrite orb_true_r.
Qed.

Lemma GetItem_native_witness :
  let h := [mkPyDeviceList (Some Sample.c0) (Native [DevicePtr 6; DevicePtr 5])] in
  h !! 0%nat = Some (mkPyDeviceList (Some Sample.c0) (Native [DevicePtr 6; DevicePtr 5]))
  ∧ GetItem 0 (-1) h = (Returns (Sample.d 5), h)
  ∧ GetItem 0 0 h = (Returns (Sample.d 6), h)
  ∧ GetItem 0 2 h = (Throws index_error, h)
  ∧ GetItem 0 (-3) h = (Throws index_error, h).
Proof.
  intros h. split; [reflexivity|].
  pose proof (λ index, GetItem_native h 0%nat _ Sample.c0
                [DevicePtr 6; DevicePtr 5] index eq_refl eq_refl eq_refl) as G.
  simpl in G.
  destruct (G (-1) ltac:(lia) ltac:(lia)) as (G1 & _ & _).
  destruct G1 as (d1 & L1 & R1); [lia|].
  destruct (G 0 ltac:(lia) ltac:(lia)) as (_ & G2 & _).
  destruct G2 as (d2 & L2 & R2); [lia|].
  destruct (G 2 ltac:(lia) ltac:(lia)) as (_ & _ & R3).
  destruct (G (-3) ltac:(lia) ltac:(lia)) as (_ & _ & R4).
  simpl in L1, L2. simplify_eq.
  split; [exact R1|]. split; [exact R2|].
  split; [apply R3; lia | apply R4; lia].
Defined.

(** ** Construction from a tuple *)

(** The loop, once a client is recorded: it runs to its end exactly on
    handles of that client, collecting their devices in order. *)
Lemma convert_devices_Some t c devices :
  match convert_devices t (Some c) devices with
  | Converted c' devices' =>
      c' = Some c ∧ ∃ ds, devices' = devices ++ ds ∧ t = map (PyDeviceObj c) ds
  | Fallback c' =>
      c' = Some c ∧ ¬ Forall (λ x, ∃ d, x = PyDeviceObj c d) t
  end.
Proof.
  revert devices. induction t as [|x t IH]; intros devices; simpl.
  { split; [done|]. exists []. by rewrite app_nil_r. }
  destruct x as [| |c' d| |];
    try (split; [done|]; intros F; apply Forall_cons in F as [[d ?] _]; done).
  destruct (decide (c' = c)) as [->|N].
  - specialize (IH (devices ++ [d])).
    destruct (convert_devices t (Some c) (devices ++ [d])) as [c2|c2 ds2].
    + destruct IH as [-> NF]. split; [done|].
      intros F. apply Forall_cons in F as [_ F]. by apply NF.
    + destruct IH as (-> & ds & -> & ->). split; [done|].
      exists (d :: ds). by rewrite <- app_assoc.
  - split; [done|]. intros F. apply Forall_cons in F as [[d' ?] _]. congruence.
Qed.

(** The loop from the start, on a non-empty tuple. *)
Lemma convert_devices_None x t :
  match convert_devices (x :: t) None [] with
  | Converted c' devices =>
      ∃ c, c' = Some c ∧ x :: t = map (PyDeviceObj c) devices
  | Fallback _ => ¬ all_native_one_client (x :: t)
  end.
Proof.
  simpl. destruct x as [| |c d| |];
    try (intros [c F]; apply Forall_cons in F as [[d ?] _]; done).
  pose proof (convert_devices_Some t c [d]) as H.
  destruct (convert_devices t (Some c) [d]) as [c2|c2 ds2].
  - destruct H as [-> NF]. intros [c' F].
    apply Forall_cons in F as [[d' ?] F]. by simplify_eq.
  - destruct H as (-> & ds & -> & ->). by exists c.
Qed.

Lemma MakeDeviceList_owned rt c ds :
  handles_owned rt (map (PyDeviceObj c) ds) →
  MakeDeviceList rt c ds = OkValue ds.
Proof.
  intros H. unfold MakeDeviceList.
  replace (forallb _ ds) with true; [done|].
  symmetry. apply forallb_forall. intros d Hd. apply bool_decide_eq_true.
  apply H. apply list_elem_of_In. apply in_map_iff. by exists d.
Qed.

(** C6: construction from a non-empty tuple of device objects (native
    handles wrapping devices of their own client) succeeds; it produces the
    native representation if and only if every element is a native device
    and all elements share one owning client, and then the native list holds
    the wrapped devices in order; if an element is not a native device or
    belongs to another client than an earlier one, the object keeps the
    tuple and no error is reported. *)
Theorem PyDeviceList_init_native_iff rt t :
  t ≠ [] →
  handles_owned rt t →
  ∃ o, PyDeviceList_init rt t = Returns o
       ∧ ((∃ dl, device_list_ o = Native dl) ↔ all_native_one_client t)
       ∧ (all_native_one_client t →
            ∃ c dl, py_client_ o = Some c ∧ device_list_ o = Native dl
                    ∧ t = map (GetPyDevice c) dl)
       ∧ (¬ all_native_one_client t → device_list_ o = External t).
Proof.
  intros Ht Ho. destruct t as [|x t]; [done|].
  unfold PyDeviceList_init. cbn [length Nat.eqb].
  pose proof (convert_devices_None x t) as H.
  destruct (convert_devices (x :: t) None []) as [c'|c' devices].
  - eexists. split; [done|]. simpl. repeat split.
    + by intros [dl ?].
    + by intros ?.
    + by intros ?.
  - destruct H as (c & -> & Et).
    rewrite MakeDeviceList_owned by (by rewrite <- Et). simpl.
    assert (A : all_native_one_client (x :: t)).
    { exists c. rewrite Et. apply Forall_forall. intros y Hy.
      apply list_elem_of_In, in_map_iff in Hy as (d & <- & _). by exists d. }
    eexists. split; [done|]. simpl. repeat split.
    + by intros _.
    + intros _. by exists devices.
    + intros _. by exists c, devices.
    + by intros ?.
Qed.

Lemma PyDeviceList_init_native_iff_witness :
  (∃ o, PyDeviceList_init Sample.rt [Sample.d 0; Sample.d 1] = Returns o
        ∧ device_list_ o = Native [DevicePtr 0; DevicePtr 1])
  ∧ (∃ o, PyDeviceList_init Sample.rt
            [Sample.d 0; PyDeviceObj Sample.c1 (DevicePtr 100)] = Returns o
          ∧ ∃ t, device_list_ o = External t).
Proof.
  split.
  - destruct (PyDeviceList_init_native_iff Sample.rt [Sample.d 0; Sample.d 1])
      as (o & E & _ & _ & _); [done | solve_owned | ].
    exists o. split; [exact E|]. vm_compute in E. by simplify_eq.
  - set (t := [Sample.d 0; PyDeviceObj Sample.c1 (DevicePtr 100)]).
    destruct (PyDeviceList_init_native_iff Sample.rt t)
      as (o & E & _ & _ & X); [done | solve_owned | ].
    exists o. split; [exact E|]. exists t. apply X.
    intros [c F]. apply Forall_cons in F as [[d0 E0] F].
    apply Forall_cons in F as [[d1 E1] _].
    unfold Sample.d, Sample.c0, Sample.c1 in *. congruence.
Defined.

(** ** Memory kinds *)

Lemma bind_ret_run {A B} (a : A) (f : A → M B) (h : heap) :
  (mret a ≫= f) h = f a h.
Proof. reflexivity. Qed.

Lemma lookup_insert_self (h : heap) l o o' :
  h !! l = Some o → <[l := o']> h !! l = Some o'.
Proof. intros E. apply list_lookup_insert_eq. by eapply lookup_lt_Some. Qed.

(** With a populated cache the two queries only read it. *)
Lemma memory_kind_queries_cached rt self (h : heap) o info :
  h !! self = Some o → memory_kind_info_ o = Some info →
  MemoryKinds rt self h =
    (Returns match info with
             | OkValue i => OkValue (memory_kinds i)
             | ErrStatus s => ErrStatus s
             end, h)
  ∧ DefaultMemoryKind rt self h =
    (Returns match info with
             | OkValue i => OkValue (default_memory_kind i)
             | ErrStatus s => ErrStatus s
             end, h).
Proof.
  intros E Ei. unfold MemoryKinds, DefaultMemoryKind.
  rewrite !bind_run, (deref_run _ _ _ E), Ei, !bind_ret_run.
  rewrite !bind_run, (deref_run _ _ _ E), Ei. by destruct info.
Qed.

(** With an empty cache the two queries populate it first. *)
Lemma memory_kind_queries_populate rt self (h : heap) o info :
  h !! self = Some o → memory_kind_info_ o = None →
  PopulateMemoryKindInfo rt self h =
    (Returns tt, <[self := set_memory_kind_info (Some info) o]> h) →
  MemoryKinds rt self h =
    (Returns match info with
             | OkValue i => OkValue (memory_kinds i)
             | ErrStatus s => ErrStatus s
             end, <[self := set_memory_kind_info (Some info) o]> h)
  ∧ DefaultMemoryKind rt self h =
    (Returns match info with
             | OkValue i => OkValue (default_memory_kind i)
             | ErrStatus s => ErrStatus s
             end, <[self := set_memory_kind_info (Some info) o]> h).
Proof.
  intros E Ei P. unfold MemoryKinds, DefaultMemoryKind.
  rewrite !bind_run, (deref_run _ _ _ E), Ei, !bind_run, P.
  rewrite !bind_run, (deref_run _ _ _ (lookup_insert_self _ _ _ _ E)).
  by destruct info.
Qed.

(** C7: when the first computation of the memory kinds fails (device 0 has
    no default memory), the failure is stored in [memory_kind_info_] and
    [MemoryKinds] and [DefaultMemoryKind] return it; on every store [h2]
    reached afterwards by calls of member functions, both return that same
    failure again and leave the store as it is, whatever the runtime [rt']
    would answer by then: nothing is computed again. *)
Theorem memory_kind_failure_cached rt rt' self (h : heap) o s :
  h !! self = Some o →
  memory_kind_info_ o = None →
  default_memory_fails rt o s →
  let h1 := <[self := set_memory_kind_info (Some (ErrStatus s)) o]> h in
  MemoryKinds rt self h = (Returns (ErrStatus s), h1)
  ∧ DefaultMemoryKind rt self h = (Returns (ErrStatus s), h1)
  ∧ ∀ h2, heap_le h1 h2 →
      MemoryKinds rt' self h2 = (Returns (ErrStatus s), h2)
      ∧ DefaultMemoryKind rt' self h2 = (Returns (ErrStatus s), h2).
Proof.
  intros E Ei F h1.
  assert (P : PopulateMemoryKindInfo rt self h = (Returns tt, h1)).
  { unfold PopulateMemoryKindInfo, default_memory_fails in *.
    rewrite bind_run, (deref_run _ _ _ E).
    destruct (device_list_ o) as [[|d dl]|[|d t]] eqn:Ed; try done.
    - rewrite F. by rewrite (modify_run _ _ _ _ E).
    - destruct F as (what & F & ->).
      unfold PopulateMemoryKindInfoForDuckTypedDevices.
      rewrite bind_run, (deref_run _ _ _ E), Ed, F.
      by rewrite (modify_run _ _ _ _ E). }
  destruct (memory_kind_queries_populate rt self h o (ErrStatus s) E Ei P)
    as [M1 M2].
  split; [exact M1|]. split; [exact M2|].
  intros h2 L.
  destruct (L self _ (lookup_insert_self h self o _ E)) as (o2 & E2 & S2).
  apply (memory_kind_queries_cached rt' self h2 o2 (ErrStatus s) E2).
  by apply (memo_memory_kind_info _ _ S2).
Qed.

Lemma memory_kind_failure_cached_witness :
  let o := mkPyDeviceList (Some Sample.c0) (Native [DevicePtr 7; DevicePtr 6]) in
  let s := {| code := "UNIMPLEMENTED"; message := "no default memory" |} in
  default_memory_fails Sample.rt o s
  ∧ MemoryKinds Sample.rt 0 [o]
    = (Returns (ErrStatus s), [set_memory_kind_info (Some (ErrStatus s)) o])
  ∧ DefaultMemoryKind Sample.rt 0 [set_memory_kind_info (Some (ErrStatus s)) o]
    = (Returns (ErrStatus s), [set_memory_kind_info (Some (ErrStatus s)) o]).
Proof.
  intros o s.
  assert (F : default_memory_fails Sample.rt o s) by reflexivity.
  split; [exact F|].
  destruct (memory_kind_failure_cached Sample.rt Sample.rt 0%nat [o] o s
              eq_refl eq_refl F) as (M1 & _ & M3).
  split; [exact M1|].
  exact (proj2 (M3 _ (heap_le_refl _))).
Defined.

(** C8: on every empty list, native or tuple, [DefaultMemoryKind] succeeds
    with [None] and [MemoryKinds] succeeds with the empty tuple. *)
Theorem memory_kinds_of_empty_list rt self (h : heap) o :
  wf rt h →
  h !! self = Some o →
  device_list_ o = Native [] ∨ device_list_ o = External [] →
  ∃ h1, DefaultMemoryKind rt self h = (Returns (OkValue PyNone), h1)
        ∧ MemoryKinds rt self h = (Returns (OkValue []), h1).
Proof.
  intros W E Hd.
  set (info := OkValue {| default_memory_kind := PyNone; memory_kinds := [] |}).
  destruct (memory_kind_info_ o) as [i|] eqn:Ei.
  - assert (i = info) as -> by (by apply (wf_memory_kind_info _ _ _ _ (W _ _ E))).
    destruct (memory_kind_queries_cached rt self h o info E Ei) as [M1 M2].
    by exists h.
  - assert (P : PopulateMemoryKindInfo rt self h =
                (Returns tt, <[self := set_memory_kind_info (Some info) o]> h)).
    { unfold PopulateMemoryKindInfo. rewrite bind_run, (deref_run _ _ _ E).
      destruct Hd as [Hd|Hd]; rewrite Hd.
      - by rewrite (modify_run _ _ _ _ E).
      - unfold PopulateMemoryKindInfoForDuckTypedDevices.
        by rewrite bind_run, (deref_run _ _ _ E), Hd, (modify_run _ _ _ _ E). }
    destruct (memory_kind_queries_populate rt self h o info E Ei P) as [M1 M2].
    by eexists.
Qed.

Lemma memory_kinds_of_empty_list_witness :
  let h := [mkPyDeviceList None (External [])] in
  wf Sample.rt h
  ∧ ∃ h1, DefaultMemoryKind Sample.rt 0 h = (Returns (OkValue PyNone), h1)
          ∧ MemoryKinds Sample.rt 0 h = (Returns (OkValue []), h1).
Proof.
  intros h.
  assert (W : wf Sample.rt h)
    by exact (proj1 (PyDeviceList_tuple_preserves Sample.rt [] [] (wf_nil _))).
  split; [exact W|].
  exact (memory_kinds_of_empty_list Sample.rt 0%nat h _ W eq_refl
           (or_intror eq_refl)).
Defined.

(** ** The addressable sublist *)

(** [IsFullyAddressable] returns only on a live instance. *)
Lemma IsFullyAddressable_live rt self (h h0 : heap) b :
  IsFullyAddressable rt self h = (Returns b, h0) → ∃ o, h !! self = Some o.
Proof.
  unfold IsFullyAddressable. rewrite bind_run. unfold deref.
  destruct (h !! self) as [o|]; [eauto | done].
Qed.

(** What [AddressableDeviceList] does once [IsFullyAddressable] has
    answered, in its three cases. *)
Lemma AddressableDeviceList_cases rt self (h h0 h1 : heap) b r :
  IsFullyAddressable rt self h = (Returns b, h0) →
  AddressableDeviceList rt self h = (Returns r, h1) →
  ∃ o0, h0 !! self = Some o0 ∧ is_fully_addressable_ o0 = Some b ∧
    ( (b = true ∧ r = self ∧ h1 = h0)
    ∨ (b = false ∧ addressable_device_list_ o0 = Some r ∧ h1 = h0)
    ∨ (b = false ∧ addressable_device_list_ o0 = None ∧
       ∃ h2, (length h0 ≤ length h2)%nat ∧ h2 !! self = Some o0 ∧
             h1 = <[self := set_addressable_device_list (Some r) o0]> h2) ).
Proof.
  intros EF EA. destruct (IsFullyAddressable_live _ _ _ _ _ EF) as [o E].
  destruct (IsFullyAddressable_returns _ _ _ _ _ _ E EF) as (s & ->).
  unfold AddressableDeviceList in EA. rewrite bind_run, EF in EA.
  cbv beta iota in EA.
  remember (set_is_fully_addressable (Some b) (set_process_indices s o))
    as o0 eqn:Eo0 in *.
  pose proof (lookup_insert_self h self o o0 E) as E0.
  assert (Eb : is_fully_addressable_ o0 = Some b) by (by subst o0).
  clear Eo0 EF.
  remember (<[self:=o0]> h) as h0 eqn:Eh0 in *. clear Eh0 E.
  exists o0. split; [done|]. split; [done|].
  destruct b.
  { left. unfold mret, M_ret in EA. by simplify_eq. }
  right. rewrite bind_run, (deref_run _ _ _ E0) in EA.
  destruct (addressable_device_list_ o0) as [l|] eqn:El.
  { left. unfold mret, M_ret in EA. by simplify_eq. }
  right. split; [done|]. split; [done|]. rewrite bind_run in EA.
  assert (K : ∀ (m : M loc) l h2',
    (∀ l h2, m h0 = (Returns l, h2) → ∃ o2, h2 = h0 ++ [o2]) →
    m h0 = (Returns l, h2') →
    (modify self (set_addressable_device_list (Some l)) ≫= λ _, mret l) h2'
      = (Returns r, h1) →
    ∃ h2, (length h0 ≤ length h2)%nat ∧ h2 !! self = Some o0 ∧
          h1 = <[self := set_addressable_device_list (Some r) o0]> h2).
  { intros m l h2' Rm Em. destruct (Rm _ _ Em) as (o2 & ->).
    assert (E2 : (h0 ++ [o2]) !! self = Some o0).
    { rewrite lookup_app_l; [done | by eapply lookup_lt_Some]. }
    rewrite bind_run, (modify_run _ _ _ _ E2). intros [= <- <-].
    exists (h0 ++ [o2]). rewrite length_app. split; [lia | done]. }
  destruct (device_list_ o0) as [dl|t].
  - destruct (py_client_ o0) as [c|]; [|done].
    match type of EA with match ?m _ with _ => _ end = _ =>
      destruct (m h0) as [[l|e] h2'] eqn:Em; [|done];
      apply (K m l h2'); [|done..]
    end.
    intros l' h2. rewrite bind_run. unfold lift.
    destruct (ValueOrThrow _); [|done].
    intros R. apply PyDeviceList_native_returns in R as [-> ->]. eauto.
  - match type of EA with match ?m _ with _ => _ end = _ =>
      destruct (m h0) as [[l|e] h2'] eqn:Em; [|done];
      apply (K m l h2'); [|done..]
    end.
    intros l' h2. rewrite bind_run. unfold lift.
    destruct (filter_addressable rt t); [|done].
    intros R. apply PyDeviceList_tuple_returns in R as (o2 & _ & -> & ->). eauto.
Qed.

(** ** Hashing and equality *)

Lemma ret_run {A} (a : A) (h : heap) : (mret a : M A) h = (Returns a, h).
Proof. reflexivity. Qed.

Lemma set_hash_id o v : hash_ o = Some v → set_hash (Some v) o = o.
Proof. destruct o; simpl; by intros ->. Qed.

(** [Hash] returns the hash of the representation and memoizes it. *)
Lemma Hash_run rt self (h : heap) o v :
  wf rt h → h !! self = Some o →
  match device_list_ o with
  | Native dl => v = absl_HashOf rt dl
  | External t => nb_hash rt t = Returns v
  end →
  Hash rt self h = (Returns v, <[self := set_hash (Some v) o]> h).
Proof.
  intros W E Hv. unfold Hash. rewrite bind_run, (deref_run _ _ _ E).
  destruct (hash_ o) as [v'|] eqn:Eh.
  - pose proof (wf_hash _ _ _ _ (W _ _ E) _ Eh) as Hv'.
    assert (v' = v) as -> by (destruct (device_list_ o); congruence).
    by rewrite set_hash_id, list_insert_id.
  - rewrite bind_run. destruct (device_list_ o) as [dl|t].
    + subst v. by rewrite ret_run, bind_run, (modify_run _ _ _ _ E).
    + unfold lift. rewrite Hv. by rewrite bind_run, (modify_run _ _ _ _ E).
Qed.

Lemma tuple_equal_refl rt t : tuple_equal rt t t = Returns true.
Proof. induction t as [|x t IH]; simpl; [done|]. by rewrite decide_True. Qed.

Lemma AsTuple_external (h : heap) self o t :
  h !! self = Some o → device_list_ o = External t →
  AsTuple self h = (Returns t, h).
Proof.
  intros E Ed. unfold AsTuple. by rewrite bind_run, (deref_run _ _ _ E), Ed.
Qed.

(** Two instances that hold the same representation have the same hash and
    are equal. *)
Lemma Equal_same_representation rt (h : heap) a b oa ob :
  wf rt h → h !! a = Some oa → h !! b = Some ob →
  device_list_ oa = device_list_ ob →
  hashable rt oa →
  ∃ v, (Hash rt a h).1 = Returns v ∧ (Hash rt b h).1 = Returns v
       ∧ (Equal rt a (PyDeviceListObj b) h).1 = Returns true.
Proof.
  intros W Ea Eb Ed Hh.
  assert (∃ v, match device_list_ oa with
               | Native dl => v = absl_HashOf rt dl
               | External t => nb_hash rt t = Returns v
               end) as [v Hv].
  { destruct (device_list_ oa) as [dl|t] eqn:E; [by eexists | by apply Hh]. }
  exists v.
  pose proof (Hash_run rt a h oa v W Ea Hv) as Ha.
  pose proof (Hash_run rt b h ob v W Eb ltac:(by rewrite <- Ed)) as Hb.
  rewrite Ha, Hb. split; [done|]. split; [done|].
  unfold Equal. destruct (decide (a = b)) as [->|N]; [done|].
  rewrite bind_run, Ha.
  set (oa' := set_hash (Some v) oa). set (h1 := <[a:=oa']> h).
  assert (W1 : wf rt h1).
  { pose proof (Hash_preserves rt a h W) as [W1 _]. by rewrite Ha in W1. }
  assert (Eb1 : h1 !! b = Some ob) by (by unfold h1; rewrite list_lookup_insert_ne).
  rewrite bind_run, (Hash_run rt b h1 ob v W1 Eb1 ltac:(by rewrite <- Ed)).
  set (ob' := set_hash (Some v) ob). set (h2 := <[b:=ob']> h1).
  assert (Ea2 : h2 !! a = Some oa').
  { unfold h2. rewrite list_lookup_insert_ne by done.
    by apply (lookup_insert_self h a oa). }
  assert (Eb2 : h2 !! b = Some ob') by (by apply (lookup_insert_self h1 b ob)).
  rewrite Z.eqb_refl. cbn [negb]. cbv beta iota.
  rewrite bind_run, (deref_run _ _ _ Ea2), bind_run, (deref_run _ _ _ Eb2).
  change (device_list_ oa') with (device_list_ oa).
  change (device_list_ ob') with (device_list_ ob).
  rewrite <- Ed.
  destruct (device_list_ oa) as [dl|t] eqn:Eda.
  - by rewrite bool_decide_eq_true_2.
  - rewrite bind_run, (AsTuple_external h2 a oa' t Ea2 Eda).
    rewrite bind_run, (AsTuple_external h2 b ob' t Eb2 (eq_sym Ed)).
    unfold lift. by rewrite tuple_equal_refl.
Qed.

Lemma map_PyDeviceObj_inj c1 c2 l1 l2 :
  map (PyDeviceObj c1) l1 = map (PyDeviceObj c2) l2 →
  l1 = l2 ∧ (l1 ≠ [] → c1 = c2).
Proof.
  revert l2. induction l1 as [|x l1 IH]; intros [|y l2] E; simplify_eq/=; [done|].
  destruct (IH _ H0) as [-> _]. done.
Qed.

(** The tuple [AsTuple] makes of a native list. *)
Lemma AsTuple_native (h : heap) self o dl t :
  h !! self = Some o → device_list_ o = Native dl →
  (AsTuple self h).1 = Returns t →
  (dl = [] ∧ t = []) ∨
  (∃ c, dl ≠ [] ∧ py_client_ o = Some c ∧ t = map (PyDeviceObj c) dl).
Proof.
  intros E Ed. unfold AsTuple. rewrite bind_run, (deref_run _ _ _ E), Ed.
  destruct dl as [|d dl]; simpl.
  - intros [= <-]. by left.
  - destruct (py_client_ o) as [c|]; simpl; [|done].
    intros [= <-]. right. by exists c.
Qed.

(** A tuple that the tuple constructor would convert is not kept as a
    tuple. *)
Lemma external_not_native_handles o c dl :
  external_ok o → dl ≠ [] → device_list_ o ≠ External (map (PyDeviceObj c) dl).
Proof.
  intros X Hdl Ed. destruct (X _ Ed) as [E|[c' E]].
  - by destruct dl.
  - destruct dl as [|d dl]; [done|].
    pose proof (convert_devices_None (PyDeviceObj c d) (map (PyDeviceObj c) dl)) as H.
    simpl map in E. rewrite E in H. apply H. exists c.
    apply Forall_forall. intros y Hy.
    change (y ∈ map (PyDeviceObj c) (d :: dl)) in Hy.
    apply list_elem_of_In, in_map_iff in Hy as (d' & <- & _). by exists d'.
Qed.

(** Two live instances with the same tuple of devices, not empty, hold the
    same representation. *)
Lemma same_devices_same_representation rt (h : heap) a b oa ob t :
  wf rt h → h !! a = Some oa → h !! b = Some ob →
  (AsTuple a h).1 = Returns t → (AsTuple b h).1 = Returns t →
  t ≠ [] ∨ same_variant (device_list_ oa) (device_list_ ob) →
  device_list_ oa = device_list_ ob.
Proof.
  intros W Ea Eb Ta Tb Hv.
  destruct (device_list_ oa) as [dl1|t1] eqn:Eda,
           (device_list_ ob) as [dl2|t2] eqn:Edb.
  - destruct (AsTuple_native _ _ _ _ _ Ea Eda Ta) as [[-> ->]|(c1 & N1 & _ & ->)],
             (AsTuple_native _ _ _ _ _ Eb Edb Tb) as [[-> E2]|(c2 & N2 & _ & E2)];
      try done.
    + by destruct dl2.
    + by destruct dl1.
    + by apply map_PyDeviceObj_inj in E2 as [-> _].
  - rewrite (AsTuple_external _ _ _ _ Eb Edb) in Tb. simpl in Tb. simplify_eq.
    destruct (AsTuple_native _ _ _ _ _ Ea Eda Ta) as [[-> ->]|(c1 & N1 & _ & ->)].
    + by destruct Hv.
    + by destruct (external_not_native_handles ob c1 dl1
                     (wf_external _ _ _ _ (W _ _ Eb)) N1).
  - rewrite (AsTuple_external _ _ _ _ Ea Eda) in Ta. simpl in Ta. simplify_eq.
    destruct (AsTuple_native _ _ _ _ _ Eb Edb Tb) as [[-> ->]|(c2 & N2 & _ & ->)].
    + by destruct Hv.
    + by destruct (external_not_native_handles oa c2 dl2
                     (wf_external _ _ _ _ (W _ _ Ea)) N2).
  - rewrite (AsTuple_external _ _ _ _ Ea Eda) in Ta.
    rewrite (AsTuple_external _ _ _ _ Eb Edb) in Tb. simpl in *. congruence.
Qed.

(** C1, as the code has it: two live instances with the same ordered
    device identities (the same [AsTuple]) have the same hash and are equal
    whenever the sequence is not empty (they then hold the same
    representation) or both hold the same alternative of the variant; the
    devices of a tuple are taken to be hashable.  An empty native list and
    an empty tuple are left out: [Hash] sends them through two different
    hash functions. *)
Theorem Equal_Hash_same_devices rt (h : heap) a b oa ob t :
  wf rt h →
  h !! a = Some oa → h !! b = Some ob →
  (AsTuple a h).1 = Returns t → (AsTuple b h).1 = Returns t →
  t ≠ [] ∨ same_variant (device_list_ oa) (device_list_ ob) →
  hashable rt oa →
  ∃ v, (Hash rt a h).1 = Returns v ∧ (Hash rt b h).1 = Returns v
       ∧ (Equal rt a (PyDeviceListObj b) h).1 = Returns true.
Proof.
  intros W Ea Eb Ta Tb Hv Hh.
  eapply Equal_same_representation; eauto.
  eapply same_devices_same_representation; eauto.
Qed.

Lemma Equal_Hash_same_devices_witness :
  let h := [mkPyDeviceList (Some Sample.c0) (Native [DevicePtr 0; DevicePtr 1]);
            mkPyDeviceList None (External [PyOther 4; PyOther 5]);
            mkPyDeviceList (Some Sample.c0) (Native [DevicePtr 0; DevicePtr 1]);
            mkPyDeviceList None (External [PyOther 4; PyOther 5])] in
  wf Sample.rt h
  ∧ (∃ v, (Hash Sample.rt 0 h).1 = Returns v ∧ (Hash Sample.rt 2 h).1 = Returns v
          ∧ (Equal Sample.rt 0 (PyDeviceListObj 2) h).1 = Returns true)
  ∧ (∃ v, (Hash Sample.rt 1 h).1 = Returns v ∧ (Hash Sample.rt 3 h).1 = Returns v
          ∧ (Equal Sample.rt 1 (PyDeviceListObj 3) h).1 = Returns true).
Proof.
  intros h.
  assert (W : wf Sample.rt h).
  { pose proof (wf_nil Sample.rt) as W0.
    apply (PyDeviceList_native_preserves Sample.rt (Some Sample.c0)
             [DevicePtr 0; DevicePtr 1]) in W0 as [W1 _].
    apply (PyDeviceList_tuple_preserves Sample.rt [PyOther 4; PyOther 5])
      in W1 as [W2 _].
    apply (PyDeviceList_native_preserves Sample.rt (Some Sample.c0)
             [DevicePtr 0; DevicePtr 1]) in W2 as [W3 _].
    apply (PyDeviceList_tuple_preserves Sample.rt [PyOther 4; PyOther 5])
      in W3 as [W4 _].
    exact W4. }
  split; [exact W|]. split.
  - apply (Equal_Hash_same_devices Sample.rt h 0%nat 2%nat _ _
             [Sample.d 0; Sample.d 1] W eq_refl eq_refl eq_refl eq_refl).
    + by left.
    + by intros t.
  - apply (Equal_Hash_same_devices Sample.rt h 1%nat 3%nat _ _
             [PyOther 4; PyOther 5] W eq_refl eq_refl eq_refl eq_refl).
    + by left.
    + intros t [= <-]. by eexists.
Defined.

(** C1 as stated fails on an empty native list (the addressable sublist of
    a list without a local device is one) and the empty tuple list
    [DeviceList(())]: the same, empty, sequence of devices, two hashes,
    and [Equal] answers false. *)
Lemma Equal_Hash_across_representations_counterexample :
  let h := [mkPyDeviceList (Some Sample.c0) (Native []);
            mkPyDeviceList None (External [])] in
  PyDeviceList_native (Some Sample.c0) [] [] = (Returns 0%nat, take 1 h)
  ∧ PyDeviceList_tuple Sample.rt [] (take 1 h) = (Returns 1%nat, h)
  ∧ wf Sample.rt h
  ∧ AsTuple 0 h = (Returns [], h)
  ∧ AsTuple 1 h = (Returns [], h)
  ∧ (Hash Sample.rt 0 h).1 = Returns 1469598103934665603
  ∧ (Hash Sample.rt 1 h).1 = Returns 5740354900026072187
  ∧ (Equal Sample.rt 0 (PyDeviceListObj 1) h).1 = Returns false.
Proof.
  intros h.
  assert (W : wf Sample.rt h).
  { pose proof (wf_nil Sample.rt) as W0.
    apply (PyDeviceList_native_preserves Sample.rt (Some Sample.c0) [])
      in W0 as [W1 _].
    apply (PyDeviceList_tuple_preserves Sample.rt []) in W1 as [W2 _].
    exact W2. }
  split; [reflexivity|]. split; [reflexivity|]. split; [exact W|].
  split; [reflexivity|]. split; [reflexivity|].
  split; [vm_compute; reflexivity|].
  split; vm_compute; reflexivity.
Qed.

(** ** Serialization *)

(** What the tuple constructor makes of the tuple of an instance. *)
Lemma PyDeviceList_init_of_AsTuple rt (h : heap) a oa t :
  wf rt h → h !! a = Some oa →
  (AsTuple a h).1 = Returns t →
  t ≠ [] ∨ (∃ t', device_list_ oa = External t') →
  (∀ dl, device_list_ oa = Native dl → handles_owned rt t) →
  ∃ ob, PyDeviceList_init rt t = Returns ob
        ∧ device_list_ ob = device_list_ oa.
Proof.
  intros W Ea Ta Ht Ho.
  destruct (device_list_ oa) as [dl|t1] eqn:Eda.
  - destruct (AsTuple_native _ _ _ _ _ Ea Eda Ta) as [[-> ->]|(c & N & Ec & ->)].
    { by destruct Ht as [?|[? ?]]. }
    destruct dl as [|d dl]; [done|].
    unfold PyDeviceList_init. cbn [map length Nat.eqb].
    pose proof (convert_devices_None (PyDeviceObj c d) (map (PyDeviceObj c) dl)) as H.
    destruct (convert_devices _ None []) as [c'|c' devices].
    + destruct H. exists c. apply Forall_forall. intros y Hy.
      change (y ∈ map (PyDeviceObj c) (d :: dl)) in Hy.
      apply list_elem_of_In, in_map_iff in Hy as (d' & <- & _). by exists d'.
    + destruct H as (c2 & -> & E).
      change (map (PyDeviceObj c) (d :: dl) = map (PyDeviceObj c2) devices) in E.
      apply map_PyDeviceObj_inj in E as [<- Ec2].
      destruct (Ec2 N).
      rewrite MakeDeviceList_owned by (by apply (Ho (d :: dl))).
      by eexists.
  - rewrite (AsTuple_external _ _ _ _ Ea Eda) in Ta. simpl in Ta. simplify_eq.
    unfold PyDeviceList_init.
    destruct (wf_external _ _ _ _ (W _ _ Ea) _ Eda) as [->|[c E]].
    + by eexists.
    + destruct t as [|x t]; [done|]. cbn [length Nat.eqb].
      rewrite E. by eexists.
Qed.

(** C5, as the code has it: when [Dump] returns the sequence [t] of a live
    instance, and the instance is not an empty native list, the tuple
    constructor applied to [t] succeeds and the new instance is equal to the
    original.  (The devices of a native list belong to its client, the
    devices of a tuple are hashable.) *)
Theorem Dump_roundtrip rt (h : heap) a oa t :
  wf rt h →
  h !! a = Some oa →
  Dump a h = (Returns t, h) →
  t ≠ [] ∨ (∃ t', device_list_ oa = External t') →
  (∀ dl, device_list_ oa = Native dl → handles_owned rt t) →
  hashable rt oa →
  ∃ b h1, PyDeviceList_tuple rt t h = (Returns b, h1)
          ∧ (Equal rt a (PyDeviceListObj b) h1).1 = Returns true.
Proof.
  intros W Ea Ta Ht Ho Hh.
  assert (Ta' : (AsTuple a h).1 = Returns t) by (unfold Dump in Ta; by rewrite Ta).
  destruct (PyDeviceList_init_of_AsTuple rt h a oa t W Ea Ta' Ht Ho)
    as (ob & Ei & Ed).
  exists (length h), (h ++ [ob]).
  assert (R : PyDeviceList_tuple rt t h = (Returns (length h), h ++ [ob])).
  { unfold PyDeviceList_tuple. rewrite bind_run. unfold lift. by rewrite Ei. }
  split; [exact R|].
  assert (W1 : wf rt (h ++ [ob])).
  { pose proof (PyDeviceList_tuple_preserves rt t h W) as [W1 _].
    by rewrite R in W1. }
  assert (Ea1 : (h ++ [ob]) !! a = Some oa).
  { rewrite lookup_app_l; [done | by eapply lookup_lt_Some]. }
  assert (Eb1 : (h ++ [ob]) !! length h = Some ob).
  { by rewrite lookup_app_r, Nat.sub_diag. }
  destruct (Equal_same_representation rt _ _ _ _ _ W1 Ea1 Eb1 (eq_sym Ed) Hh)
    as (v & _ & _ & E).
  exact E.
Qed.

Lemma Dump_roundtrip_witness :
  let h := [mkPyDeviceList (Some Sample.c0) (Native [DevicePtr 0; DevicePtr 3]);
            mkPyDeviceList None (External [PyOther 4; Sample.d 1])] in
  wf Sample.rt h
  ∧ Dump 0 h = (Returns [Sample.d 0; Sample.d 3], h)
  ∧ (∃ b h1, PyDeviceList_tuple Sample.rt [Sample.d 0; Sample.d 3] h
             = (Returns b, h1)
             ∧ (Equal Sample.rt 0 (PyDeviceListObj b) h1).1 = Returns true)
  ∧ (∃ b h1, PyDeviceList_tuple Sample.rt [PyOther 4; Sample.d 1] h
             = (Returns b, h1)
             ∧ (Equal Sample.rt 1 (PyDeviceListObj b) h1).1 = Returns true).
Proof.
  intros h.
  assert (W : wf Sample.rt h).
  { pose proof (wf_nil Sample.rt) as W0.
    apply (PyDeviceList_native_preserves Sample.rt (Some Sample.c0)
             [DevicePtr 0; DevicePtr 3]) in W0 as [W1 _].
    apply (PyDeviceList_tuple_preserves Sample.rt [PyOther 4; Sample.d 1])
      in W1 as [W2 _].
    exact W2. }
  split; [exact W|]. split; [reflexivity|]. split.
  - apply (Dump_roundtrip Sample.rt h 0%nat _ [Sample.d 0; Sample.d 3]
             W eq_refl eq_refl).
    + by left.
    + intros dl _. solve_owned.
    + by intros t.
  - apply (Dump_roundtrip Sample.rt h 1%nat _ [PyOther 4; Sample.d 1]
             W eq_refl eq_refl).
    + by left.
    + by intros dl.
    + intros t [= <-]. by eexists.
Defined.

(** C5 as stated fails on an empty native list: its sequence is empty, the
    tuple constructor keeps the empty tuple, and the two are hashed by
    different functions, so [Equal] answers false. *)
Lemma Dump_roundtrip_counterexample :
  let h := [mkPyDeviceList (Some Sample.c0) (Native [])] in
  wf Sample.rt h
  ∧ Dump 0 h = (Returns [], h)
  ∧ PyDeviceList_tuple Sample.rt [] h
    = (Returns 1%nat, h ++ [mkPyDeviceList None (External [])])
  ∧ (Equal Sample.rt 0 (PyDeviceListObj 1)
       (h ++ [mkPyDeviceList None (External [])])).1 = Returns false.
Proof.
  intros h.
  assert (W : wf Sample.rt h).
  { pose proof (wf_nil Sample.rt) as W0.
    apply (PyDeviceList_native_preserves Sample.rt (Some Sample.c0) [])
      in W0 as [W1 _].
    exact W1. }
  split; [exact W|]. split; [reflexivity|]. split; [reflexivity|].
  vm_compute; reflexivity.
Qed.

(** ** Addressability of an empty list *)

(** C2, on the code: on an empty list, native or tuple, whose addressability
    is not memoized yet, [ProcessIndices] returns the empty set, and
    [IsFullyAddressable] does not return true: with zero process indices it
    reaches [CHECK_EQ(process_indices_->size(), 1)], which fails. *)
Theorem IsFullyAddressable_empty_list rt self (h : heap) o :
  h !! self = Some o →
  device_list_ o = Native [] ∨ device_list_ o = External [] →
  process_indices_ o = None →
  is_fully_addressable_ o = None →
  let h1 := <[self := set_process_indices (Some []) o]> h in
  ProcessIndices rt self h = (Returns [], h1)
  ∧ IsFullyAddressable rt self h
    = (Throws (CheckFailure "process_indices_->size() == 1"), h1)
  ∧ IsFullyAddressable rt self h1
    = (Throws (CheckFailure "process_indices_->size() == 1"), h1).
Proof.
  intros E Hd Ep Ef h1. subst h1.
  set (h1 := <[self := set_process_indices (Some []) o]> h).
  assert (P : ProcessIndices rt self h = (Returns [], h1)).
  { unfold ProcessIndices. rewrite bind_run, (deref_run _ _ _ E), Ep.
    destruct Hd as [Hd|Hd]; rewrite Hd; simpl;
      by rewrite bind_run, (modify_run _ _ _ _ E). }
  assert (E1 : h1 !! self = Some (set_process_indices (Some []) o))
    by apply (lookup_insert_self h self o _ E).
  split; [exact P|]. split.
  - unfold IsFullyAddressable.
    rewrite bind_run, (deref_run _ _ _ E), Ef, bind_run, P.
    by rewrite bind_run, (deref_run _ _ _ E1).
  - unfold IsFullyAddressable.
    assert (P1 : ProcessIndices rt self h1 = (Returns [], h1)).
    { unfold ProcessIndices. by rewrite bind_run, (deref_run _ _ _ E1). }
    rewrite bind_run, (deref_run _ _ _ E1).
    change (is_fully_addressable_ (set_process_indices (Some []) o))
      with (is_fully_addressable_ o).
    rewrite Ef, bind_run, P1. by rewrite bind_run, (deref_run _ _ _ E1).
Qed.

Lemma IsFullyAddressable_empty_list_witness :
  PyDeviceList_tuple Sample.rt [] []
    = (Returns 0%nat, [mkPyDeviceList None (External [])])
  ∧ ProcessIndices Sample.rt 0 [mkPyDeviceList None (External [])]
    = (Returns [], [set_process_indices (Some [])
                      (mkPyDeviceList None (External []))])
  ∧ IsFullyAddressable Sample.rt 0 [mkPyDeviceList None (External [])]
    = (Throws (CheckFailure "process_indices_->size() == 1"),
       [set_process_indices (Some []) (mkPyDeviceList None (External []))]).
Proof.
  split; [reflexivity|].
  destruct (IsFullyAddressable_empty_list Sample.rt 0%nat
              [mkPyDeviceList None (External [])] _
              eq_refl (or_intror eq_refl) eq_refl eq_refl) as (P & F & _).
  split; [exact P | exact F].
Defined.

(** On an empty list without memoized addressability the check of
    [IsFullyAddressable] fails, whether the process indices are computed
    already or not. *)
Lemma IsFullyAddressable_check_fails rt self (h : heap) o :
  h !! self = Some o →
  device_list_ o = Native [] ∨ device_list_ o = External [] →
  process_indices_ o = None ∨ process_indices_ o = Some [] →
  is_fully_addressable_ o = None →
  IsFullyAddressable rt self h
  = (Throws (CheckFailure "process_indices_->size() == 1"),
     <[self := set_process_indices (Some []) o]> h).
Proof.
  intros E Hd Hp Ef.
  set (h1 := <[self := set_process_indices (Some []) o]> h).
  assert (E1 : h1 !! self = Some (set_process_indices (Some []) o))
    by apply (lookup_insert_self h self o _ E).
  assert (P : ProcessIndices rt self h = (Returns [], h1)).
  { unfold ProcessIndices. rewrite bind_run, (deref_run _ _ _ E).
    destruct Hp as [Ep|Ep]; rewrite Ep.
    - destruct Hd as [Hd|Hd]; rewrite Hd; simpl;
        by rewrite bind_run, (modify_run _ _ _ _ E).
    - unfold h1. rewrite (set_process_indices_id o [] Ep).
      by rewrite list_insert_id. }
  unfold IsFullyAddressable.
  rewrite bind_run, (deref_run _ _ _ E), Ef, bind_run, P.
  by rewrite bind_run, (deref_run _ _ _ E1).
Qed.

(** C4, on the code: on an empty list, native or tuple, whose addressability
    is not memoized yet, [AddressableDeviceList] returns no list.  Its call
    of [IsFullyAddressable] reaches [CHECK_EQ(process_indices_->size(), 1)]
    with zero process indices, which fails; so does the call after it, and
    nothing is stored in [addressable_device_list_].  The claim has both
    calls return the list itself. *)
Theorem AddressableDeviceList_empty_list rt self (h : heap) o :
  h !! self = Some o →
  device_list_ o = Native [] ∨ device_list_ o = External [] →
  process_indices_ o = None →
  is_fully_addressable_ o = None →
  let o1 := set_process_indices (Some []) o in
  let h1 := <[self := o1]> h in
  AddressableDeviceList rt self h
  = (Throws (CheckFailure "process_indices_->size() == 1"), h1)
  ∧ AddressableDeviceList rt self h1
    = (Throws (CheckFailure "process_indices_->size() == 1"), h1)
  ∧ addressable_device_list_ o1 = addressable_device_list_ o.
Proof.
  intros E Hd Ep Ef o1 h1.
  assert (E1 : h1 !! self = Some o1) by apply (lookup_insert_self h self o _ E).
  assert (F : IsFullyAddressable rt self h
              = (Throws (CheckFailure "process_indices_->size() == 1"), h1)).
  { apply IsFullyAddressable_check_fails; auto. }
  assert (F1 : IsFullyAddressable rt self h1
               = (Throws (CheckFailure "process_indices_->size() == 1"), h1)).
  { rewrite (IsFullyAddressable_check_fails rt self h1 o1 E1);
      [|done|by right|done].
    unfold h1. by rewrite list_insert_insert_eq. }
  unfold AddressableDeviceList. by rewrite !bind_run, F, F1.
Qed.

Lemma AddressableDeviceList_empty_list_witness :
  let o := mkPyDeviceList None (External []) in
  let o1 := set_process_indices (Some []) o in
  PyDeviceList_tuple Sample.rt [] [] = (Returns 0%nat, [o])
  ∧ AddressableDeviceList Sample.rt 0 [o]
    = (Throws (CheckFailure "process_indices_->size() == 1"), [o1])
  ∧ AddressableDeviceList Sample.rt 0 [o1]
    = (Throws (CheckFailure "process_indices_->size() == 1"), [o1]).
Proof.
  intros o o1. split; [reflexivity|].
  destruct (AddressableDeviceList_empty_list Sample.rt 0%nat [o] o
              eq_refl (or_intror eq_refl) eq_refl eq_refl) as (A1 & A2 & _).
  split; [exact A1 | exact A2].
Defined.

(** C3, on the code: a native list of two devices on process 1, owned by a
    client on process 0, is not fully addressable; its addressable sublist
    is a new, empty native list, and [IsFullyAddressable] on that sublist
    fails the same [CHECK_EQ] instead of returning true.  And a tuple of
    devices of two clients on different processes, each device local to its
    own client, has an addressable sublist that is not fully addressable. *)
Theorem AddressableDeviceList_sublist_not_fully_addressable :
  let h := [mkPyDeviceList (Some Sample.c0) (Native [DevicePtr 2; DevicePtr 3])] in
  let t := [Sample.d 0; PyOther 1; PyDeviceObj Sample.c1 (DevicePtr 102)] in
  (∃ h1 h2,
     (IsFullyAddressable Sample.rt 0 h).1 = Returns false
     ∧ AddressableDeviceList Sample.rt 0 h = (Returns 1%nat, h1)
     ∧ device_list_ <$> h1 !! 1%nat = Some (Native [])
     ∧ IsFullyAddressable Sample.rt 1 h1
       = (Throws (CheckFailure "process_indices_->size() == 1"), h2))
  ∧ (∃ h0 h1 h2,
     PyDeviceList_tuple Sample.rt t [] = (Returns 0%nat, h0)
     ∧ (IsFullyAddressable Sample.rt 0 h0).1 = Returns false
     ∧ AddressableDeviceList Sample.rt 0 h0 = (Returns 1%nat, h1)
     ∧ device_list_ <$> h1 !! 1%nat
       = Some (External [Sample.d 0; PyDeviceObj Sample.c1 (DevicePtr 102)])
     ∧ IsFullyAddressable Sample.rt 1 h1 = (Returns false, h2)).
Proof.
  intros h t. split.
  - eexists _, _. repeat split; vm_compute; reflexivity.
  - eexists _, _, _. repeat split; vm_compute; reflexivity.
Qed.

(** ** What the code guarantees around the two defects *)

(** An empty native list and an empty tuple are equal exactly when the two
    hash functions happen to agree on them. *)
Lemma Equal_empty_across_representations rt (h : heap) a b oa ob v :
  wf rt h → h !! a = Some oa → h !! b = Some ob →
  device_list_ oa = Native [] → device_list_ ob = External [] →
  nb_hash rt [] = Returns v →
  (Equal rt a (PyDeviceListObj b) h).1
  = Returns (absl_HashOf rt [] =? v).
Proof.
  intros W Ea Eb Eda Edb Hv.
  assert (N : a ≠ b) by (intros ->; congruence).
  pose proof (Hash_run rt a h oa (absl_HashOf rt []) W Ea
                ltac:(by rewrite Eda)) as Ha.
  set (oa' := set_hash (Some (absl_HashOf rt [])) oa) in *.
  set (h1 := <[a:=oa']> h) in *.
  assert (W1 : wf rt h1).
  { pose proof (Hash_preserves rt a h W) as [W1 _]. by rewrite Ha in W1. }
  assert (Eb1 : h1 !! b = Some ob)
    by (by unfold h1; rewrite list_lookup_insert_ne).
  pose proof (Hash_run rt b h1 ob v W1 Eb1 ltac:(by rewrite Edb)) as Hb.
  set (ob' := set_hash (Some v) ob) in *. set (h2 := <[b:=ob']> h1) in *.
  assert (Ea2 : h2 !! a = Some oa').
  { unfold h2. rewrite list_lookup_insert_ne by done.
    by apply (lookup_insert_self h a oa). }
  assert (Eb2 : h2 !! b = Some ob') by (by apply (lookup_insert_self h1 b ob)).
  unfold Equal. rewrite decide_False by done.
  rewrite bind_run, Ha, bind_run, Hb.
  destruct (absl_HashOf rt [] =? v); cbn [negb]; cbv beta iota; [|done].
  rewrite bind_run, (deref_run _ _ _ Ea2), bind_run, (deref_run _ _ _ Eb2).
  change (device_list_ oa') with (device_list_ oa).
  change (device_list_ ob') with (device_list_ ob).
  rewrite Eda, Edb.
  unfold AsTuple. rewrite bind_run, bind_run, (deref_run _ _ _ Ea2).
  change (device_list_ oa') with (device_list_ oa). rewrite Eda.
  rewrite ret_run, bind_run, bind_run, (deref_run _ _ _ Eb2).
  change (device_list_ ob') with (device_list_ ob). by rewrite Edb.
Qed.

Lemma set_insert_same p : set_insert p [p] = [p].
Proof. simpl. by rewrite Z.ltb_irrefl, Z.eqb_refl. Qed.

Lemma set_insert_nonempty x s : set_insert x s ≠ [].
Proof.
  destruct s as [|y s]; simpl; [done|].
  destruct (x <? y); [done|]. by destruct (x =? y).
Qed.

Lemma fold_set_insert_nonempty rt dl s :
  s ≠ [] → fold_left (λ acc d, set_insert (ProcessIndex rt d) acc) dl s ≠ [].
Proof.
  revert s. induction dl as [|d dl IH]; intros s Hs; simpl; [done|].
  apply IH, set_insert_nonempty.
Qed.

(** The process indices of devices that all sit on process [p]. *)
Lemma fold_set_insert_single rt dl p :
  Forall (λ d, ProcessIndex rt d = p) dl → dl ≠ [] →
  fold_left (λ acc d, set_insert (ProcessIndex rt d) acc) dl [] = [p].
Proof.
  intros F N.
  assert (G : ∀ l, Forall (λ d, ProcessIndex rt d = p) l →
                fold_left (λ acc d, set_insert (ProcessIndex rt d) acc) l [p]
                = [p]).
  { induction l as [|x l IH]; intros Fl; [done|].
    apply Forall_cons in Fl as [Ex Fl]. cbn [fold_left].
    rewrite Ex, set_insert_same. by apply IH. }
  destruct dl as [|d dl]; [done|].
  apply Forall_cons in F as [Ed F]. cbn [fold_left]. rewrite Ed.
  by apply G.
Qed.

(** [IsFullyAddressable] returns on every non-empty native list. *)
Lemma IsFullyAddressable_native_returns rt self (h : heap) o d dl :
  wf rt h → h !! self = Some o → device_list_ o = Native (d :: dl) →
  ∃ b h0, IsFullyAddressable rt self h = (Returns b, h0).
Proof.
  intros W E Ed.
  destruct (is_fully_addressable_ o) as [b|] eqn:Eb.
  { exists b, h. by eapply IsFullyAddressable_cached. }
  set (s := fold_left (λ acc x, set_insert (ProcessIndex rt x) acc) (d :: dl) []).
  assert (Hs : s ≠ []).
  { unfold s. cbn [fold_left].
    apply fold_set_insert_nonempty, set_insert_nonempty. }
  set (o1 := set_process_indices (Some s) o).
  assert (P : ProcessIndices rt self h = (Returns s, <[self := o1]> h)).
  { unfold ProcessIndices. rewrite bind_run, (deref_run _ _ _ E).
    destruct (process_indices_ o) as [s'|] eqn:Es.
    - pose proof (wf_process_indices _ _ _ _ (W _ _ E) _ _ Es Ed) as ->.
      unfold o1. fold s. by rewrite set_process_indices_id, list_insert_id.
    - rewrite Ed. by rewrite bind_run, (modify_run _ _ _ _ E). }
  assert (E1 : <[self := o1]> h !! self = Some o1)
    by apply (lookup_insert_self h self o _ E).
  unfold IsFullyAddressable.
  rewrite bind_run, (deref_run _ _ _ E), Eb, bind_run, P.
  rewrite bind_run, (deref_run _ _ _ E1).
  change (process_indices_ o1) with (Some s).
  change (device_list_ o1) with (device_list_ o).
  change (py_client_ o1) with (py_client_ o). rewrite Ed.
  cbv beta iota.
  destruct s as [|first [|second s']]; [done|..].
  - cbn [length Nat.ltb Nat.leb Nat.eqb negb]. cbv beta iota.
    rewrite bind_ret_run, bind_run, (modify_run _ _ _ _ E1). by eexists _, _.
  - cbn [length Nat.ltb Nat.leb]. cbv beta iota.
    rewrite bind_run, (modify_run _ _ _ _ E1). by eexists _, _.
Qed.

(** [AddressableDeviceList] returns on every non-empty native list that
    has its owning client and holds devices of that client. *)
Lemma AddressableDeviceList_native_returns rt self (h : heap) o c d dl :
  wf rt h → h !! self = Some o →
  device_list_ o = Native (d :: dl) → py_client_ o = Some c →
  Forall (λ x, DeviceClient rt x = c) (d :: dl) →
  ∃ r h1, AddressableDeviceList rt self h = (Returns r, h1).
Proof.
  intros W E Ed Ec Fo.
  destruct (IsFullyAddressable_native_returns rt self h o d dl W E Ed)
    as (b & h0 & EF).
  destruct (IsFullyAddressable_returns _ _ _ _ _ _ E EF) as (s & Eh0).
  unfold AddressableDeviceList. rewrite bind_run, EF. cbv beta iota.
  destruct b; [by eexists _, _|].
  set (o0 := set_is_fully_addressable (Some false) (set_process_indices s o)) in *.
  assert (E0 : h0 !! self = Some o0)
    by (rewrite Eh0; apply (lookup_insert_self h self o _ E)).
  rewrite bind_run, (deref_run _ _ _ E0).
  change (addressable_device_list_ o0) with (addressable_device_list_ o).
  change (device_list_ o0) with (device_list_ o).
  change (py_client_ o0) with (py_client_ o). rewrite Ed, Ec.
  destruct (addressable_device_list_ o) as [l|]; [by eexists _, _|].
  rewrite bind_run, bind_run. unfold lift.
  set (ds := filter _ (d :: dl)).
  assert (Hm : MakeDeviceList rt c ds = OkValue ds).
  { unfold MakeDeviceList. replace (forallb _ ds) with true; [done|].
    symmetry. apply forallb_forall. intros x Hx. apply bool_decide_eq_true.
    apply list_elem_of_In in Hx. unfold ds in Hx.
    apply list_elem_of_filter in Hx as [_ Hx].
    by apply (proj1 (Forall_forall _ _) Fo). }
  rewrite Hm. cbn [ValueOrThrow]. cbv beta iota.
  unfold PyDeviceList_native, alloc. cbv beta iota.
  assert (E2 : (h0 ++ [mkPyDeviceList (Some c) (Native ds)]) !! self = Some o0).
  { rewrite lookup_app_l; [done | by eapply lookup_lt_Some]. }
  rewrite bind_run, (modify_run _ _ _ _ E2). by eexists _, _.
Qed.

(** The addressable sublist of a native list that is not fully
    addressable: a new native list of the devices on the client's process.
    It is fully addressable when it holds a device, and on the empty one
    [IsFullyAddressable] fails its [CHECK_EQ]. *)
Lemma AddressableDeviceList_native_sublist rt self (h h0 : heap) o c dl :
  wf rt h → h !! self = Some o →
  device_list_ o = Native dl → py_client_ o = Some c →
  addressable_device_list_ o = None →
  Forall (λ x, DeviceClient rt x = c) dl →
  IsFullyAddressable rt self h = (Returns false, h0) →
  let ds := filter (λ d, ProcessIndex rt d = process_index rt c) dl in
  let r := length h0 in
  ∃ h1,
    AddressableDeviceList rt self h = (Returns r, h1)
    ∧ h1 !! r = Some (mkPyDeviceList (Some c) (Native ds))
    ∧ (ds ≠ [] → (IsFullyAddressable rt r h1).1 = Returns true)
    ∧ (ds = [] → (IsFullyAddressable rt r h1).1
                 = Throws (CheckFailure "process_indices_->size() == 1")).
Proof.
  intros W E Ed Ec Ea Fo EF ds r.
  destruct (IsFullyAddressable_returns _ _ _ _ _ _ E EF) as (s & Eh0).
  set (o0 := set_is_fully_addressable (Some false) (set_process_indices s o)) in *.
  assert (E0 : h0 !! self = Some o0)
    by (rewrite Eh0; apply (lookup_insert_self h self o _ E)).
  assert (Hm : MakeDeviceList rt c ds = OkValue ds).
  { unfold MakeDeviceList. replace (forallb _ ds) with true; [done|].
    symmetry. apply forallb_forall. intros x Hx. apply bool_decide_eq_true.
    apply list_elem_of_In in Hx. unfold ds in Hx.
    apply list_elem_of_filter in Hx as [_ Hx].
    by apply (proj1 (Forall_forall _ _) Fo). }
  set (new := mkPyDeviceList (Some c) (Native ds)).
  assert (E2 : (h0 ++ [new]) !! self = Some o0).
  { rewrite lookup_app_l; [done | by eapply lookup_lt_Some]. }
  set (h1 := <[self := set_addressable_device_list (Some r) o0]> (h0 ++ [new])).
  assert (Hself : (self < r)%nat) by (by eapply lookup_lt_Some).
  assert (E1 : h1 !! r = Some new).
  { unfold h1. rewrite list_lookup_insert_ne by lia.
    by rewrite lookup_app_r, Nat.sub_diag. }
  exists h1. split; [|split; [exact E1|split]].
  - unfold AddressableDeviceList. rewrite bind_run, EF. cbv beta iota.
    rewrite bind_run, (deref_run _ _ _ E0).
    change (addressable_device_list_ o0) with (addressable_device_list_ o).
    change (device_list_ o0) with (device_list_ o).
    change (py_client_ o0) with (py_client_ o). rewrite Ea, Ed, Ec.
    rewrite bind_run, bind_run. unfold lift. fold ds. rewrite Hm.
    cbn [ValueOrThrow]. cbv beta iota.
    unfold PyDeviceList_native, alloc. cbv beta iota.
    by rewrite bind_run, (modify_run _ _ _ _ E2).
  - intros Hds.
    assert (Hs : fold_left (λ acc d, set_insert (ProcessIndex rt d) acc) ds []
                 = [process_index rt c]).
    { apply fold_set_insert_single; [|done].
      apply Forall_forall. intros x Hx. unfold ds in Hx.
      by apply list_elem_of_filter in Hx as [Hx _]. }
    set (n1 := set_process_indices (Some [process_index rt c]) new).
    assert (P : ProcessIndices rt r h1
                = (Returns [process_index rt c], <[r := n1]> h1)).
    { unfold ProcessIndices. rewrite bind_run, (deref_run _ _ _ E1).
      cbn [process_indices_ device_list_ new mkPyDeviceList]. rewrite Hs.
      by rewrite bind_run, (modify_run _ _ _ _ E1). }
    assert (E3 : <[r := n1]> h1 !! r = Some n1)
      by apply (lookup_insert_self h1 r new _ E1).
    unfold IsFullyAddressable. rewrite bind_run, (deref_run _ _ _ E1).
    cbn [is_fully_addressable_ new mkPyDeviceList].
    rewrite bind_run, P, bind_run, (deref_run _ _ _ E3).
    cbn [process_indices_ device_list_ py_client_ n1 new mkPyDeviceList
         set_process_indices length Nat.ltb Nat.leb Nat.eqb negb].
    cbv beta iota.
    rewrite bind_ret_run, bind_run, (modify_run _ _ _ _ E3).
    by rewrite Z.eqb_refl.
  - intros Hds.
    set (n1 := set_process_indices (Some []) new).
    assert (P : ProcessIndices rt r h1 = (Returns [], <[r := n1]> h1)).
    { unfold ProcessIndices. rewrite bind_run, (deref_run _ _ _ E1).
      cbn [process_indices_ device_list_ new mkPyDeviceList]. rewrite Hds.
      by rewrite bind_run, (modify_run _ _ _ _ E1). }
    assert (E3 : <[r := n1]> h1 !! r = Some n1)
      by apply (lookup_insert_self h1 r new _ E1).
    unfold IsFullyAddressable. rewrite bind_run, (deref_run _ _ _ E1).
    cbn [is_fully_addressable_ new mkPyDeviceList].
    by rewrite bind_run, P, bind_run, (deref_run _ _ _ E3).
Qed.

(** ** Further properties: hashing and equality *)

(** When [Hash] returns, the value is memoized in [hash_] of [self] and
    nothing else is written. *)
Lemma Hash_returns rt self (h h1 : heap) v :
  Hash rt self h = (Returns v, h1) →
  ∃ o, h !! self = Some o ∧ h1 = <[self := set_hash (Some v) o]> h.
Proof.
  unfold Hash. rewrite bind_run. unfold deref.
  destruct (h !! self) as [o|] eqn:E; [|done].
  destruct (hash_ o) as [v'|] eqn:Eh.
  - intros [= -> ->]. exists o. split; [done|].
    by rewrite set_hash_id, list_insert_id.
  - rewrite bind_run.
    destruct (device_list_ o) as [dl|t].
    + rewrite ret_run, bind_run, (modify_run _ _ _ _ E). intros [= <- <-]. eauto.
    + unfold lift. destruct (nb_hash rt t) as [v'|e]; [|done].
      rewrite bind_run, (modify_run _ _ _ _ E). intros [= <- <-]. eauto.
Qed.

(** A memoized hash is returned as it is. *)
Lemma Hash_cached rt self (h : heap) o v :
  h !! self = Some o → hash_ o = Some v → Hash rt self h = (Returns v, h).
Proof.
  intros E Eh. unfold Hash. by rewrite bind_run, (deref_run _ _ _ E), Eh.
Qed.

(** X1: the hash is computed once.  When [Hash] has returned [v], it
    returns [v] on every later store and leaves that store as it is,
    whatever the hash functions of the runtime answer by then. *)
Theorem Hash_memoized rt rt' self (h h1 h2 : heap) v :
  Hash rt self h = (Returns v, h1) →
  heap_le h1 h2 →
  Hash rt' self h2 = (Returns v, h2).
Proof.
  intros R L. destruct (Hash_returns _ _ _ _ _ R) as (o & E & ->).
  destruct (L self _ (lookup_insert_self h self o _ E)) as (o2 & E2 & S2).
  apply (Hash_cached rt' self h2 o2 v E2).
  by apply (memo_hash _ _ S2).
Qed.

Lemma Hash_memoized_witness :
  let h := [mkPyDeviceList None (External [PyOther 4; PyOther 5])] in
  ∃ v h1, Hash Sample.rt 0 h = (Returns v, h1)
          ∧ Hash Sample.rt 0 h1 = (Returns v, h1).
Proof.
  intros h.
  pose (v := match (Hash Sample.rt 0 h).1 with Returns v => v | _ => 0 end).
  exists v, (Hash Sample.rt 0 h).2.
  assert (R : Hash Sample.rt 0 h = (Returns v, (Hash Sample.rt 0 h).2))
    by (vm_compute; reflexivity).
  split; [exact R|].
  exact (Hash_memoized Sample.rt Sample.rt 0%nat h _ _ v R (heap_le_refl _)).
Defined.

(** [Equal] on two distinct instances, after the two hashes. *)
Lemma Equal_after_hashes rt a b (h ha hb : heap) x1 x2 :
  a ≠ b →
  Hash rt a h = (Returns x1, ha) →
  Hash rt b ha = (Returns x2, hb) →
  (Equal rt a (PyDeviceListObj b) h).2 = hb
  ∧ (x1 ≠ x2 → (Equal rt a (PyDeviceListObj b) h).1 = Returns false)
  ∧ ∃ oa ob, hb !! a = Some oa ∧ hb !! b = Some ob
             ∧ hash_ oa = Some x1 ∧ hash_ ob = Some x2
             ∧ (x1 = x2 →
                (Equal rt a (PyDeviceListObj b) h).1 =
                match device_list_ oa, device_list_ ob with
                | Native da, Native db => Returns (bool_decide (da = db))
                | _, _ =>
                    match (AsTuple a hb).1, (AsTuple b hb).1 with
                    | Returns t1, Returns t2 => tuple_equal rt t1 t2
                    | Throws e, _ => Throws e
                    | _, Throws e => Throws e
                    end
                end).
Proof.
  intros N Ha Hb.
  destruct (Hash_returns _ _ _ _ _ Ha) as (oa & Ea & ->).
  assert (Eb0 : ∃ ob, <[a:=set_hash (Some x1) oa]> h !! b = Some ob).
  { destruct (Hash_returns _ _ _ _ _ Hb) as (ob & Eb & _). eauto. }
  destruct Eb0 as (ob & Eb).
  destruct (Hash_returns _ _ _ _ _ Hb) as (ob' & Eb' & ->). simplify_eq.
  set (oa' := set_hash (Some x1) oa) in *.
  set (ob' := set_hash (Some x2) ob) in *.
  set (ha := <[a:=oa']> h) in *. set (hb := <[b:=ob']> ha) in *.
  assert (Ea2 : hb !! a = Some oa').
  { unfold hb. rewrite list_lookup_insert_ne by done.
    by apply (lookup_insert_self h a oa). }
  assert (Eb2 : hb !! b = Some ob') by (by apply (lookup_insert_self ha b ob)).
  unfold Equal. rewrite decide_False by done.
  rewrite bind_run, Ha, bind_run, Hb.
  destruct (Z.eqb_spec x1 x2) as [->|Nx]; cbn [negb]; cbv beta iota.
  - rewrite bind_run, (deref_run _ _ _ Ea2), bind_run, (deref_run _ _ _ Eb2).
    pose proof (AsTuple_pure a hb) as Pa. pose proof (AsTuple_pure b hb) as Pb.
    assert (T : (match device_list_ oa', device_list_ ob' with
                 | Native da, Native db => mret (bool_decide (da = db))
                 | _, _ => AsTuple a ≫= λ t1, AsTuple b ≫= λ t2,
                           lift (tuple_equal rt t1 t2)
                 end) hb
                = (match device_list_ oa', device_list_ ob' with
                   | Native da, Native db => Returns (bool_decide (da = db))
                   | _, _ =>
                       match (AsTuple a hb).1, (AsTuple b hb).1 with
                       | Returns t1, Returns t2 => tuple_equal rt t1 t2
                       | Throws e, _ => Throws e
                       | _, Throws e => Throws e
                       end
                   end, hb)).
    { assert (G : (AsTuple a ≫= λ t1, AsTuple b ≫= λ t2,
                   lift (tuple_equal rt t1 t2)) hb
                  = (match (AsTuple a hb).1, (AsTuple b hb).1 with
                     | Returns t1, Returns t2 => tuple_equal rt t1 t2
                     | Throws e, _ => Throws e
                     | _, Throws e => Throws e
                     end, hb)).
      { rewrite bind_run. destruct (AsTuple a hb) as [[t1|e1] h'];
          simpl in Pa; subst h'; [|done].
        rewrite bind_run. destruct (AsTuple b hb) as [[t2|e2] h'];
          simpl in Pb; subst h'; done. }
      destruct (device_list_ oa'), (device_list_ ob'); try exact G. done. }
    rewrite T. split; [done|]. split; [done|].
    exists oa', ob'. by repeat split.
  - split; [done|]. split; [done|].
    exists oa', ob'. by repeat split.
Qed.

(** X2: equal lists have equal hashes.  When [Equal] answers true, the
    hashes that [Hash] returns for the two instances afterwards are the
    same. *)
Theorem Equal_true_same_hash rt a b (h h1 h2 h3 : heap) v1 v2 :
  Equal rt a (PyDeviceListObj b) h = (Returns true, h1) →
  Hash rt a h1 = (Returns v1, h2) →
  Hash rt b h1 = (Returns v2, h3) →
  v1 = v2.
Proof.
  intros EQ Ha Hb.
  destruct (decide (a = b)) as [->|N]; [congruence|].
  destruct (Hash rt a h) as [[x1|e1] ha] eqn:Ha0.
  2: { unfold Equal in EQ. rewrite decide_False in EQ by done.
       by rewrite bind_run, Ha0 in EQ. }
  destruct (Hash rt b ha) as [[x2|e2] hb] eqn:Hb0.
  2: { unfold Equal in EQ. rewrite decide_False in EQ by done.
       by rewrite bind_run, Ha0, bind_run, Hb0 in EQ. }
  destruct (Equal_after_hashes rt a b h ha hb x1 x2 N Ha0 Hb0)
    as (E2 & Ne & oa & ob & Ea & Eb & Ca & Cb & _).
  rewrite EQ in E2, Ne. simpl in E2, Ne. subst h1.
  rewrite (Hash_cached rt a hb oa x1 Ea Ca) in Ha.
  rewrite (Hash_cached rt b hb ob x2 Eb Cb) in Hb.
  destruct (decide (x1 = x2)) as [->|Nx]; [congruence|].
  by specialize (Ne Nx).
Qed.

Lemma Equal_true_same_hash_witness :
  let h := [mkPyDeviceList (Some Sample.c0) (Native [DevicePtr 0; DevicePtr 1]);
            mkPyDeviceList (Some Sample.c1) (Native [DevicePtr 0; DevicePtr 1])] in
  ∃ h1 v1 v2 h2 h3,
    Equal Sample.rt 0 (PyDeviceListObj 1) h = (Returns true, h1)
    ∧ Hash Sample.rt 0 h1 = (Returns v1, h2)
    ∧ Hash Sample.rt 1 h1 = (Returns v2, h3)
    ∧ v1 = v2.
Proof.
  intros h.
  pose (h1 := (Equal Sample.rt 0 (PyDeviceListObj 1) h).2).
  pose (v1 := match (Hash Sample.rt 0 h1).1 with Returns v => v | _ => 0 end).
  pose (v2 := match (Hash Sample.rt 1 h1).1 with Returns v => v | _ => 1 end).
  exists h1, v1, v2, (Hash Sample.rt 0 h1).2, (Hash Sample.rt 1 h1).2.
  assert (EQ : Equal Sample.rt 0 (PyDeviceListObj 1) h = (Returns true, h1))
    by (vm_compute; reflexivity).
  assert (Ha : Hash Sample.rt 0 h1 = (Returns v1, (Hash Sample.rt 0 h1).2))
    by (vm_compute; reflexivity).
  assert (Hb : Hash Sample.rt 1 h1 = (Returns v2, (Hash Sample.rt 1 h1).2))
    by (vm_compute; reflexivity).
  split; [exact EQ|]. split; [exact Ha|]. split; [exact Hb|].
  exact (Equal_true_same_hash Sample.rt 0%nat 1%nat h h1 _ _ v1 v2 EQ Ha Hb).
Defined.

(** X3: on two native lists [Equal] decides the equality of the two
    device sequences, in order; the owning clients are not compared and
    the comparison of the hashes never changes the answer. *)
Theorem Equal_native rt (h : heap) a b oa ob da db :
  wf rt h →
  h !! a = Some oa → h !! b = Some ob →
  device_list_ oa = Native da → device_list_ ob = Native db →
  (Equal rt a (PyDeviceListObj b) h).1 = Returns (bool_decide (da = db)).
Proof.
  intros W Ea Eb Eda Edb.
  destruct (decide (a = b)) as [->|N].
  { simplify_eq. assert (da = db) as -> by congruence.
    unfold Equal. by rewrite decide_True, bool_decide_eq_true_2. }
  pose proof (Hash_run rt a h oa (absl_HashOf rt da) W Ea
                ltac:(by rewrite Eda)) as Ha.
  assert (W1 : wf rt (<[a:=set_hash (Some (absl_HashOf rt da)) oa]> h)).
  { pose proof (Hash_preserves rt a h W) as [W1 _]. by rewrite Ha in W1. }
  assert (Eb1 : <[a:=set_hash (Some (absl_HashOf rt da)) oa]> h !! b = Some ob)
    by (by rewrite list_lookup_insert_ne).
  pose proof (Hash_run rt b _ ob (absl_HashOf rt db) W1 Eb1
                ltac:(by rewrite Edb)) as Hb.
  destruct (Equal_after_hashes rt a b h _ _ _ _ N Ha Hb)
    as (_ & Ne & oa' & ob' & Ea' & Eb' & _ & _ & Eq).
  assert (Da : device_list_ oa' = Native da).
  { rewrite list_lookup_insert_ne in Ea' by done.
    rewrite (lookup_insert_self h a oa _ Ea) in Ea'. by simplify_eq. }
  assert (Db : device_list_ ob' = Native db).
  { rewrite (lookup_insert_self _ b ob _ Eb1) in Eb'. by simplify_eq. }
  destruct (decide (absl_HashOf rt da = absl_HashOf rt db)) as [Ex|Nx].
  - rewrite (Eq Ex), Da, Db. done.
  - rewrite (Ne Nx). rewrite bool_decide_eq_false_2; [done|]. congruence.
Qed.

Lemma Equal_native_witness :
  let h := [mkPyDeviceList (Some Sample.c0) (Native [DevicePtr 0; DevicePtr 1]);
            mkPyDeviceList (Some Sample.c1) (Native [DevicePtr 0; DevicePtr 1]);
            mkPyDeviceList (Some Sample.c0) (Native [DevicePtr 1; DevicePtr 0])] in
  wf Sample.rt h
  ∧ (Equal Sample.rt 0 (PyDeviceListObj 1) h).1 = Returns true
  ∧ (Equal Sample.rt 0 (PyDeviceListObj 2) h).1 = Returns false.
Proof.
  intros h.
  assert (W : wf Sample.rt h).
  { pose proof (wf_nil Sample.rt) as W0.
    apply (PyDeviceList_native_preserves Sample.rt (Some Sample.c0)
             [DevicePtr 0; DevicePtr 1]) in W0 as [W1 _].
    apply (PyDeviceList_native_preserves Sample.rt (Some Sample.c1)
             [DevicePtr 0; DevicePtr 1]) in W1 as [W2 _].
    apply (PyDeviceList_native_preserves Sample.rt (Some Sample.c0)
             [DevicePtr 1; DevicePtr 0]) in W2 as [W3 _].
    exact W3. }
  split; [exact W|]. split.
  - exact (Equal_native Sample.rt h 0%nat 1%nat _ _ _ _ W
             eq_refl eq_refl eq_refl eq_refl).
  - exact (Equal_native Sample.rt h 0%nat 2%nat _ _ _ _ W
             eq_refl eq_refl eq_refl eq_refl).
Defined.

(** ** Further properties: process indices and addressability *)

Lemma strictly_sorted_cons x s :
  strictly_sorted (x :: s) ↔ (∀ y, y ∈ s → x < y) ∧ strictly_sorted s.
Proof.
  revert x. induction s as [|z s IH]; intros x.
  { simpl. split; [|done]. intros _. split; [|done]. intros y Hy.
    by apply not_elem_of_nil in Hy. }
  change (strictly_sorted (x :: z :: s))
    with (x < z ∧ strictly_sorted (z :: s)).
  split.
  - intros [Hxz Hs]. split; [|done]. intros y Hy.
    apply elem_of_cons in Hy as [->|Hy]; [done|].
    apply IH in Hs as [Hz _]. specialize (Hz y Hy). lia.
  - intros [Hx Hs]. split; [|done]. apply Hx. apply elem_of_cons. by left.
Qed.

Lemma set_insert_elem x y s : x ∈ set_insert y s ↔ x = y ∨ x ∈ s.
Proof.
  induction s as [|z s IH]; simpl.
  { rewrite elem_of_cons. done. }
  destruct (Z.ltb_spec y z).
  { by rewrite elem_of_cons. }
  destruct (Z.eqb_spec y z) as [->|N].
  { rewrite elem_of_cons. tauto. }
  rewrite !elem_of_cons, IH. tauto.
Qed.

Lemma set_insert_sorted y s :
  strictly_sorted s → strictly_sorted (set_insert y s).
Proof.
  induction s as [|z s IH]; intros Hs; [done|]. simpl.
  destruct (Z.ltb_spec y z) as [L|L].
  { apply strictly_sorted_cons. split; [|done]. intros w Hw.
    apply elem_of_cons in Hw as [->|Hw]; [done|].
    apply strictly_sorted_cons in Hs as [Hz _]. specialize (Hz w Hw). lia. }
  destruct (Z.eqb_spec y z) as [->|N]; [done|].
  apply strictly_sorted_cons in Hs as [Hz Hs].
  apply strictly_sorted_cons. split; [|by apply IH].
  intros w Hw. apply set_insert_elem in Hw as [->|Hw]; [lia | by apply Hz].
Qed.

(** The set the loop of [ProcessIndices] builds over native devices. *)
Lemma fold_set_insert_spec rt dl s0 :
  strictly_sorted s0 →
  let s := fold_left (λ acc d, set_insert (ProcessIndex rt d) acc) dl s0 in
  strictly_sorted s
  ∧ ∀ x, x ∈ s ↔ x ∈ s0 ∨ ∃ d, d ∈ dl ∧ ProcessIndex rt d = x.
Proof.
  revert s0. induction dl as [|d dl IH]; intros s0 Hs0; simpl.
  { split; [done|]. intros x. split; [by left|].
    intros [?|(d & Hd & _)]; [done|]. by apply not_elem_of_nil in Hd. }
  destruct (IH (set_insert (ProcessIndex rt d) s0)
              (set_insert_sorted _ _ Hs0)) as [S1 M1].
  split; [exact S1|]. intros x. rewrite M1, set_insert_elem. split.
  - intros [[->|?]|(d' & Hd' & E)]; [right | by left | right].
    + exists d. split; [apply elem_of_cons; by left | done].
    + exists d'. split; [apply elem_of_cons; by right | done].
  - intros [?|(d' & Hd' & E)]; [left; by right|].
    apply elem_of_cons in Hd' as [->|Hd']; [left; by left|].
    right. by exists d'.
Qed.

(** What [ProcessIndices] returns on a native list. *)
Lemma ProcessIndices_native_run rt self (h : heap) o dl :
  wf rt h → h !! self = Some o → device_list_ o = Native dl →
  let s := fold_left (λ acc d, set_insert (ProcessIndex rt d) acc) dl [] in
  ProcessIndices rt self h
  = (Returns s, <[self := set_process_indices (Some s) o]> h).
Proof.
  intros W E Ed s. unfold ProcessIndices.
  rewrite bind_run, (deref_run _ _ _ E).
  destruct (process_indices_ o) as [s'|] eqn:Es.
  - pose proof (wf_process_indices _ _ _ _ (W _ _ E) _ _ Es Ed) as ->.
    fold s. by rewrite set_process_indices_id, list_insert_id.
  - rewrite Ed. by rewrite bind_run, (modify_run _ _ _ _ E).
Qed.

(** X4: on a native list [ProcessIndices] returns the set of the process
    indices of its devices: a strictly increasing sequence (no duplicates)
    that holds an index exactly when a device of the list is on that
    process. *)
Theorem ProcessIndices_native rt self (h : heap) o dl :
  wf rt h → h !! self = Some o → device_list_ o = Native dl →
  ∃ s h1, ProcessIndices rt self h = (Returns s, h1)
          ∧ strictly_sorted s
          ∧ ∀ x, x ∈ s ↔ ∃ d, d ∈ dl ∧ ProcessIndex rt d = x.
Proof.
  intros W E Ed. eexists _, _.
  split; [by apply (ProcessIndices_native_run rt self h o dl)|].
  destruct (fold_set_insert_spec rt dl [] I) as [S1 M1].
  split; [exact S1|]. intros x. rewrite M1. split.
  - intros [Hx|?]; [by apply not_elem_of_nil in Hx | done].
  - intros ?. by right.
Qed.

Lemma ProcessIndices_native_witness :
  let h := [mkPyDeviceList (Some Sample.c0)
              (Native [DevicePtr 5; DevicePtr 0; DevicePtr 4; DevicePtr 1])] in
  wf Sample.rt h
  ∧ (ProcessIndices Sample.rt 0 h).1 = Returns [0; 2]
  ∧ ∃ s h1, ProcessIndices Sample.rt 0 h = (Returns s, h1) ∧ strictly_sorted s.
Proof.
  intros h.
  assert (W : wf Sample.rt h).
  { pose proof (wf_nil Sample.rt) as W0.
    apply (PyDeviceList_native_preserves Sample.rt (Some Sample.c0)
             [DevicePtr 5; DevicePtr 0; DevicePtr 4; DevicePtr 1])
      in W0 as [W1 _].
    exact W1. }
  split; [exact W|]. split; [vm_compute; reflexivity|].
  destruct (ProcessIndices_native Sample.rt 0%nat h _ _ W eq_refl eq_refl)
    as (s & h1 & R & S1 & _).
  by exists s, h1.
Defined.

Lemma collect_process_indices_throw rt pre bad post acc s e :
  collect_process_indices rt pre acc = (s, None) →
  attr_process_index rt bad = Throws e →
  collect_process_indices rt (pre ++ bad :: post) acc = (s, Some e).
Proof.
  revert acc. induction pre as [|x pre IH]; intros acc; simpl.
  - intros [= <-] ->. done.
  - destruct (attr_process_index rt x) as [i|e']; [|done].
    intros C B. by apply IH.
Qed.

(** X5: a failure inside the loop of [ProcessIndices] over a tuple leaves
    the part of the set built so far in the cache.  When reading
    [process_index] raises on a device, the first call throws that
    exception, and every call after it returns, without raising, the
    process indices of the devices before the failing one. *)
Theorem ProcessIndices_partial_after_throw rt rt' self (h : heap) o
    pre bad post s e :
  h !! self = Some o →
  device_list_ o = External (pre ++ bad :: post) →
  process_indices_ o = None →
  collect_process_indices rt pre [] = (s, None) →
  attr_process_index rt bad = Throws e →
  let h1 := <[self := set_process_indices (Some s) o]> h in
  ProcessIndices rt self h = (Throws e, h1)
  ∧ ProcessIndices rt' self h1 = (Returns s, h1).
Proof.
  intros E Ed Ep C B h1. subst h1. split.
  - unfold ProcessIndices. rewrite bind_run, (deref_run _ _ _ E), Ep, Ed.
    rewrite (collect_process_indices_throw _ _ _ _ _ _ _ C B).
    by rewrite bind_run, (modify_run _ _ _ _ E).
  - unfold ProcessIndices.
    by rewrite bind_run, (deref_run _ _ _ (lookup_insert_self h self o _ E)).
Qed.

Lemma ProcessIndices_partial_after_throw_witness :
  let o := mkPyDeviceList None
             (External [PyOther 3; PyOther 4; PyOther 99; PyOther 6]) in
  ProcessIndices Sample.rt 0 [o]
  = (Throws (python_error "AttributeError: process_index"),
     [set_process_indices (Some [0; 1]) o])
  ∧ ProcessIndices Sample.rt 0 [set_process_indices (Some [0; 1]) o]
    = (Returns [0; 1], [set_process_indices (Some [0; 1]) o]).
Proof.
  intros o.
  exact (ProcessIndices_partial_after_throw Sample.rt Sample.rt 0%nat [o] o
           [PyOther 3; PyOther 4] (PyOther 99) [PyOther 6] [0; 1]
           (python_error "AttributeError: process_index")
           eq_refl eq_refl eq_refl eq_refl eq_refl).
Defined.

(** What [IsFullyAddressable] computes on a native list whose
    addressability is not memoized yet, from the set of process indices. *)
Lemma IsFullyAddressable_native_run rt self (h : heap) o dl :
  wf rt h → h !! self = Some o → device_list_ o = Native dl →
  is_fully_addressable_ o = None →
  (IsFullyAddressable rt self h).1 =
  match fold_left (λ acc d, set_insert (ProcessIndex rt d) acc) dl [] with
  | [] => Throws (CheckFailure "process_indices_->size() == 1")
  | [first] => Returns (first =? local_process_index rt o)
  | _ :: _ :: _ => Returns false
  end.
Proof.
  intros W E Ed Eb.
  pose proof (ProcessIndices_native_run rt self h o dl W E Ed) as P.
  simpl in P.
  set (s := fold_left _ dl []) in *.
  set (o1 := set_process_indices (Some s) o) in *.
  assert (E1 : <[self := o1]> h !! self = Some o1)
    by apply (lookup_insert_self h self o _ E).
  unfold IsFullyAddressable.
  rewrite bind_run, (deref_run _ _ _ E), Eb, bind_run, P.
  rewrite bind_run, (deref_run _ _ _ E1).
  change (process_indices_ o1) with (Some s).
  change (device_list_ o1) with (device_list_ o).
  change (py_client_ o1) with (py_client_ o). rewrite Ed.
  cbv beta iota.
  destruct s as [|first [|second s']]; [done|..].
  - cbn [length Nat.ltb Nat.leb Nat.eqb negb]. cbv beta iota.
    by rewrite bind_ret_run, bind_run, (modify_run _ _ _ _ E1).
  - cbn [length Nat.ltb Nat.leb]. cbv beta iota.
    by rewrite bind_run, (modify_run _ _ _ _ E1).
Qed.

(** X6: a non-empty native list is fully addressable exactly when every
    device of it is on the process of the owning client (process 0 when the
    list has no client). *)
Theorem IsFullyAddressable_native rt self (h : heap) o d dl :
  wf rt h → h !! self = Some o → device_list_ o = Native (d :: dl) →
  is_fully_addressable_ o = None →
  (IsFullyAddressable rt self h).1
  = Returns (bool_decide
               (Forall (λ x, ProcessIndex rt x = local_process_index rt o)
                       (d :: dl))).
Proof.
  intros W E Ed Eb.
  rewrite (IsFullyAddressable_native_run rt self h o _ W E Ed Eb).
  destruct (fold_set_insert_spec rt (d :: dl) [] I) as [S1 M1].
  set (p := local_process_index rt o) in *.
  set (s := fold_left _ (d :: dl) []) in *.
  assert (In_s : ∀ x, x ∈ d :: dl → ProcessIndex rt x ∈ s).
  { intros x Hx. apply M1. right. by exists x. }
  assert (Of_s : ∀ i, i ∈ s → ∃ x, x ∈ d :: dl ∧ ProcessIndex rt x = i).
  { intros i Hi. apply M1 in Hi as [Hi|?]; [|done].
    by apply not_elem_of_nil in Hi. }
  assert (Hd : d ∈ d :: dl) by (apply elem_of_cons; by left).
  destruct s as [|first [|second s']].
  - specialize (In_s d Hd). by apply not_elem_of_nil in In_s.
  - f_equal. symmetry. destruct (Z.eqb_spec first p) as [->|N].
    + apply bool_decide_eq_true_2, Forall_forall. intros x Hx.
      specialize (In_s x Hx). apply list_elem_of_singleton in In_s. done.
    + apply bool_decide_eq_false_2. intros F.
      specialize (In_s d Hd). apply list_elem_of_singleton in In_s.
      rewrite Forall_forall in F. specialize (F d Hd). congruence.
  - f_equal. symmetry. apply bool_decide_eq_false_2. intros F.
    rewrite Forall_forall in F.
    destruct (Of_s first) as (x1 & H1 & P1); [apply elem_of_cons; by left|].
    destruct (Of_s second) as (x2 & H2 & P2);
      [apply elem_of_cons; right; apply elem_of_cons; by left|].
    destruct S1 as [Lt _]. rewrite <- P1, <- P2 in Lt.
    rewrite (F x1 H1), (F x2 H2) in Lt. lia.
Qed.

Lemma IsFullyAddressable_native_witness :
  let h := [mkPyDeviceList (Some Sample.c0) (Native [DevicePtr 0; DevicePtr 1]);
            mkPyDeviceList (Some Sample.c0) (Native [DevicePtr 0; DevicePtr 2]);
            mkPyDeviceList (Some Sample.c1) (Native [DevicePtr 0; DevicePtr 1])] in
  wf Sample.rt h
  ∧ (IsFullyAddressable Sample.rt 0 h).1 = Returns true
  ∧ (IsFullyAddressable Sample.rt 1 h).1 = Returns false
  ∧ (IsFullyAddressable Sample.rt 2 h).1 = Returns false.
Proof.
  intros h.
  assert (W : wf Sample.rt h).
  { pose proof (wf_nil Sample.rt) as W0.
    apply (PyDeviceList_native_preserves Sample.rt (Some Sample.c0)
             [DevicePtr 0; DevicePtr 1]) in W0 as [W1 _].
    apply (PyDeviceList_native_preserves Sample.rt (Some Sample.c0)
             [DevicePtr 0; DevicePtr 2]) in W1 as [W2 _].
    apply (PyDeviceList_native_preserves Sample.rt (Some Sample.c1)
             [DevicePtr 0; DevicePtr 1]) in W2 as [W3 _].
    exact W3. }
  split; [exact W|].
  pose proof (IsFullyAddressable_native Sample.rt 0%nat h _ _ _ W
                eq_refl eq_refl eq_refl) as R0.
  pose proof (IsFullyAddressable_native Sample.rt 1%nat h _ _ _ W
                eq_refl eq_refl eq_refl) as R1.
  pose proof (IsFullyAddressable_native Sample.rt 2%nat h _ _ _ W
                eq_refl eq_refl eq_refl) as R2.
  split; [exact R0|]. split; [exact R1 | exact R2].
Defined.

(** When [ProcessIndices] returns, what it returns is memoized. *)
Lemma ProcessIndices_returns rt self (h h1 : heap) s :
  ProcessIndices rt self h = (Returns s, h1) →
  ∃ o, h !! self = Some o
       ∧ h1 = <[self := set_process_indices (Some s) o]> h.
Proof.
  intros R.
  assert (∃ o, h !! self = Some o) as [o E].
  { unfold ProcessIndices in R. rewrite bind_run in R. unfold deref in R.
    destruct (h !! self) as [o|]; [eauto | done]. }
  destruct (ProcessIndices_run rt self h o E) as (s' & H2 & H1).
  rewrite R in H2, H1. simpl in *. rewrite <- (H1 s eq_refl) in H2. eauto.
Qed.

(** X7: the process indices and the addressability of a list are computed
    once.  What [ProcessIndices] or [IsFullyAddressable] has returned, it
    returns on every later store, leaving that store as it is, whatever the
    devices and clients report by then. *)
Theorem addressability_memoized rt rt' self (h h1 h2 : heap) :
  heap_le h1 h2 →
  (∀ s, ProcessIndices rt self h = (Returns s, h1) →
        ProcessIndices rt' self h2 = (Returns s, h2))
  ∧ (∀ b, IsFullyAddressable rt self h = (Returns b, h1) →
          IsFullyAddressable rt' self h2 = (Returns b, h2)).
Proof.
  intros L. split.
  - intros s R. destruct (ProcessIndices_returns _ _ _ _ _ R) as (o & E & ->).
    destruct (L self _ (lookup_insert_self h self o _ E)) as (o2 & E2 & S2).
    pose proof (memo_process_indices _ _ S2 s eq_refl) as C.
    unfold ProcessIndices. by rewrite bind_run, (deref_run _ _ _ E2), C.
  - intros b R. destruct (IsFullyAddressable_live _ _ _ _ _ R) as [o E].
    destruct (IsFullyAddressable_returns _ _ _ _ _ _ E R) as (s & ->).
    destruct (L self _ (lookup_insert_self h self o _ E)) as (o2 & E2 & S2).
    apply (IsFullyAddressable_cached rt' self h2 o2 b E2).
    by apply (memo_is_fully_addressable _ _ S2).
Qed.

Lemma addressability_memoized_witness :
  let h := [mkPyDeviceList (Some Sample.c0) (Native [DevicePtr 0; DevicePtr 2])] in
  ∃ h1, IsFullyAddressable Sample.rt 0 h = (Returns false, h1)
        ∧ IsFullyAddressable Sample.rt 0 h1 = (Returns false, h1)
        ∧ ProcessIndices Sample.rt 0 h1 = (Returns [0; 1], h1).
Proof.
  intros h. exists (IsFullyAddressable Sample.rt 0 h).2.
  set (h1 := (IsFullyAddressable Sample.rt 0 h).2).
  assert (R : IsFullyAddressable Sample.rt 0 h = (Returns false, h1))
    by reflexivity.
  assert (P : ProcessIndices Sample.rt 0 h1 = (Returns [0; 1], h1))
    by reflexivity.
  destruct (addressability_memoized Sample.rt Sample.rt 0%nat h h1 h1
              (heap_le_refl _)) as [_ B].
  destruct (addressability_memoized Sample.rt Sample.rt 0%nat h1 h1 h1
              (heap_le_refl _)) as [A _].
  split; [exact R|]. split; [exact (B false R) | exact (A _ P)].
Defined.

(** X8: the addressable sublist of a list is one instance for good.  When
    [AddressableDeviceList] has returned the instance [r], it returns that
    same instance on every later store, and leaves that store as it is. *)
Theorem AddressableDeviceList_memoized rt rt' self (h h1 h2 : heap) r :
  AddressableDeviceList rt self h = (Returns r, h1) →
  heap_le h1 h2 →
  AddressableDeviceList rt' self h2 = (Returns r, h2).
Proof.
  intros EA L.
  destruct (IsFullyAddressable rt self h) as [[b|e] h0] eqn:EF.
  2: { unfold AddressableDeviceList in EA. by rewrite bind_run, EF in EA. }
  destruct (AddressableDeviceList_cases _ _ _ _ _ _ _ EF EA)
    as (o0 & E0 & Eb &
        [(-> & -> & ->)|[(-> & El & ->)|(-> & El & h' & _ & E' & ->)]]).
  - destruct (L self _ E0) as (o2 & E2 & S2).
    pose proof (memo_is_fully_addressable _ _ S2 _ Eb) as C.
    unfold AddressableDeviceList.
    by rewrite bind_run, (IsFullyAddressable_cached _ _ _ _ _ E2 C).
  - destruct (L self _ E0) as (o2 & E2 & S2).
    pose proof (memo_is_fully_addressable _ _ S2 _ Eb) as C.
    pose proof (memo_addressable_device_list _ _ S2 _ El) as Cl.
    unfold AddressableDeviceList.
    rewrite bind_run, (IsFullyAddressable_cached _ _ _ _ _ E2 C).
    cbv beta iota. by rewrite bind_run, (deref_run _ _ _ E2), Cl.
  - destruct (L self _ (lookup_insert_self h' self o0 _ E'))
      as (o2 & E2 & S2).
    pose proof (memo_is_fully_addressable _ _ S2 false Eb) as C.
    pose proof (memo_addressable_device_list _ _ S2 r eq_refl) as Cl.
    unfold AddressableDeviceList.
    rewrite bind_run, (IsFullyAddressable_cached _ _ _ _ _ E2 C).
    cbv beta iota. by rewrite bind_run, (deref_run _ _ _ E2), Cl.
Qed.

Lemma AddressableDeviceList_memoized_witness :
  let h := [mkPyDeviceList (Some Sample.c0)
              (Native [DevicePtr 2; DevicePtr 0; DevicePtr 1])] in
  ∃ h1 h2, AddressableDeviceList Sample.rt 0 h = (Returns 1%nat, h1)
           ∧ Hash Sample.rt 1 h1 = (Returns (Sample.device_list_hash
                                               [DevicePtr 0; DevicePtr 1]), h2)
           ∧ AddressableDeviceList Sample.rt 0 h2 = (Returns 1%nat, h2).
Proof.
  intros h.
  set (h1 := (AddressableDeviceList Sample.rt 0 h).2).
  set (h2 := (Hash Sample.rt 1 h1).2).
  exists h1, h2.
  assert (R : AddressableDeviceList Sample.rt 0 h = (Returns 1%nat, h1))
    by reflexivity.
  assert (H : Hash Sample.rt 1 h1
              = (Returns (Sample.device_list_hash [DevicePtr 0; DevicePtr 1]), h2))
    by reflexivity.
  assert (W1 : wf Sample.rt h1).
  { pose proof (wf_nil Sample.rt) as W0.
    apply (PyDeviceList_native_preserves Sample.rt (Some Sample.c0)
             [DevicePtr 2; DevicePtr 0; DevicePtr 1]) in W0 as [W _].
    exact (proj1 (AddressableDeviceList_preserves Sample.rt 0%nat _ W)). }
  assert (L : heap_le h1 h2)
    by exact (proj2 (Hash_preserves Sample.rt 1%nat h1 W1)).
  split; [exact R|]. split; [exact H|].
  exact (AddressableDeviceList_memoized Sample.rt Sample.rt 0%nat h h1 h2 1%nat
           R L).
Defined.

(** ** Further properties: construction and the tuple view *)

(** The tuple view of the object the tuple constructor makes of [t] is [t]
    itself, whichever representation the object took. *)
Lemma PyDeviceList_init_AsTuple rt t :
  handles_owned rt t →
  ∃ o, PyDeviceList_init rt t = Returns o
       ∧ ∀ (h : heap) l, h !! l = Some o → AsTuple l h = (Returns t, h).
Proof.
  intros Ho. destruct t as [|x t].
  { eexists. split; [reflexivity|]. intros h l E.
    by apply (AsTuple_external h l _ [] E). }
  unfold PyDeviceList_init. cbn [length Nat.eqb].
  pose proof (convert_devices_None x t) as H.
  destruct (convert_devices (x :: t) None []) as [c'|c' devices].
  - eexists. split; [reflexivity|]. intros h l E.
    by apply (AsTuple_external h l _ (x :: t) E).
  - destruct H as (c & -> & Et).
    rewrite MakeDeviceList_owned by (by rewrite <- Et). simpl.
    eexists. split; [reflexivity|]. intros h l E.
    unfold AsTuple. rewrite bind_run, (deref_run _ _ _ E). simpl.
    destruct devices as [|d devices]; [done|]. by rewrite Et.
Qed.

(** X9: construction and serialization in the other order.  For every
    tuple [t] of device objects (native handles wrapping devices of their own
    client), [DeviceList(t)] succeeds, [Dump] of the new instance returns
    [t] itself, and its [Len] is the length of [t]: the upgrade to the native
    representation is invisible in the tuple view. *)
Theorem PyDeviceList_tuple_Dump rt t (h : heap) :
  handles_owned rt t →
  Z.of_nat (length t) < 2 ^ 31 →
  ∃ l h1, PyDeviceList_tuple rt t h = (Returns l, h1)
          ∧ Dump l h1 = (Returns t, h1)
          ∧ Len l h1 = (Returns (Z.of_nat (length t)), h1).
Proof.
  intros Ho Hn.
  destruct (PyDeviceList_init_AsTuple rt t Ho) as (o & Ei & T).
  exists (length h), (h ++ [o]).
  assert (E : (h ++ [o]) !! length h = Some o)
    by (by rewrite lookup_app_r, Nat.sub_diag).
  split; [|split].
  - unfold PyDeviceList_tuple. rewrite bind_run. unfold lift. by rewrite Ei.
  - by apply T.
  - pose proof (T _ _ E) as TA. unfold AsTuple in TA.
    rewrite bind_run, (deref_run _ _ _ E) in TA.
    unfold Len. rewrite bind_run, (deref_run _ _ _ E).
    destruct (device_list_ o) as [dl|t'].
    + assert (Hlen : length t = length dl).
      { destruct dl as [|d dl], (py_client_ o) as [c|];
          unfold mret, M_ret, throw in TA; try done;
          injection TA as <-; cbn [length]; by rewrite ?length_map. }
      rewrite ret_run, <- Hlen. by rewrite wrap_int_id by lia.
    + unfold mret, M_ret in TA. injection TA as ->.
      by rewrite wrap_int_id by lia.
Qed.

Lemma PyDeviceList_tuple_Dump_witness :
  (∃ l h1, PyDeviceList_tuple Sample.rt [Sample.d 0; Sample.d 3] []
           = (Returns l, h1)
           ∧ Dump l h1 = (Returns [Sample.d 0; Sample.d 3], h1)
           ∧ Len l h1 = (Returns 2, h1))
  ∧ (∃ l h1, PyDeviceList_tuple Sample.rt [Sample.d 0; PyOther 3] []
             = (Returns l, h1)
             ∧ Dump l h1 = (Returns [Sample.d 0; PyOther 3], h1)
             ∧ Len l h1 = (Returns 2, h1)).
Proof.
  split.
  - apply (PyDeviceList_tuple_Dump Sample.rt [Sample.d 0; Sample.d 3] []).
    + solve_owned.
    + reflexivity.
  - apply (PyDeviceList_tuple_Dump Sample.rt [Sample.d 0; PyOther 3] []).
    + solve_owned.
    + reflexivity.
Defined.

(** What the filter loop of [AddressableDeviceList] keeps of a tuple. *)
Lemma filter_addressable_elem rt t ds :
  filter_addressable rt t = Returns ds →
  ∀ x, x ∈ ds ↔
       x ∈ t ∧ ∃ i, attr_process_index rt x = Returns i
                    ∧ attr_client_process_index rt x = Returns i.
Proof.
  revert ds. induction t as [|y t IH]; intros ds; simpl.
  { intros [= <-] x. split.
    - intros Hx. by apply not_elem_of_nil in Hx.
    - intros [Hx _]. by apply not_elem_of_nil in Hx. }
  destruct (attr_process_index rt y) as [i|] eqn:Ei; [|done].
  destruct (attr_client_process_index rt y) as [j|] eqn:Ej; [|done].
  destruct (filter_addressable rt t) as [ds'|]; [|done].
  intros [= <-] x. specialize (IH ds' eq_refl x).
  destruct (Z.eqb_spec i j) as [->|N].
  - rewrite !elem_of_cons, IH. split.
    + intros [->|[? ?]]; [|by split; [right|]].
      split; [by left|]. by exists j.
    + intros [[->|?] Hx]; [by left | right; by split].
  - rewrite elem_of_cons, IH. split.
    + intros [? ?]. by split; [right|].
    + intros [[->|?] Hx]; [|by split].
      destruct Hx as (k & Hk1 & Hk2). congruence.
Qed.

Lemma filter_addressable_sublist rt t ds :
  filter_addressable rt t = Returns ds → sublist ds t.
Proof.
  revert ds. induction t as [|y t IH]; intros ds; simpl.
  { intros [= <-]. constructor. }
  destruct (attr_process_index rt y) as [i|]; [|done].
  destruct (attr_client_process_index rt y) as [j|]; [|done].
  destruct (filter_addressable rt t) as [ds'|]; [|done].
  intros [= <-]. destruct (i =? j).
  - apply sublist_skip. by apply IH.
  - apply sublist_cons. by apply IH.
Qed.

(** X10: the addressable sublist of a native list that is not fully
    addressable holds, in order, exactly the devices of the list that are on
    the process of the owning client; when there is one, the sublist is
    fully addressable. *)
Theorem AddressableDeviceList_native_content rt self (h h0 : heap) o c dl :
  wf rt h → h !! self = Some o →
  device_list_ o = Native dl → py_client_ o = Some c →
  addressable_device_list_ o = None →
  Forall (λ x, DeviceClient rt x = c) dl →
  IsFullyAddressable rt self h = (Returns false, h0) →
  let ds := filter (λ d, ProcessIndex rt d = process_index rt c) dl in
  ∃ r h1,
    AddressableDeviceList rt self h = (Returns r, h1)
    ∧ AsTuple r h1 = (Returns (map (GetPyDevice c) ds), h1)
    ∧ (ds ≠ [] → (IsFullyAddressable rt r h1).1 = Returns true).
Proof.
  intros W E Ed Ec Ea Fo EF ds.
  destruct (AddressableDeviceList_native_sublist rt self h h0 o c dl
              W E Ed Ec Ea Fo EF) as (h1 & R & E1 & T & _).
  exists (length h0), h1. split; [exact R|]. split; [|exact T].
  unfold AsTuple. rewrite bind_run, (deref_run _ _ _ E1). simpl.
  fold ds. by destruct ds.
Qed.

Lemma AddressableDeviceList_native_content_witness :
  let h := [mkPyDeviceList (Some Sample.c0)
              (Native [DevicePtr 2; DevicePtr 0; DevicePtr 5; DevicePtr 1])] in
  ∃ r h1,
    AddressableDeviceList Sample.rt 0 h = (Returns r, h1)
    ∧ AsTuple r h1 = (Returns [Sample.d 0; Sample.d 1], h1)
    ∧ (IsFullyAddressable Sample.rt r h1).1 = Returns true.
Proof.
  intros h.
  assert (W : wf Sample.rt h).
  { pose proof (wf_nil Sample.rt) as W0.
    apply (PyDeviceList_native_preserves Sample.rt (Some Sample.c0)
             [DevicePtr 2; DevicePtr 0; DevicePtr 5; DevicePtr 1])
      in W0 as [W1 _].
    exact W1. }
  destruct (AddressableDeviceList_native_content Sample.rt 0%nat h
              (IsFullyAddressable Sample.rt 0 h).2 _ Sample.c0 _
              W eq_refl eq_refl eq_refl eq_refl)
    as (r & h1 & R & T & F).
  - repeat constructor.
  - reflexivity.
  - exists r, h1. split; [exact R|]. split; [exact T|]. by apply F.
Defined.

(** X11: the addressable sublist of a tuple list that is not fully
    addressable is built by the tuple constructor from the devices whose
    [process_index] equals the [process_index] of their own client: its
    tuple view holds exactly these devices, in the order of the list,
    whichever representation the sublist took. *)
Theorem AddressableDeviceList_tuple_content rt self (h h0 : heap) o t ds :
  h !! self = Some o →
  device_list_ o = External t →
  addressable_device_list_ o = None →
  IsFullyAddressable rt self h = (Returns false, h0) →
  filter_addressable rt t = Returns ds →
  handles_owned rt ds →
  ∃ r h1,
    AddressableDeviceList rt self h = (Returns r, h1)
    ∧ AsTuple r h1 = (Returns ds, h1)
    ∧ sublist ds t
    ∧ ∀ x, x ∈ ds ↔
           x ∈ t ∧ ∃ i, attr_process_index rt x = Returns i
                        ∧ attr_client_process_index rt x = Returns i.
Proof.
  intros E Ed Ea EF Ef Ho.
  destruct (IsFullyAddressable_returns _ _ _ _ _ _ E EF) as (s & Eh0).
  set (o0 := set_is_fully_addressable (Some false) (set_process_indices s o)) in *.
  assert (E0 : h0 !! self = Some o0)
    by (rewrite Eh0; apply (lookup_insert_self h self o _ E)).
  destruct (PyDeviceList_init_AsTuple rt ds Ho) as (new & Ei & T).
  assert (E2 : (h0 ++ [new]) !! self = Some o0).
  { rewrite lookup_app_l; [done | by eapply lookup_lt_Some]. }
  set (r := length h0).
  set (h1 := <[self := set_addressable_device_list (Some r) o0]> (h0 ++ [new])).
  assert (Hself : (self < r)%nat) by (by eapply lookup_lt_Some).
  assert (E1 : h1 !! r = Some new).
  { unfold h1. rewrite list_lookup_insert_ne by lia.
    by rewrite lookup_app_r, Nat.sub_diag. }
  exists r, h1. split; [|split; [by apply T|split]].
  - unfold AddressableDeviceList. rewrite bind_run, EF. cbv beta iota.
    rewrite bind_run, (deref_run _ _ _ E0).
    change (addressable_device_list_ o0) with (addressable_device_list_ o).
    change (device_list_ o0) with (device_list_ o). rewrite Ea, Ed.
    rewrite bind_run, bind_run. unfold lift. rewrite Ef. cbv beta iota.
    unfold PyDeviceList_tuple. rewrite bind_run. unfold lift. rewrite Ei.
    unfold alloc. cbv beta iota.
    by rewrite bind_run, (modify_run _ _ _ _ E2).
  - by apply (filter_addressable_sublist rt).
  - by apply filter_addressable_elem.
Qed.

Lemma AddressableDeviceList_tuple_content_witness :
  let t := [Sample.d 0; PyOther 1; Sample.d 1; PyOther 3] in
  ∃ h h0 r h1,
    PyDeviceList_tuple Sample.rt t [] = (Returns 0%nat, h)
    ∧ IsFullyAddressable Sample.rt 0 h = (Returns false, h0)
    ∧ AddressableDeviceList Sample.rt 0 h = (Returns r, h1)
    ∧ AsTuple r h1 = (Returns [Sample.d 0; Sample.d 1], h1)
    ∧ device_list_ <$> h1 !! r = Some (Native [DevicePtr 0; DevicePtr 1]).
Proof.
  intros t.
  set (h := (PyDeviceList_tuple Sample.rt t []).2).
  set (h0 := (IsFullyAddressable Sample.rt 0 h).2).
  assert (EF : IsFullyAddressable Sample.rt 0 h = (Returns false, h0))
    by reflexivity.
  destruct (AddressableDeviceList_tuple_content Sample.rt 0%nat h h0 _ t
              [Sample.d 0; Sample.d 1] eq_refl eq_refl eq_refl EF eq_refl)
    as (r & h1 & R & T & _ & _); [solve_owned|].
  exists h, h0, r, h1.
  split; [reflexivity|]. split; [exact EF|]. split; [exact R|].
  split; [exact T|].
  assert (R' : AddressableDeviceList Sample.rt 0 h
               = (Returns 1%nat, (AddressableDeviceList Sample.rt 0 h).2))
    by reflexivity.
  rewrite R' in R. injection R as <- <-. reflexivity.
Defined.

(** ** Further properties: indexing, slicing and iteration *)

Lemma lookup_map {A B} (f : A → B) (l : list A) (k : nat) :
  map f l !! k = f <$> l !! k.
Proof.
  revert k. induction l as [|x l IH]; intros [|k]; simpl; done.
Qed.

Lemma mod_in_range index n :
  - n ≤ index < n →
  index mod n = if index <? 0 then index + n else index.
Proof.
  intros Hr. destruct (Z.ltb_spec index 0).
  - rewrite <- (Z_mod_plus_full index 1 n). rewrite Z.mod_small; lia.
  - rewrite Z.mod_small; lia.
Qed.

(** [GetItem] on a native list with its client. *)
Lemma GetItem_native_run (h : heap) self o c dl index :
  h !! self = Some o → device_list_ o = Native dl → py_client_ o = Some c →
  Z.of_nat (length dl) < 2 ^ 31 → - 2 ^ 31 ≤ index < 2 ^ 31 →
  let n := Z.of_nat (length dl) in
  GetItem self index h =
  if (index <? - n) || (index >=? n) then (Throws index_error, h)
  else match dl !! Z.to_nat (index mod n) with
       | Some d => (Returns (GetPyDevice c d), h)
       | None => (Throws OutOfBounds, h)
       end.
Proof.
  intros E Ed Ec Hn Hi n. subst n.
  unfold GetItem. rewrite bind_run, (deref_run _ _ _ E), Ed, Ec.
  set (n := Z.of_nat (length dl)) in *.
  rewrite (wrap_int_id n), (wrap_int_id (- n)) by lia.
  destruct ((index <? - n) || (index >=? n)) eqn:Eo; [done|].
  apply orb_false_elim in Eo as [E1 E2].
  rewrite mod_in_range by lia.
  destruct (Z.ltb_spec index 0).
  - rewrite (wrap_int_id (index + n)) by lia.
    replace (index + n <? 0) with false by lia.
    by destruct (dl !! Z.to_nat (index + n)).
  - replace (index <? 0) with false by lia.
    by destruct (dl !! Z.to_nat index).
Qed.

(** X12: indexing agrees with the tuple view, for both representations.
    When [AsTuple] returns the tuple [t] of [n] elements, [GetItem] at an
    index within [-n, n) returns the element of [t] at position
    [index mod n], and at any other index it raises an index error (the
    C++ one for a native list, Python's for a tuple). *)
Theorem GetItem_AsTuple (h : heap) self t index :
  AsTuple self h = (Returns t, h) →
  Z.of_nat (length t) < 2 ^ 31 →
  - 2 ^ 31 ≤ index < 2 ^ 31 →
  let n := Z.of_nat (length t) in
  (- n ≤ index < n →
     ∃ x, t !! Z.to_nat (index mod n) = Some x
          ∧ GetItem self index h = (Returns x, h))
  ∧ (index < - n ∨ n ≤ index →
     ∃ e, GetItem self index h = (Throws e, h)
          ∧ (e = index_error ∨ e = python_error "IndexError")).
Proof.
  intros TA Hn Hi n.
  assert (∃ o, h !! self = Some o) as [o E].
  { unfold AsTuple in TA. rewrite bind_run in TA. unfold deref in TA.
    destruct (h !! self) as [o|]; [eauto | done]. }
  destruct (device_list_ o) as [dl|t'] eqn:Ed.
  - destruct (AsTuple_native h self o dl t E Ed ltac:(by rewrite TA))
      as [[-> ->]|(c & Nd & Ec & ->)].
    + split; [simpl in n; lia|]. intros _. exists index_error.
      split; [|by left]. unfold GetItem.
      rewrite bind_run, (deref_run _ _ _ E), Ed.
      change (Z.of_nat (length (@nil Device))) with 0.
      rewrite (wrap_int_id 0) by lia. change (- 0) with 0.
      rewrite (wrap_int_id 0) by lia.
      destruct (Z.ltb_spec index 0); [done|].
      replace (index >=? 0) with true by lia. done.
    + assert (Hl : Z.of_nat (length dl) = n)
        by (unfold n; by rewrite length_map).
      rewrite length_map in Hn.
      pose proof (GetItem_native_run h self o c dl index E Ed Ec Hn Hi) as G.
      simpl in G. rewrite Hl in G. split.
      * intros Hr. rewrite G.
        replace (index <? - n) with false by lia.
        replace (index >=? n) with false by lia. simpl.
        rewrite lookup_map.
        destruct (dl !! Z.to_nat (index mod n)) as [d|] eqn:El.
        { exists (GetPyDevice c d). by split. }
        apply lookup_ge_None in El.
        pose proof (Z.mod_pos_bound index n ltac:(lia)). lia.
      * intros Hr. exists index_error. split; [|by left]. rewrite G.
        destruct Hr; [by replace (index <? - n) with true by lia|].
        replace (index >=? n) with true by lia. by rewrite orb_true_r.
  - rewrite (AsTuple_external h self o t' E Ed) in TA. injection TA as ->.
    unfold GetItem. rewrite bind_run, (deref_run _ _ _ E), Ed. fold n. split.
    + intros Hr. rewrite mod_in_range by lia.
      set (k := if index <? 0 then index + n else index).
      assert (Hk : 0 ≤ k < n) by (unfold k; destruct (Z.ltb_spec index 0); lia).
      replace (k <? 0) with false by lia.
      replace (k >=? n) with false by lia. simpl.
      destruct (t !! Z.to_nat k) as [x|] eqn:El; [by exists x|].
      apply lookup_ge_None in El. lia.
    + intros Hr. exists (python_error "IndexError"). split; [|by right].
      set (k := if index <? 0 then index + n else index).
      assert (Hk : k < 0 ∨ n ≤ k) by (unfold k; destruct (Z.ltb_spec index 0); lia).
      destruct Hk; [by replace (k <? 0) with true by lia|].
      replace (k >=? n) with true by lia. by rewrite orb_true_r.
Qed.

Lemma GetItem_AsTuple_witness :
  let h := [mkPyDeviceList (Some Sample.c0) (Native [DevicePtr 6; DevicePtr 5]);
            mkPyDeviceList None (External [PyOther 1; PyOther 2; PyOther 3])] in
  GetItem 0 (-2) h = (Returns (Sample.d 6), h)
  ∧ GetItem 1 (-1) h = (Returns (PyOther 3), h)
  ∧ ∃ e, GetItem 1 3 h = (Throws e, h).
Proof.
  intros h.
  destruct (GetItem_AsTuple h 0%nat [Sample.d 6; Sample.d 5] (-2) eq_refl)
    as [A _]; [reflexivity | lia |].
  destruct (GetItem_AsTuple h 1%nat [PyOther 1; PyOther 2; PyOther 3] (-1)
              eq_refl) as [B _]; [reflexivity | lia |].
  destruct (GetItem_AsTuple h 1%nat [PyOther 1; PyOther 2; PyOther 3] 3
              eq_refl) as [_ C]; [reflexivity | lia |].
  destruct A as (x & Lx & Gx); [simpl; lia|].
  destruct B as (y & Ly & Gy); [simpl; lia|].
  destruct C as (e & Ge & _); [simpl; lia|].
  vm_compute in Lx, Ly. injection Lx as <-. injection Ly as <-.
  split; [exact Gx|]. split; [exact Gy|]. by exists e.
Defined.

Lemma iterate_python t fuel :
  (length t < fuel)%nat → iterate fuel (python_device_iterator t) = Returns t.
Proof.
  revert fuel. induction t as [|x t IH]; intros [|fuel] Hf; simpl in *;
    try lia; [done|].
  rewrite IH by lia. done.
Qed.

Lemma iterate_ifrt c dl fuel :
  (length dl < fuel)%nat →
  iterate fuel (ifrt_device_iterator (Some c) dl)
  = Returns (map (GetPyDevice c) dl).
Proof.
  revert fuel. induction dl as [|d dl IH]; intros [|fuel] Hf; simpl in *;
    try lia; [done|].
  rewrite IH by lia. done.
Qed.

(** X13: iteration yields the tuple view.  The iterator [Iter] returns,
    run to its end, yields exactly what [AsTuple] returns, in order; on a
    non-empty native list without a client both fail in the same way, at the
    first element. *)
Theorem Iter_iterate (h : heap) self o fuel :
  h !! self = Some o →
  (size o < fuel)%nat →
  ∃ i, Iter self h = (Returns i, h)
       ∧ iterate fuel i = (AsTuple self h).1.
Proof.
  intros E Hf. unfold Iter, AsTuple, size in *.
  rewrite !bind_run, (deref_run _ _ _ E).
  destruct (device_list_ o) as [dl|t].
  - eexists. split; [reflexivity|].
    destruct (py_client_ o) as [c|].
    + rewrite iterate_ifrt by done. by destruct dl.
    + destruct dl as [|d dl], fuel as [|fuel]; simpl in *; try lia; done.
  - eexists. split; [reflexivity|]. by rewrite iterate_python.
Qed.

Lemma Iter_iterate_witness :
  let h := [mkPyDeviceList (Some Sample.c0) (Native [DevicePtr 6; DevicePtr 5])] in
  ∃ i, Iter 0 h = (Returns i, h)
       ∧ iterate 3 i = Returns [Sample.d 6; Sample.d 5].
Proof.
  intros h.
  destruct (Iter_iterate h 0%nat _ 3%nat eq_refl) as (i & I1 & I2).
  - vm_compute. lia.
  - exists i. split; [exact I1 | exact I2].
Defined.

(** The positions [PySlice_AdjustIndices] selects are within the
    sequence. *)
Lemma PySlice_AdjustIndices_bounds len start stop step start' stop' n :
  0 ≤ len → step ≠ 0 →
  PySlice_AdjustIndices len start stop step = (start', stop', n) →
  0 ≤ n ∧ ∀ i, 0 ≤ i < n → 0 ≤ start' + i * step < len.
Proof.
  intros Hl Hs. unfold PySlice_AdjustIndices.
  set (a := if start <? 0 then _ else _).
  set (b := if stop <? 0 then _ else _).
  intros [= <- <- <-].
  assert (Ha : (step < 0 → -1 ≤ a ≤ len - 1) ∧ (0 < step → 0 ≤ a ≤ len)).
  { unfold a. repeat case_match; lia. }
  assert (Hb : (step < 0 → -1 ≤ b ≤ len - 1) ∧ (0 < step → 0 ≤ b ≤ len)).
  { unfold b. repeat case_match; lia. }
  clearbody a b. destruct Ha as [Ha1 Ha2], Hb as [Hb1 Hb2].
  destruct (Z.ltb_spec step 0) as [Sn|Sp].
  - specialize (Ha1 Sn). specialize (Hb1 Sn).
    destruct (Z.ltb_spec b a) as [L|L]; [|split; [lia|intros; lia]].
    rewrite Z.quot_div_nonneg by lia.
    pose proof (Z.div_pos (a - b - 1) (- step) ltac:(lia) ltac:(lia)).
    pose proof (Z.mul_div_le (a - b - 1) (- step) ltac:(lia)).
    split; [lia|]. intros i Hi. nia.
  - assert (0 < step) as Sp' by lia. specialize (Ha2 Sp'). specialize (Hb2 Sp').
    destruct (Z.ltb_spec a b) as [L|L]; [|split; [lia|intros; lia]].
    rewrite Z.quot_div_nonneg by lia.
    pose proof (Z.div_pos (b - a - 1) step ltac:(lia) ltac:(lia)).
    pose proof (Z.mul_div_le (b - a - 1) step ltac:(lia)).
    split; [lia|]. intros i Hi. nia.
Qed.

(** The step [PySlice_Unpack] returns is not zero. *)
Lemma PySlice_Unpack_step s start stop step :
  PySlice_Unpack s = Returns (start, stop, step) → step ≠ 0.
Proof.
  unfold PySlice_Unpack.
  set (st := match slice_step s with None => 1 | Some v => _ end).
  destruct (Z.eqb_spec st 0); [done|]. by intros [= _ _ <-].
Qed.

(** The loop over native devices selects what the loop over the tuple
    view selects. *)
Lemma slice_loop_tuple c dl start step n :
  slice_loop (Some c) dl start step n
  = tuple_slice_loop (map (GetPyDevice c) dl) start step n.
Proof.
  revert start. induction n as [|n IH]; intros start; simpl; [done|].
  rewrite IH, lookup_map.
  destruct (start <? 0); [done|]. by destruct (dl !! Z.to_nat start).
Qed.

(** The loop over positions that are all within the tuple. *)
Lemma tuple_slice_loop_spec t start step n :
  (∀ i, 0 ≤ i < Z.of_nat n → 0 ≤ start + i * step < Z.of_nat (length t)) →
  ∃ out, tuple_slice_loop t start step n = Returns out
         ∧ length out = n
         ∧ ∀ i, (i < n)%nat →
                is_Some (out !! i)
                ∧ out !! i = t !! Z.to_nat (start + Z.of_nat i * step).
Proof.
  revert start. induction n as [|n IH]; intros start Hr.
  { exists []. split; [done|]. split; [done|]. intros i Hi. lia. }
  cbn [tuple_slice_loop].
  pose proof (Hr 0 ltac:(lia)) as H0. rewrite Z.mul_0_l, Z.add_0_r in H0.
  replace (start <? 0) with false by lia.
  destruct (t !! Z.to_nat start) as [x|] eqn:Ex.
  2: { apply lookup_ge_None in Ex. lia. }
  destruct (IH (start + step)) as (out & -> & Hlen & Hout).
  { intros i Hi. specialize (Hr (i + 1) ltac:(lia)). lia. }
  exists (x :: out). split; [done|]. split; [simpl; lia|].
  intros [|i] Hi.
  - simpl. rewrite Z.add_0_r, Ex. split; [eauto | done].
  - destruct (Hout i ltac:(lia)) as [S1 S2]. simpl. split; [done|].
    rewrite S2. f_equal. lia.
Qed.

(** [GetSlice] runs the loop of Python's tuple subscript over the tuple
    view. *)
Lemma GetSlice_run (h : heap) self t s :
  AsTuple self h = (Returns t, h) →
  GetSlice self s h =
  match PySlice_GetIndicesEx s (Z.of_nat (length t)) with
  | Throws e => (Throws e, h)
  | Returns (start, stop, step, slicelength) =>
      (tuple_slice_loop t start step (Z.to_nat slicelength), h)
  end.
Proof.
  intros TA.
  assert (∃ o, h !! self = Some o) as [o E].
  { unfold AsTuple in TA. rewrite bind_run in TA. unfold deref in TA.
    destruct (h !! self) as [o|]; [eauto | done]. }
  unfold GetSlice. rewrite bind_run, (deref_run _ _ _ E).
  destruct (device_list_ o) as [dl|t'] eqn:Ed.
  - destruct (AsTuple_native h self o dl t E Ed ltac:(by rewrite TA))
      as [[-> ->]|(c & Nd & Ec & ->)].
    + change (length (@nil PyObject)) with (length (@nil Device)).
      destruct (PySlice_GetIndicesEx s _) as [[[[start stop] step] n]|e] eqn:Es;
        [|done].
      assert (n ≤ 0) as Hn.
      { unfold PySlice_GetIndicesEx in Es.
        destruct (PySlice_Unpack s) as [[[a b] st]|] eqn:Eu; [|done].
        pose proof (PySlice_Unpack_step _ _ _ _ Eu) as Hst.
        destruct (PySlice_AdjustIndices _ a b st) as [[a' b'] n'] eqn:Ea.
        injection Es as <- <- <- <-.
        destruct (PySlice_AdjustIndices_bounds _ _ _ _ _ _ _ ltac:(done) Hst Ea)
          as [_ Hb].
        destruct (Z.le_gt_cases n' 0) as [|Hp]; [done|].
        specialize (Hb 0 ltac:(lia)). simpl in Hb. lia. }
      unfold lift. by replace (Z.to_nat n) with 0%nat by lia.
    + rewrite length_map, Ec.
      destruct (PySlice_GetIndicesEx s _) as [[[[start stop] step] n]|e];
        [|done].
      unfold lift. by rewrite slice_loop_tuple.
  - rewrite (AsTuple_external h self o t' E Ed) in TA. injection TA as ->.
    by destruct (PySlice_GetIndicesEx s _) as [[[[start stop] step] n]|e].
Qed.

(** X14: [GetSlice] never reads outside the list.  With the tuple view [t]
    of the list, and start, step and slice length as Python resolves the
    slice against the length of [t], [GetSlice] returns the slice-length
    many elements of [t] at the positions [start + i * step], every one of
    them within [t]; a slice with step zero gets Python's error and nothing
    else fails. *)
Theorem GetSlice_AsTuple (h : heap) self t s :
  AsTuple self h = (Returns t, h) →
  match PySlice_GetIndicesEx s (Z.of_nat (length t)) with
  | Throws e =>
      GetSlice self s h = (Throws e, h)
      ∧ slice_step s = Some 0
      ∧ e = python_error "ValueError: slice step cannot be zero"
  | Returns (start, stop, step, slicelength) =>
      ∃ out, GetSlice self s h = (Returns out, h)
             ∧ Z.of_nat (length out) = slicelength
             ∧ ∀ i, (i < length out)%nat →
                    is_Some (out !! i)
                    ∧ out !! i = t !! Z.to_nat (start + Z.of_nat i * step)
  end.
Proof.
  intros TA. rewrite (GetSlice_run h self t s TA).
  unfold PySlice_GetIndicesEx.
  destruct (PySlice_Unpack s) as [[[a b] st]|e] eqn:Eu.
  - pose proof (PySlice_Unpack_step _ _ _ _ Eu) as Hst.
    destruct (PySlice_AdjustIndices _ a b st) as [[a' b'] n] eqn:Ea.
    destruct (PySlice_AdjustIndices_bounds _ _ _ _ _ _ _
                (Nat2Z.is_nonneg _) Hst Ea) as [Hn Hb].
    destruct (tuple_slice_loop_spec t a' st (Z.to_nat n)) as (out & -> & Hl & Ho).
    { intros i Hi. apply Hb. lia. }
    exists out. split; [done|]. split; [lia|].
    intros i Hi. apply Ho. lia.
  - split; [done|]. unfold PySlice_Unpack in Eu.
    destruct (slice_step s) as [v|] eqn:Ev; [|done].
    destruct (Z.eqb_spec (Z.max (- PY_SSIZE_T_MAX) (clip_ssize_t v)) 0)
      as [Hz|]; [|done].
    injection Eu as <-. split; [|done]. f_equal.
    unfold clip_ssize_t, PY_SSIZE_T_MAX, PY_SSIZE_T_MIN in Hz. lia.
Qed.

Lemma GetSlice_AsTuple_witness :
  let h := [mkPyDeviceList (Some Sample.c0)
              (Native [DevicePtr 0; DevicePtr 1; DevicePtr 2; DevicePtr 3;
                       DevicePtr 4])] in
  let s := {| slice_start := Some (-2); slice_stop := None;
              slice_step := Some (-2) |} in
  ∃ out, GetSlice 0 s h = (Returns out, h) ∧ Z.of_nat (length out) = 2.
Proof.
  intros h s.
  pose proof (GetSlice_AsTuple h 0%nat
                (map Sample.d [0; 1; 2; 3; 4]%nat) s eq_refl) as G.
  assert (P : PySlice_GetIndicesEx s 5 = Returns (3, -1, -2, 2))
    by (vm_compute; reflexivity).
  change (Z.of_nat (length (map Sample.d [0; 1; 2; 3; 4]%nat))) with 5 in G.
  rewrite P in G. destruct G as (out & G1 & G2 & _). by exists out.
Defined.
Lemma PySlice_GetIndicesEx_full len :
  0 ≤ len ≤ PY_SSIZE_T_MAX →
  ∃ stop, PySlice_GetIndicesEx full_slice len = Returns (0, stop, 1, len).
Proof.
  unfold PySlice_GetIndicesEx, PySlice_Unpack, PySlice_AdjustIndices,
    full_slice, PY_SSIZE_T_MAX, PY_SSIZE_T_MIN.
  cbn [slice_start slice_stop slice_step].
  change (2 ^ 63 - 1) with 9223372036854775807.
  change (- 2 ^ 63) with (-9223372036854775808).
  intros Hl. change (1 =? 0) with false. change (1 <? 0) with false.
  cbv beta iota zeta. slice_cases.
  - assert (len = 0) as -> by lia. by eexists.
  - rewrite Z.quot_1_r. replace (len - 0 - 1 + 1) with len by lia.
    by eexists.
Qed.

Lemma PySlice_GetIndicesEx_reversed len :
  0 ≤ len ≤ PY_SSIZE_T_MAX →
  ∃ stop,
    PySlice_GetIndicesEx reversed_slice len = Returns (len - 1, stop, -1, len).
Proof.
  intros Hl. unfold PySlice_GetIndicesEx.
  assert (PySlice_Unpack reversed_slice
          = Returns (9223372036854775807, -9223372036854775808, -1)) as ->
    by (vm_compute; reflexivity).
  unfold PySlice_AdjustIndices, PY_SSIZE_T_MAX in *.
  change (2 ^ 63 - 1) with 9223372036854775807 in Hl.
  change (-1 <? 0) with true. cbv beta iota zeta. change (- -1) with 1.
  slice_cases.
  - rewrite Z.quot_1_r. replace (len - 1 - -1 - 1 + 1) with len by lia.
    by eexists.
  - assert (len = 0) as -> by lia. by eexists.
Qed.

(** X15: the whole and the reversed list.  [GetSlice] with the slice [[:]]
    returns the tuple view of the list, and with the slice [[::-1]] its
    reversal. *)
Theorem GetSlice_full_reversed (h : heap) self t :
  AsTuple self h = (Returns t, h) →
  Z.of_nat (length t) ≤ PY_SSIZE_T_MAX →
  GetSlice self full_slice h = (Returns t, h)
  ∧ GetSlice self reversed_slice h = (Returns (reverse t), h).
Proof.
  intros TA Hl.
  assert (Hr : 0 ≤ Z.of_nat (length t) ≤ PY_SSIZE_T_MAX) by lia.
  split.
  - rewrite (GetSlice_run h self t _ TA).
    destruct (PySlice_GetIndicesEx_full _ Hr) as (stop & ->).
    destruct (tuple_slice_loop_spec t 0 1 (Z.to_nat (Z.of_nat (length t))))
      as (out & -> & Hn & Ho); [intros i Hi; lia|].
    do 2 f_equal. apply list_eq. intros i.
    destruct (decide (i < length out)%nat) as [Hi|Hi].
    + destruct (Ho i ltac:(lia)) as [_ ->]. f_equal. lia.
    + rewrite !lookup_ge_None_2; [done | lia | lia].
  - rewrite (GetSlice_run h self t _ TA).
    destruct (PySlice_GetIndicesEx_reversed _ Hr) as (stop & ->).
    destruct (tuple_slice_loop_spec t (Z.of_nat (length t) - 1) (-1)
                (Z.to_nat (Z.of_nat (length t))))
      as (out & -> & Hn & Ho); [intros i Hi; lia|].
    do 2 f_equal. apply list_eq. intros i.
    destruct (decide (i < length out)%nat) as [Hi|Hi].
    + destruct (Ho i ltac:(lia)) as [_ ->].
      rewrite reverse_lookup by lia. f_equal. lia.
    + rewrite !lookup_ge_None_2; [done | | lia].
      rewrite length_reverse. lia.
Qed.

Lemma GetSlice_full_reversed_witness :
  let h := [mkPyDeviceList (Some Sample.c0)
              (Native [DevicePtr 0; DevicePtr 1; DevicePtr 2])] in
  GetSlice 0 full_slice h = (Returns [Sample.d 0; Sample.d 1; Sample.d 2], h)
  ∧ GetSlice 0 reversed_slice h
    = (Returns [Sample.d 2; Sample.d 1; Sample.d 0], h).
Proof.
  intros h.
  apply (GetSlice_full_reversed h 0%nat [Sample.d 0; Sample.d 1; Sample.d 2]
           eq_refl).
  unfold PY_SSIZE_T_MAX. simpl. lia.
Defined.
(** [PopulateMemoryKindInfo] on a live instance throws and leaves the store,
    or stores a record. *)
Lemma PopulateMemoryKindInfo_cases rt self (h : heap) o :
  h !! self = Some o →
  (∃ e, PopulateMemoryKindInfo rt self h = (Throws e, h))
  ∨ (∃ info, PopulateMemoryKindInfo rt self h
             = (Returns tt, <[self := set_memory_kind_info (Some info) o]> h)).
Proof.
  intros E. unfold PopulateMemoryKindInfo.
  rewrite bind_run, (deref_run _ _ _ E).
  destruct (device_list_ o) as [[|d dl]|t] eqn:Ed.
  - right. eexists. by rewrite (modify_run _ _ _ _ E).
  - right. destruct (DefaultMemory rt d);
      eexists; by rewrite (modify_run _ _ _ _ E).
  - unfold PopulateMemoryKindInfoForDuckTypedDevices.
    rewrite bind_run, (deref_run _ _ _ E), Ed.
    destruct t as [|d t].
    { right. eexists. by rewrite (modify_run _ _ _ _ E). }
    destruct (attr_default_memory_kind rt d) as [kind|[]];
      try (left; by eexists);
      try (right; eexists; by rewrite (modify_run _ _ _ _ E)).
    destruct (attr_addressable_memories rt d) as [kinds|[]];
      try (left; by eexists);
      try (right; eexists; by rewrite (modify_run _ _ _ _ E)).
Qed.

(** The two queries of the memory kinds run the same computation and
    differ in the member of the record they return. *)
Lemma memory_kind_queries_factor rt self (h : heap) :
  (∃ e, MemoryKinds rt self h = (Throws e, h)
        ∧ DefaultMemoryKind rt self h = (Throws e, h))
  ∨ (∃ info h1 o1,
       MemoryKinds rt self h = (Returns (memory_kinds_of info), h1)
       ∧ DefaultMemoryKind rt self h = (Returns (default_memory_kind_of info), h1)
       ∧ h1 !! self = Some o1 ∧ memory_kind_info_ o1 = Some info).
Proof.
  destruct (h !! self) as [o|] eqn:E.
  2: { left. exists DanglingReference. unfold MemoryKinds, DefaultMemoryKind.
       rewrite !bind_run. unfold deref. by rewrite E. }
  destruct (memory_kind_info_ o) as [info|] eqn:Ei.
  { right. exists info, h, o.
    destruct (memory_kind_queries_cached rt self h o info E Ei) as [M1 M2].
    by rewrite M1, M2. }
  destruct (PopulateMemoryKindInfo_cases rt self h o E) as [[e P]|[info P]].
  - left. exists e. unfold MemoryKinds, DefaultMemoryKind.
    by rewrite !bind_run, (deref_run _ _ _ E), Ei, !bind_run, P.
  - right.
    exists info, (<[self := set_memory_kind_info (Some info) o]> h),
      (set_memory_kind_info (Some info) o).
    destruct (memory_kind_queries_populate rt self h o info E Ei P) as [M1 M2].
    rewrite M1, M2. split; [by destruct info|]. split; [by destruct info|].
    split; [by apply (lookup_insert_self h self o)|done].
Qed.

(** X16: the memory kinds are computed once, whatever the result.  When
    [MemoryKinds] returns (a tuple of kinds or an error status),
    [DefaultMemoryKind] on the same store returns the matching member of the
    same record (the same status when it is an error) and leaves the same
    store; on every later store both return the same again and leave the
    store as it is, whatever the runtime [rt'] would answer by then. *)
Theorem memory_kind_info_memoized rt rt' self (h h1 : heap) r :
  MemoryKinds rt self h = (Returns r, h1) →
  ∃ info,
    r = memory_kinds_of info
    ∧ DefaultMemoryKind rt self h = (Returns (default_memory_kind_of info), h1)
    ∧ ∀ h2, heap_le h1 h2 →
        MemoryKinds rt' self h2 = (Returns r, h2)
        ∧ DefaultMemoryKind rt' self h2
          = (Returns (default_memory_kind_of info), h2).
Proof.
  intros R.
  destruct (memory_kind_queries_factor rt self h)
    as [(e & M1 & _)|(info & h1' & o1 & M1 & M2 & E1 & Ei)]; [congruence|].
  rewrite M1 in R. injection R as <- <-.
  exists info. split; [done|]. split; [done|].
  intros h2 L. destruct (L self o1 E1) as (o2 & E2 & S2).
  destruct (memory_kind_queries_cached rt' self h2 o2 info E2) as [N1 N2];
    [by apply (memo_memory_kind_info _ _ S2)|].
  rewrite N1, N2. by destruct info.
Qed.

Lemma memory_kind_info_memoized_witness :
  let o := mkPyDeviceList (Some Sample.c0) (Native [DevicePtr 0; DevicePtr 1]) in
  ∃ r h1, MemoryKinds Sample.rt 0 [o] = (Returns r, h1)
          ∧ MemoryKinds Sample.rt 0 h1 = (Returns r, h1)
          ∧ ∃ k, DefaultMemoryKind Sample.rt 0 h1 = (Returns (OkValue k), h1).
Proof.
  intros o.
  destruct (MemoryKinds Sample.rt 0 [o]) as [[r|e] h1] eqn:R;
    [|exfalso; vm_compute in R; discriminate R].
  exists r, h1. split; [done|].
  destruct (memory_kind_info_memoized Sample.rt Sample.rt 0%nat [o] h1 r R)
    as (info & Hr & _ & C).
  destruct (C h1 (heap_le_refl _)) as [C1 C2].
  split; [exact C1|].
  destruct info as [i|s]; [by exists (default_memory_kind i)|].
  exfalso. subst r. vm_compute in R. discriminate R.
Defined.

(** X17: the Python properties [memory_kinds] and [default_memory_kind]
    raise together: on every store, one raises an exception and leaves the
    store [h1] exactly when the other raises the same exception and leaves
    the same store. *)
Theorem memory_kind_getters_raise_together rt l (h h1 : heap) e :
  memory_kinds_getter rt l h = (Throws e, h1)
  ↔ default_memory_kind_getter rt l h = (Throws e, h1).
Proof.
  unfold memory_kinds_getter, default_memory_kind_getter. rewrite !bind_run.
  destruct (memory_kind_queries_factor rt l h)
    as [(e0 & -> & ->)|(info & h1' & o1 & -> & -> & _)].
  { split; by intros [= <- <-]. }
  destruct info as [i|s]; simpl.
  - unfold mret, M_ret. split; intros [=].
  - unfold throw. split; by intros [= <- <-].
Qed.

Lemma memory_kind_getters_raise_together_witness :
  let o := mkPyDeviceList (Some Sample.c0) (Native [DevicePtr 7; DevicePtr 6]) in
  let s := {| code := "UNIMPLEMENTED"; message := "no default memory" |} in
  let e := value_error "UNIMPLEMENTED: no default memory" in
  default_memory_kind_getter Sample.rt 0 [o]
  = (Throws e, [set_memory_kind_info (Some (ErrStatus s)) o]).
Proof.
  intros o s e.
  apply (memory_kind_getters_raise_together Sample.rt 0%nat [o]).
  vm_compute. reflexivity.
Defined.

(** The object the tuple constructor leaves behind for a tuple of native
    devices of one client holds these devices. *)
Lemma PyDeviceList_init_native rt c d rest o :
  all_native_one_client (PyDeviceObj c d :: rest) →
  PyDeviceList_init rt (PyDeviceObj c d :: rest) = Returns o →
  ∃ dl, device_list_ o = Native (d :: dl) ∧ length dl = length rest.
Proof.
  intros A. unfold PyDeviceList_init. cbn [length Nat.eqb].
  pose proof (convert_devices_None (PyDeviceObj c d) rest) as H.
  destruct (convert_devices _ None []) as [c'|c' devices]; [done|].
  destruct H as (c0 & -> & Ht).
  unfold MakeDeviceList.
  destruct (forallb _ devices); [|done]. simpl. intros [= <-]. simpl.
  destruct devices as [|d' dl]; [done|]. simpl in Ht.
  injection Ht as _ -> Hr. exists dl. split; [done|].
  by rewrite Hr, length_map.
Qed.

(** The object the tuple constructor leaves behind otherwise holds the
    tuple. *)
Lemma PyDeviceList_init_external rt t o :
  t = [] ∨ ¬ all_native_one_client t →
  PyDeviceList_init rt t = Returns o →
  device_list_ o = External t.
Proof.
  intros Ht. unfold PyDeviceList_init. destruct t as [|x t].
  { by intros [= <-]. }
  cbn [length Nat.eqb]. destruct Ht as [|N]; [done|].
  pose proof (convert_devices_None x t) as H.
  destruct (convert_devices _ None []) as [c'|c' devices].
  { by intros [= <-]. }
  destruct H as (c0 & -> & Hm). destruct N. exists c0.
  rewrite Hm. apply Forall_forall. intros y Hy.
  apply list_elem_of_In, in_map_iff in Hy as (dy & <- & _). by exists dy.
Qed.

(** X18: the device kind of a list made from a tuple.  For the instance the
    tuple constructor makes from a tuple [t] (of [int] length), the first
    call of [DeviceKind] returns and stores the kind of the device of the
    first element when [t] is not empty and all its elements are native
    devices of one client; otherwise, also when [t] is empty, it raises the
    [ValueError] of a list that contains non-IFRT devices and stores
    nothing. *)
Theorem DeviceKind_after_init rt Kind t o (h : heap) l :
  PyDeviceList_init rt t = Returns o →
  h !! l = Some o →
  Z.of_nat (length t) < 2 ^ 31 →
  (∀ c d rest, t = PyDeviceObj c d :: rest → all_native_one_client t →
     DeviceKind Kind l None h = (Returns (Kind d, Some (Kind d)), h))
  ∧ (t = [] ∨ ¬ all_native_one_client t →
     DeviceKind Kind l None h
     = (Throws (value_error
          "INVALID_ARGUMENT: DeviceList contains non-IFRT devices"), h)).
Proof.
  intros I E Hl. unfold DeviceKind. rewrite bind_run, (deref_run _ _ _ E).
  split.
  - intros c d rest -> A.
    destruct (PyDeviceList_init_native rt c d rest o A I) as (dl & Ed & Hn).
    unfold ifrt_device_list, Len.
    rewrite Ed, !bind_run, (deref_run _ _ _ E), Ed.
    unfold mret at 1, M_ret at 1.
    rewrite wrap_int_id by (simpl in *; lia).
    by replace (Z.of_nat (length (d :: dl)) =? 0) with false by (simpl; lia).
  - intros Ht. unfold ifrt_device_list.
    by rewrite (PyDeviceList_init_external rt t o Ht I).
Qed.

Lemma DeviceKind_after_init_witness :
  let t := [Sample.d 0; Sample.d 1] in
  let o := mkPyDeviceList (Some Sample.c0) (Native [DevicePtr 0; DevicePtr 1]) in
  let Kind := λ d : Device, match d with DevicePtr n => String.string_of_list_ascii [Ascii.ascii_of_nat (65 + n)] end in
  DeviceKind Kind 0 None [o] = (Returns ("A", Some "A"), [o])
  ∧ DeviceKind Kind 0 None [mkPyDeviceList None (External [])]
    = (Throws (value_error
         "INVALID_ARGUMENT: DeviceList contains non-IFRT devices"),
       [mkPyDeviceList None (External [])]).
Proof.
  intros t o Kind. split.
  - assert (I : PyDeviceList_init Sample.rt t = Returns o) by reflexivity.
    refine (proj1 (DeviceKind_after_init Sample.rt Kind t o [o] 0%nat I eq_refl
                     _) Sample.c0 (DevicePtr 0) [Sample.d 1] eq_refl _).
    + simpl. lia.
    + exists Sample.c0. repeat constructor; by eexists.
  - refine (proj2 (DeviceKind_after_init Sample.rt Kind []
                     (mkPyDeviceList None (External []))
                     [mkPyDeviceList None (External [])] 0%nat
                     eq_refl eq_refl _) (or_introl eq_refl)).
    simpl. lia.
Defined.

(** [GetSlice] and [Iter] only read. *)
Lemma GetSlice_pure self s (h : heap) : (GetSlice self s h).2 = h.
Proof.
  unfold GetSlice. rewrite bind_run. unfold deref.
  destruct (h !! self) as [o|]; [|done].
  destruct (device_list_ o) as [dl|t];
    by destruct (PySlice_GetIndicesEx s _) as [[[[start stop] step] n]|e].
Qed.

Lemma Iter_pure self (h : heap) : (Iter self h).2 = h.
Proof.
  unfold Iter. rewrite bind_run. unfold deref.
  destruct (h !! self) as [o|]; [|done]. by destruct (device_list_ o).
Qed.

(** Every call keeps the invariant and leads to a later store. *)
Lemma exec_preserves rt c (h : heap) :
  wf rt h → wf rt (exec rt c h) ∧ heap_le h (exec rt c h).
Proof.
  intros W. destruct c; cbn [exec].
  - by apply PyDeviceList_native_preserves.
  - by apply PyDeviceList_tuple_preserves.
  - by apply Hash_preserves.
  - by apply Equal_preserves.
  - by apply NotEqual_preserves.
  - apply preserves_at_pure; [done | apply Len_pure].
  - apply preserves_at_pure; [done | apply GetItem_pure].
  - apply preserves_at_pure; [done | apply GetSlice_pure].
  - by apply AsTuple_preserves.
  - apply preserves_at_pure; [done | apply Iter_pure].
  - by apply AsTuple_preserves.
  - by apply IsFullyAddressable_preserves.
  - by apply AddressableDeviceList_preserves.
  - by apply ProcessIndices_preserves.
  - by apply MemoryKinds_preserves.
  - by apply DefaultMemoryKind_preserves.
Qed.

Lemma run_preserves rt cs (h : heap) :
  wf rt h → wf rt (run rt cs h) ∧ heap_le h (run rt cs h).
Proof.
  revert h. induction cs as [|c cs IH]; intros h W.
  { split; [done | apply heap_le_refl]. }
  destruct (exec_preserves rt c h W) as [W1 L1].
  destruct (IH _ W1) as [W2 L2]. split; [exact W2|].
  by apply (heap_le_trans _ _ _ L1).
Qed.

(** X19: instances are immutable and the class invariant holds on every
    store the program reaches.  After any sequence of calls of the
    constructors and of the member functions, started on the empty store,
    the store satisfies the invariant; and any further calls lead to a later
    store: every instance is still there with the devices and the client it
    was made with, and every value it had memoized is unchanged. *)
Theorem run_invariant rt cs1 cs2 :
  wf rt (run rt (cs1 ++ cs2) [])
  ∧ heap_le (run rt cs1 []) (run rt (cs1 ++ cs2) []).
Proof.
  unfold run. rewrite foldl_app. fold (run rt cs1 []).
  fold (run rt cs2 (run rt cs1 [])).
  destruct (run_preserves rt cs1 [] (wf_nil rt)) as [W1 _].
  exact (run_preserves rt cs2 _ W1).
Qed.

(** X20: a fully addressable list is its own addressable sublist.  When
    [IsFullyAddressable] answers true, [AddressableDeviceList] returns
    [self] itself and builds nothing; so it does on every later store, and
    there the field [addressable_device_list_] of [self] is still empty: the
    list is never stored as its own sublist. *)
Theorem AddressableDeviceList_fully_addressable rt rt' self (h h0 : heap) :
  IsFullyAddressable rt self h = (Returns true, h0) →
  AddressableDeviceList rt self h = (Returns self, h0)
  ∧ ∀ h2, heap_le h0 h2 → wf rt' h2 →
      AddressableDeviceList rt' self h2 = (Returns self, h2)
      ∧ ∃ o2, h2 !! self = Some o2 ∧ addressable_device_list_ o2 = None.
Proof.
  intros EF. split.
  { unfold AddressableDeviceList. by rewrite bind_run, EF. }
  intros h2 L W2.
  destruct (IsFullyAddressable_live _ _ _ _ _ EF) as [o E].
  destruct (IsFullyAddressable_returns _ _ _ _ _ _ E EF) as (s & Eh0).
  pose proof (lookup_insert_self h self o
    (set_is_fully_addressable (Some true) (set_process_indices s o)) E) as E0.
  rewrite <- Eh0 in E0.
  destruct (L self _ E0) as (o2 & E2 & S2).
  assert (Eb : is_fully_addressable_ o2 = Some true)
    by (by apply (memo_is_fully_addressable _ _ S2)).
  split.
  - unfold AddressableDeviceList.
    by rewrite bind_run, (IsFullyAddressable_cached _ _ _ _ true E2 Eb).
  - exists o2. split; [done|].
    destruct (addressable_device_list_ o2) as [l|] eqn:El; [|done].
    destruct (wf_addressable _ _ _ _ (W2 _ _ E2) _ El) as (_ & _ & ?).
    congruence.
Qed.

Lemma AddressableDeviceList_fully_addressable_witness :
  let h := [mkPyDeviceList (Some Sample.c0) (Native [DevicePtr 0; DevicePtr 1])] in
  ∃ h0, AddressableDeviceList Sample.rt 0 h = (Returns 0%nat, h0)
        ∧ AddressableDeviceList Sample.rt 0 h0 = (Returns 0%nat, h0)
        ∧ ∃ o, h0 !! 0%nat = Some o ∧ addressable_device_list_ o = None.
Proof.
  intros h. exists (IsFullyAddressable Sample.rt 0 h).2.
  assert (EF : IsFullyAddressable Sample.rt 0 h
               = (Returns true, (IsFullyAddressable Sample.rt 0 h).2))
    by (vm_compute; reflexivity).
  destruct (AddressableDeviceList_fully_addressable Sample.rt Sample.rt 0%nat
              h _ EF) as [A1 A2].
  split; [exact A1|]. apply A2; [apply heap_le_refl|].
  pose proof (wf_nil Sample.rt) as W0.
  apply (PyDeviceList_native_preserves Sample.rt (Some Sample.c0)
           [DevicePtr 0; DevicePtr 1]) in W0 as [W1 _].
  exact (proj1 (IsFullyAddressable_preserves Sample.rt 0%nat h W1)).
Defined.
